(** * ingenialink: the MCB frame check sequence, the TCP ("eth") frame
      exchange, the serial session engine and the register labels.

    Shallow embedding of
      - [src/ingenialink/eth/net.c]   (CRC, [net_send], [net_recv],
                                       [process_statusword], [listener_eth],
                                       [il_net_reconnect]),
      - [src/ingenialink/net.c]       ([process_statusword], [process_sync],
                                       [il_net__read], [il_net__sw_subscribe],
                                       [il_net_create]),
      - [src/ingenialink/registers.c] ([il_reg_labels_get], [il_reg_labels_set]).

    Integers of the C code are [Z] with the truncation of every store into a
    [uint16_t] or [uint8_t] written out; memory a caller hands in by pointer
    is a finite map from addresses to bytes; what another thread or the
    operating system decides (the result of [send], [connect],
    [osal_cond_wait], the frames the listener decodes while a lock is
    released) is an explicit argument of the function that observes it.

    The model comes first, the facts about it second. *)

From Stdlib Require Import ZArith List Lia Bool.
From stdpp Require Import base option list gmap strings.

Local Open Scope Z_scope.

(** ** Fixed-width integers *)

Definition wrap8 (x : Z) : Z := Z.land x 0xFF.
Definition wrap16 (x : Z) : Z := Z.land x 0xFFFF.

Definition is_u8 (x : Z) : Prop := 0 <= x < 256.
Definition is_u16 (x : Z) : Prop := 0 <= x < 65536.

(** [seqZ_from lo n] is [lo; lo+1; ...; lo+n-1]. *)
Fixpoint seqZ_from (lo : Z) (n : nat) : list Z :=
  match n with
  | O => []
  | S k => lo :: seqZ_from (lo + 1) k
  end.

(** ** CRC of the TCP profile ([src/ingenialink/eth/net.c], lines 50-102) *)

Module Crc.

(** One turn of the inner [for (j ...)] loop of [init_crcccitt_tab_eth]:
    the pair is [(crc, c)], both [uint16_t]. *)
Definition tab_step (s : Z * Z) : Z * Z :=
  let '(crc, c) := s in
  let crc' :=
    if Z.eqb (Z.land (Z.lxor crc c) 0x8000) 0
    then wrap16 (Z.shiftl crc 1)
    else wrap16 (Z.lxor (Z.shiftl crc 1) 0x1021) in
  (crc', wrap16 (Z.shiftl c 1)).

(** The body of the outer loop: the value stored in
    [crc_tabccitt_eth[i]]. *)
Definition tab_entry (i : Z) : Z :=
  fst (Nat.iter 8 tab_step (0, wrap16 (Z.shiftl i 8))).

(** The process-wide memo: the flag and the 256-entry table. *)
Record crc_globals : Type := mkCrcGlobals {
  crc_tabccitt_init_eth : bool;
  crc_tabccitt_eth : list Z
}.

Definition crc_globals_start : crc_globals :=
  mkCrcGlobals false (replicate 256 0).

Definition init_crcccitt_tab_eth (g : crc_globals) : crc_globals :=
  mkCrcGlobals true (map tab_entry (seqZ_from 0 256)).

(** The table once it has been filled. *)
Definition crc_table : list Z :=
  Eval vm_compute in crc_tabccitt_eth (init_crcccitt_tab_eth crc_globals_start).

Definition tab_lookup (t : list Z) (i : Z) : Z := nth (Z.to_nat i) t 0.

(** [update_crc_ccitt_eth] with the memo threaded through. *)
Definition update_crc_ccitt_eth_st (g : crc_globals) (crc c : Z)
  : crc_globals * Z :=
  let g' := if crc_tabccitt_init_eth g then g else init_crcccitt_tab_eth g in
  (g', wrap16 (Z.lxor (Z.shiftl crc 8)
                 (tab_lookup (crc_tabccitt_eth g')
                    (Z.land (Z.lxor (Z.shiftr crc 8) c) 0x00FF)))).

(** [update_crc_ccitt_eth] reading the filled table: the flag only guards
    the one-time fill (see [update_crc_ccitt_eth_st_pure]). *)
Definition update_crc_ccitt_eth (crc c : Z) : Z :=
  wrap16 (Z.lxor (Z.shiftl crc 8)
            (tab_lookup crc_table
               (Z.land (Z.lxor (Z.shiftr crc 8) c) 0x00FF))).

(** [crc_calc_eth buf u16Sz]: [buf] is the memory behind the pointer, read
    byte by byte ([pu8In]); the loop visits the first [2 * u16Sz] bytes. *)
Definition crc_calc_eth (buf : list Z) (u16Sz : Z) : Z :=
  fold_left update_crc_ccitt_eth (take (Z.to_nat (u16Sz * 2)) buf) 0x0000.

(** *** CRC-CCITT as the specification words it

    Polynomial [0x1021], initial value [0x0000], each byte entered at the
    top of the register (most significant bit first), eight shift steps
    per byte, no final XOR. *)

Definition ccitt_poly : Z := 0x1021.

Definition ccitt_shift (r : Z) : Z :=
  if Z.testbit r 15
  then wrap16 (Z.lxor (Z.shiftl r 1) ccitt_poly)
  else wrap16 (Z.shiftl r 1).

Definition ccitt_byte (r b : Z) : Z :=
  Nat.iter 8 ccitt_shift (Z.lxor r (Z.shiftl b 8)).

Definition crc_ccitt_spec (bytes : list Z) : Z :=
  fold_left ccitt_byte bytes 0x0000.

(** The memo is sound when the flag, once raised, sits on the filled
    table. *)
Definition memo_ok (g : crc_globals) : Prop :=
  crc_tabccitt_init_eth g = true -> crc_tabccitt_eth g = crc_table.

(** One entry of the exhaustive comparison of the table step with eight
    shift steps. *)
Definition table_step_agrees (x : Z) : bool :=
  Z.eqb (Nat.iter 8 ccitt_shift x) (update_crc_ccitt_eth x 0).

End Crc.

(** ** Error channel *)

(** Modelled from the spec: the error codes of [ingenialink/err.h], which is
    not among the sources.  They are the negative [int]s the sources name,
    one per kind of section 7. *)
Inductive il_err : Type :=
  | IL_EFAIL | IL_EINVAL | IL_ETIMEDOUT | IL_ENOMEM | IL_EALREADY
  | IL_EIO | IL_ENOTSUP | IL_ESTATE | IL_EFAULT.

(** An [int] return value: [0] on success, a code of the library, or the
    return value of another library handed through unchanged (as
    [il_net__read] does with the result of [ser_write]). *)
Inductive il_ret : Type :=
  | IL_OK
  | IL_ERR (e : il_err)
  | IL_RAW (r : Z).

(** The test [r < 0] on a return value. *)
Definition ret_neg (r : il_ret) : bool :=
  match r with
  | IL_OK => false
  | IL_ERR _ => true
  | IL_RAW z => z <? 0
  end.

(** An argument of the [printf]-style [ilerr__set]. *)
Inductive fmt_arg : Type :=
  | ArgInt (z : Z)
  | ArgStr (s : string).

(** A call [ilerr__set(fmt, args...)]: the process-wide last error. *)
Record err_msg : Type := mkErr { err_fmt : string; err_args : list fmt_arg }.

(** ** What the absent headers fix

    [eth/frame.h], [net.h] and [utils.h] are not among the sources.  The
    layout constants the specification spells out are definitions below; the
    rest is this interface. *)

Class headers : Type := {
  ETH_MCB_NODE_DFLT : Z;          (* eth/frame.h *)
  STATUSWORD_IDX : Z;             (* net.h *)
  STATUSWORD_SIDX : Z;            (* net.h *)
  SW_SUBS_SZ_DEF : Z;             (* net.h *)
  sizeof_subscriber : Z;          (* sizeof(il_net_sw_subscriber_t) *)
  swap_16 : Z -> Z;               (* utils.h, __swap_16 *)
  ilerr__ser : Z -> il_err        (* err.c: serial error to library error *)
}.

(** ** Statusword subscribers (shared by both profiles) *)

(** [il_net_sw_subscriber_t]: [cb] is a function pointer, [0] is [NULL]. *)
Record sw_subscriber : Type := mkSub { sub_id : Z; sub_cb : Z; sub_ctx : Z }.

(** The subscriber list: [subs] is the heap array (its length is the number
    of entries the allocation holds), [cnt] and [sz] the two counters. *)
Record sw_subs_t : Type := mkSubs {
  subs : list sw_subscriber;
  cnt : Z;
  sz : Z
}.

(** One call [cb(ctx, sw)]. *)
Record cb_call : Type := mkCall { call_cb : Z; call_ctx : Z; call_sw : Z }.

(** ** TCP profile ([src/ingenialink/eth/net.c]) *)

Module Eth.

(** Modelled from the spec: the frame layout of section 3 (word 0 [HDR_H],
    word 1 [HDR_L] with the pending bit at bit 0, [cmd] from bit 1 and the
    address from bit 4, words 2..5 data, word 6 CRC) and the [cmd] codes;
    [eth/frame.h] is not among the sources. *)
Definition ETH_MCB_FRAME_SZ : Z := 7.
Definition ETH_MCB_HDR_H_POS : nat := 0.
Definition ETH_MCB_HDR_L_POS : nat := 1.
Definition ETH_MCB_DATA_POS : nat := 2.
Definition ETH_MCB_CRC_POS : nat := 6.
Definition ETH_MCB_CMD_POS : Z := 1.
Definition ETH_MCB_CMD_MSK : Z := 0x0E.
Definition ETH_MCB_CMD_READ : Z := 1.
Definition ETH_MCB_CMD_WRITE : Z := 2.
Definition ETH_MCB_CMD_ACK : Z := 3.

(** *** [uint16_t frame[7]] and the bytes behind it

    The host is little-endian (the file is Winsock code): word [w] lies in
    memory as its low byte followed by its high byte. *)
Definition bytes_of_word (w : Z) : list Z := [Z.land w 0xFF; Z.shiftr w 8].

Definition bytes_of_words (ws : list Z) : list Z := flat_map bytes_of_word ws.

Definition word_of_bytes (lo hi : Z) : Z := Z.lor lo (Z.shiftl hi 8).

Fixpoint words_of_bytes (bs : list Z) : list Z :=
  match bs with
  | lo :: hi :: rest => word_of_bytes lo hi :: words_of_bytes rest
  | _ => []
  end.

(** [frame[i]] read from the bytes of the frame. *)
Definition word_at (bs : list Z) (i : nat) : Z :=
  word_of_bytes (nth (2 * i) bs 0) (nth (2 * i + 1) bs 0).

(** [*(uint32_t * )&frame[i]] on the little-endian host. *)
Definition load_u32 (bs : list Z) (i : nat) : Z :=
  Z.lor (word_at bs i) (Z.shiftl (word_at bs (i + 1)) 16).

(** Modelled from the spec: [__swap_be_32] of [utils.h] (not among the
    sources) turns a big-endian 32-bit value into the host's, that is, on
    this host it reverses the four bytes. *)
Definition __swap_be_32 (x : Z) : Z :=
  Z.lor (Z.lor (Z.shiftl (Z.land x 0xFF) 24)
               (Z.shiftl (Z.land (Z.shiftr x 8) 0xFF) 16))
        (Z.lor (Z.shiftl (Z.land (Z.shiftr x 16) 0xFF) 8)
               (Z.land (Z.shiftr x 24) 0xFF)).

(** [memcpy(dst, src, n)] between two objects given by their bytes; [None]
    when [n] bytes do not fit the destination or are not there to read. *)
Definition memcpy (dst src : list Z) (n : Z) : option (list Z) :=
  if (n <=? Z.of_nat (length dst)) && (n <=? Z.of_nat (length src))
  then Some (take (Z.to_nat n) src ++ drop (Z.to_nat n) dst)
  else None.

Definition msg_crc : err_msg :=
  mkErr "Communications error (CRC mismatch)" [].

Definition msg_nack (err : Z) : err_msg :=
  mkErr "Communications error (NACK -> %08x)" [ArgInt err].

(** How a loop over a finite stretch of the environment ends. *)
Inductive loop_end (A : Type) : Type :=
  | Left_loop (a : A)      (* the loop condition failed *)
  | Still_in               (* the environment ran out inside the loop *)
  | Faulted.               (* an out-of-range access *)
Arguments Left_loop {A} a.
Arguments Still_in {A}.
Arguments Faulted {A}.

Section WithHeaders.
Context `{H : headers}.

(** *** [net_send] (lines 473-521)

    [data] is the object behind the pointer, [sz] the byte count.  The
    result is the 14 bytes handed to [send] together with the return
    value; [send_r] is what [send] returns.  [None]: [memcpy] overruns
    the 8-byte [d]. *)
Definition net_send (send_r : Z) (subnode address : Z) (data : list Z)
    (sz : Z) : option (list Z * il_ret) :=
  let cmd := if sz =? 0 then ETH_MCB_CMD_READ else ETH_MCB_CMD_WRITE in
  let pending := 0 in
  let hdr_h := wrap16 (Z.lor (Z.shiftl ETH_MCB_NODE_DFLT 4) subnode) in
  let hdr_l :=
    wrap16 (Z.lor (Z.lor (Z.shiftl address 4) (Z.shiftl cmd 1)) pending) in
  let d0 := replicate 8 0 in
  match (if 0 <? sz then memcpy d0 data sz else Some d0) with
  | None => None
  | Some d =>
      let frame := [hdr_h; hdr_l] ++ words_of_bytes d in
      let crc :=
        Crc.crc_calc_eth (bytes_of_words frame) (Z.of_nat ETH_MCB_CRC_POS) in
      let frame := frame ++ [crc] in
      Some (bytes_of_words frame,
            if send_r <? 0 then IL_ERR (ilerr__ser send_r) else IL_OK)
  end.

(** *** [net_recv] (lines 523-569)

    [rx] is the content of [frame] after [recv]; the result of [recv]
    itself is not looked at by the code.  [subnode] and [address] are
    not checked either. *)
Inductive recv_result : Type :=
  | RecvOk (copied : list Z)          (* return 0; bytes stored in buf *)
  | RecvErr (e : il_err) (m : err_msg) (* return e after ilerr__set m *)
  | RecvFault.                        (* memcpy reads past the frame *)

Definition frame_cmd (rx : list Z) : Z :=
  Z.shiftr (Z.land (word_at rx ETH_MCB_HDR_L_POS) ETH_MCB_CMD_MSK)
           ETH_MCB_CMD_POS.

Definition net_recv (rx : list Z) (subnode address : Z) (sz : Z)
  : recv_result :=
  let crc := word_at rx 6 in
  let crc_res := Crc.crc_calc_eth rx 6 in
  if negb (crc_res =? crc) then RecvErr IL_EIO msg_crc
  else
    let cmd := frame_cmd rx in
    if negb (cmd =? ETH_MCB_CMD_ACK) then
      let err := __swap_be_32 (load_u32 rx ETH_MCB_DATA_POS) in
      RecvErr IL_EIO (msg_nack err)
    else if sz =? 0 then RecvOk []
    else
      match memcpy (replicate (Z.to_nat sz) 0)
                   (drop (2 * ETH_MCB_DATA_POS) rx) sz with
      | Some bs => RecvOk bs
      | None => RecvFault
      end.

Definition recv_ret (r : recv_result) : option il_ret :=
  match r with
  | RecvOk _ => Some IL_OK
  | RecvErr e _ => Some (IL_ERR e)
  | RecvFault => None
  end.

(** *** [process_statusword] (lines 112-138)

    [data] is the pointer argument itself: [sw = data] stores the
    address, cut to 16 bits, not what it points to.  The loop runs over
    the [sz] slots and leaves after the first call. *)
Fixpoint sw_scan (n : nat) (i : nat) (arr : list sw_subscriber)
    (id sw : Z) : option (list cb_call) :=
  match n with
  | O => Some []
  | S k =>
      match arr !! i with
      | None => None
      | Some s =>
          if (sub_id s =? id) && negb (sub_cb s =? 0)
          then Some [mkCall (sub_cb s) (sub_ctx s) sw]
          else sw_scan k (S i) arr id sw
      end
  end.

Definition process_statusword (sl : sw_subs_t) (subnode : Z) (data : Z)
  : option (list cb_call) :=
  let id := wrap8 subnode in
  let sw := wrap16 data in
  sw_scan (Z.to_nat (sz sl)) 0 (subs sl) id sw.

(** *** [listener_eth] (lines 146-182) *)

(** What one turn of the poll loop meets: the result of [send], the
    frame [recv] leaves, the subscriber list found under its lock. *)
Record poll_env : Type := mkPoll {
  pe_send : Z;
  pe_rx : list Z;
  pe_subs : sw_subs_t
}.

(** The listener's locals: [error_count] and the [uint16_t buf]. *)
Record listener_st : Type := mkLst { error_count : Z; buf : Z }.

(** The poll proper: [net_send] then, if that went through, [net_recv]
    into [buf].  Gives the new locals. *)
Definition poll_io (st : listener_st) (e : poll_env) : option listener_st :=
  match net_send (pe_send e) 1 0x0011 [] 0 with
  | None => None
  | Some (_, r) =>
      if ret_neg r then Some (mkLst (error_count st + 1) (buf st))
      else
        match net_recv (pe_rx e) 1 0x0011 2 with
        | RecvFault => None
        | RecvErr _ _ => Some (mkLst (error_count st + 1) (buf st))
        | RecvOk bs => Some (mkLst 0 (word_at bs 0))
        end
  end.

(** Whether the poll of a turn fails: [net_send] or, after it,
    [net_recv] returns [r < 0]. *)
Definition poll_failed (e : poll_env) : bool :=
  match net_send (pe_send e) 1 0x0011 [] 0 with
  | Some (_, r) =>
      ret_neg r ||
      match net_recv (pe_rx e) 1 0x0011 2 with
      | RecvErr _ _ => true
      | _ => false
      end
  | None => false
  end.

(** One turn of the [while]: the poll, then what follows the [unlock:]
    label, which every path reaches. [buf_addr] is [&buf]. *)
Definition poll_turn (buf_addr : Z) (st : listener_st) (e : poll_env)
  : option (listener_st * list cb_call) :=
  match poll_io st e with
  | None => None
  | Some st' =>
      match process_statusword (pe_subs e) 1 buf_addr with
      | None => None
      | Some calls => Some (st', calls)
      end
  end.

(** [while (error_count < 10) { ... }] over the polls [ps]; gives the
    locals, the polls not consumed and the calls made. *)
Fixpoint poll_loop (buf_addr : Z) (st : listener_st) (ps : list poll_env)
    (log : list cb_call)
  : loop_end (listener_st * list poll_env) * list cb_call :=
  if error_count st <? 10 then
    match ps with
    | [] => (Still_in, log)
    | e :: rest =>
        match poll_turn buf_addr st e with
        | None => (Faulted, log)
        | Some (st', calls) => poll_loop buf_addr st' rest (log ++ calls)
        end
    end
  else (Left_loop (st, ps), log).

(** *** [il_net_reconnect] (lines 217-239) *)

Record eth_flags : Type := mkFlags { stop : Z; stop_reconnect : Z }.

(** What one turn of the reconnect loop meets: the result of [connect],
    and whether [il_eth_mon_stop] ran on another thread before the
    turn's [Sleep(1000)] was over. *)
Record reconnect_env : Type := mkRc { rc_connect : Z; rc_mon_stop : bool }.

Fixpoint reconnect_loop (r : Z) (fl : eth_flags) (evs : list reconnect_env)
  : loop_end (eth_flags * list reconnect_env) :=
  if (r <? 0) && (stop_reconnect fl =? 0) then
    match evs with
    | [] => Still_in
    | e :: rest =>
        let fl1 :=
          if rc_connect e <? 0 then fl
          else mkFlags 0 (stop_reconnect fl) in
        let fl2 :=
          if rc_mon_stop e then mkFlags (stop fl1) 1 else fl1 in
        reconnect_loop (rc_connect e) fl2 rest
    end
  else Left_loop (fl, evs).

(** Gives the return value [r = this->stop_reconnect], the flags and the
    turns not consumed. *)
Definition il_net_reconnect (fl : eth_flags) (evs : list reconnect_env)
  : loop_end (Z * eth_flags * list reconnect_env) :=
  match reconnect_loop (-1) (mkFlags 1 (stop_reconnect fl)) evs with
  | Left_loop (fl', rest) => Left_loop (stop_reconnect fl', fl', rest)
  | Still_in => Still_in
  | Faulted => Faulted
  end.

(** Where the listener stands once the environment given is used up. *)
Inductive listener_end : Type :=
  | Returned (r : Z)       (* the thread function returned r *)
  | In_poll_loop
  | In_reconnect
  | Listener_fault
  | More_restarts.         (* the bound on [goto restart] was reached *)

(** [restarts] bounds the number of passes through [restart:]. *)
Fixpoint listener_eth (restarts : nat) (buf_addr : Z) (buf0 : Z)
    (fl : eth_flags) (ps : list poll_env) (rs : list reconnect_env)
    (log : list cb_call) : listener_end * list cb_call :=
  match restarts with
  | O => (More_restarts, log)
  | S k =>
      match poll_loop buf_addr (mkLst 0 buf0) ps log with
      | (Still_in, log') => (In_poll_loop, log')
      | (Faulted, log') => (Listener_fault, log')
      | (Left_loop (st, ps'), log') =>
          if error_count st =? 10 then
            match il_net_reconnect fl rs with
            | Still_in => (In_reconnect, log')
            | Faulted => (Listener_fault, log')
            | Left_loop (r, fl', rs') =>
                if r =? 0
                then listener_eth k buf_addr (buf st) fl' ps' rs' log'
                else (Returned 0, log')
            end
          else (Returned 0, log')
      end
  end.

(** What [net_send] hands to [send], with [d] the eight bytes of the
    local [uint64_t]. *)
Definition wire_of (subnode address sz : Z) (d : list Z) : list Z :=
  let cmd := if sz =? 0 then ETH_MCB_CMD_READ else ETH_MCB_CMD_WRITE in
  let hdr_h := wrap16 (Z.lor (Z.shiftl ETH_MCB_NODE_DFLT 4) subnode) in
  let hdr_l :=
    wrap16 (Z.lor (Z.lor (Z.shiftl address 4) (Z.shiftl cmd 1)) 0) in
  let frame := [hdr_h; hdr_l] ++ words_of_bytes d in
  bytes_of_words
    (frame ++ [Crc.crc_calc_eth (bytes_of_words frame) (Z.of_nat ETH_MCB_CRC_POS)]).

End WithHeaders.

End Eth.

(** ** The specification's own readings, to compare the code with *)

(** The bytes of scenario S1. *)
Definition s1_bytes : list Z :=
  [0x00;0x00; 0x00;0x30; 0x00;0x00;0x00;0x00; 0x00;0x00;0x00;0x00].

(** Scenario S2: the reply to a read of address [0x0011] on subnode 1, with
    [cmd = ACK] and payload [0x34, 0x12]; S3: a reply with another [cmd] and
    payload [DE AD BE EF]; S4: the S2 reply with its CRC zeroed. *)
Definition s2_reply : list Z :=
  [0xA1;0x00; 0x16;0x01; 0x34;0x12;0x00;0x00; 0x00;0x00;0x00;0x00; 0x57;0xD5].

Definition s3_reply : list Z :=
  [0xA1;0x00; 0x1A;0x01; 0xDE;0xAD;0xBE;0xEF; 0x00;0x00;0x00;0x00; 0x0B;0x8E].

Definition s4_reply : list Z :=
  [0xA1;0x00; 0x16;0x01; 0x34;0x12;0x00;0x00; 0x00;0x00;0x00;0x00; 0x00;0x00].

(** The [cmd] field as the frame layout of section 3 places it: the three
    bits 3..1 of word 1 ([HDR_L]), which for ACK (code 3) read 0, 1, 1. *)
Definition cmd_is_ack (rx : list Z) : Prop :=
  Z.testbit (Eth.word_at rx 1) 3 = false /\
  Z.testbit (Eth.word_at rx 1) 2 = true /\
  Z.testbit (Eth.word_at rx 1) 1 = true.

(** Four bytes read as a big-endian 32-bit value. *)
Definition be32 (bs : list Z) : Z :=
  nth 0 bs 0 * 2 ^ 24 + nth 1 bs 0 * 2 ^ 16 + nth 2 bs 0 * 2 ^ 8 + nth 3 bs 0.

(** A payload of at most eight bytes, zero-padded to eight. *)
Definition pad8 (payload : list Z) : list Z :=
  payload ++ replicate (8 - length payload) 0.

(** The number of failed polls in a row at the end of [ps], counted on from
    [c]: a success resets the count, a failure adds one. *)
Definition failures_in_a_row `{headers} (c : Z) (ps : list Eth.poll_env) : Z :=
  fold_left (fun n e => if Eth.poll_failed e then n + 1 else 0) ps c.

(** A poll the listener can make without leaving its objects: [recv] left
    the 14 bytes of a frame, and the [sz] slots the dispatch walks lie
    within the subscriber array. *)
Definition poll_well_formed (e : Eth.poll_env) : Prop :=
  length (Eth.pe_rx e) = 14%nat /\
  sz (Eth.pe_subs e) <= Z.of_nat (length (subs (Eth.pe_subs e))).

(** A turn of the reconnect loop that lets the loop go on: [connect] failed
    and nobody asked to stop. *)
Definition reconnect_goes_on (e : Eth.reconnect_env) : Prop :=
  Eth.rc_connect e < 0 /\ Eth.rc_mon_stop e = false.

(** ** Serial profile ([src/ingenialink/net.c]) *)

Module Serial.

(** Modelled from the spec: a decoded serial frame has a node id (8 bits),
    an index (16 bits), a sub-index (8 bits) and a payload; [frame.c] with
    the [il_frame__get_*] accessors is not among the sources. *)
Record il_frame_t : Type := mkFrame {
  frame_id : Z;
  frame_idx : Z;
  frame_sidx : Z;
  frame_data : list Z
}.

Definition il_frame__get_id (f : il_frame_t) : Z := frame_id f.
Definition il_frame__get_idx (f : il_frame_t) : Z := frame_idx f.
Definition il_frame__get_sidx (f : il_frame_t) : Z := frame_sidx f.
Definition il_frame__get_sz (f : il_frame_t) : Z := Z.of_nat (length (frame_data f)).
Definition il_frame__get_data (f : il_frame_t) : list Z := frame_data f.

(** [*(uint16_t * )data] on the little-endian host. *)
Definition load_u16 (data : list Z) : Z :=
  Z.lor (nth 0 data 0) (Z.shiftl (nth 1 data 0) 8).

(** The states the sources name. *)
Inductive il_net_state_t : Type :=
  | IL_NET_STATE_OPERATIVE
  | IL_NET_STATE_FAULTY
  | IL_NET_STATE_UNKNOWN.

Definition state_is_operative (s : il_net_state_t) : bool :=
  match s with IL_NET_STATE_OPERATIVE => true | _ => false end.

(** [net->sync]: [sync_buf] and [sync_recvd] are addresses, [0] is [NULL]. *)
Record sync_t : Type := mkSync {
  sync_id : Z;
  sync_idx : Z;
  sync_sidx : Z;
  sync_buf : Z;
  sync_sz : Z;
  sync_recvd : Z;
  sync_complete : Z
}.

Record il_net_t : Type := mkNet {
  state : il_net_state_t;
  sync : sync_t;
  sw_subs : sw_subs_t
}.

(** The memory callers hand in by pointer: bytes by address, and the
    [size_t] objects by address. *)
Record memory : Type := mkMem {
  mem_bytes : gmap Z Z;
  mem_sizes : gmap Z Z
}.

(** [memcpy(dst, data, sz)] with [sz] the length of [data]. *)
Fixpoint store_bytes (m : gmap Z Z) (dst : Z) (data : list Z) : gmap Z Z :=
  match data with
  | [] => m
  | b :: rest => store_bytes (<[dst := b]> m) (dst + 1) rest
  end.

Definition set_complete (s : sync_t) (c : Z) : sync_t :=
  mkSync (sync_id s) (sync_idx s) (sync_sidx s) (sync_buf s) (sync_sz s)
         (sync_recvd s) c.

(** Modelled from the spec: [osal_cond_wait] of the OS layer returns [0]
    when woken, [OSAL_ETIMEDOUT], or another negative code. *)
Inductive osal_wait_t : Type := OSAL_WOKEN | OSAL_ETIMEDOUT | OSAL_EOTHER.

Definition msg_realloc : err_msg := mkErr "Subscribers re-allocation failed" [].

Section WithHeaders.
Context `{H : headers}.

(** *** [process_statusword] (lines 46-75): the loop over [cnt] entries,
    no [break]. [None]: an index past the array. *)
Fixpoint sw_each (n : nat) (i : nat) (arr : list sw_subscriber)
    (id sw : Z) : option (list cb_call) :=
  match n with
  | O => Some []
  | S k =>
      match arr !! i with
      | None => None
      | Some s =>
          match sw_each k (S i) arr id sw with
          | None => None
          | Some calls =>
              Some (if sub_id s =? id
                    then mkCall (sub_cb s) (sub_ctx s) sw :: calls
                    else calls)
          end
      end
  end.

Definition process_statusword (net : il_net_t) (frame : il_frame_t)
  : option (list cb_call) :=
  let idx := il_frame__get_idx frame in
  let sidx := il_frame__get_sidx frame in
  if (idx =? STATUSWORD_IDX) && (sidx =? STATUSWORD_SIDX) then
    let id := il_frame__get_id frame in
    let sw := swap_16 (load_u16 (il_frame__get_data frame)) in
    sw_each (Z.to_nat (cnt (sw_subs net))) 0 (subs (sw_subs net)) id sw
  else Some [].

(** *** [process_sync] (lines 85-111), run under [sync.lock]; the
    [bool] tells whether [osal_cond_signal] was called. *)
Definition process_sync (s : sync_t) (m : memory) (frame : il_frame_t)
  : sync_t * memory * bool :=
  if sync_complete s =? 0 then
    let id := il_frame__get_id frame in
    let idx := il_frame__get_idx frame in
    let sidx := il_frame__get_sidx frame in
    let sz := il_frame__get_sz frame in
    if ((sync_id s =? id) || (sync_id s =? 0))
       && (sync_idx s =? idx) && (sync_sidx s =? sidx)
       && (sync_sz s >=? sz)
    then
      let data := il_frame__get_data frame in
      let bytes' := store_bytes (mem_bytes m) (sync_buf s) data in
      let sizes' :=
        if sync_recvd s =? 0 then mem_sizes m
        else <[sync_recvd s := sz]> (mem_sizes m) in
      (set_complete s 1, mkMem bytes' sizes', true)
    else (s, m, false)
  else (s, m, false).

(** The listener handling the decoded responses [fs] one after the
    other; counts the signals. *)
Fixpoint listener_sync (s : sync_t) (m : memory) (fs : list il_frame_t)
  : sync_t * memory * nat :=
  match fs with
  | [] => (s, m, O)
  | f :: rest =>
      let '(s1, m1, sig) := process_sync s m f in
      let '(s2, m2, n) := listener_sync s1 m1 rest in
      (s2, m2, if sig then S n else n)
  end.

(** *** [il_net__read] (lines 247-306)

    What the call meets: the result of [ser_write]; the responses the
    listener handles while [sync.lock] is free between the [unlock] and
    the [lock]; those it handles during [osal_cond_wait]; the result of
    the wait. *)
Record read_env : Type := mkReadEnv {
  re_write : Z;
  re_gap : list il_frame_t;
  re_waiting : list il_frame_t;
  re_wait : osal_wait_t
}.

Definition il_net__read (net : il_net_t) (m : memory)
    (id idx sidx buf sz recvd timeout : Z) (env : read_env)
  : il_net_t * memory * il_ret :=
  if negb (state_is_operative (state net)) then (net, m, IL_ERR IL_ESTATE)
  else
    let s0 := mkSync id idx sidx buf sz recvd 0 in
    if re_write env <? 0 then
      (mkNet (state net) (set_complete s0 1) (sw_subs net), m,
       IL_RAW (re_write env))
    else
      let '(s1, m1, _) := listener_sync s0 m (re_gap env) in
      let '(s2, m2, r) :=
        if sync_complete s1 =? 0 then
          let '(s2, m2, _) := listener_sync s1 m1 (re_waiting env) in
          (s2, m2,
           match re_wait env with
           | OSAL_ETIMEDOUT => IL_ERR IL_ETIMEDOUT
           | OSAL_EOTHER => IL_ERR IL_EFAIL
           | OSAL_WOKEN => IL_OK
           end)
        else (s1, m1, IL_OK) in
      (mkNet (state net) (set_complete s2 1) (sw_subs net), m2, r).

(** *** The subscriber array

    [realloc(arr, bytes)]: the block then holds
    [bytes / sizeof(il_net_sw_subscriber_t)] entries, the old ones kept;
    [fill] stands for the indeterminate content of the new ones. *)
Definition realloc (arr : list sw_subscriber) (bytes : Z)
    (fill : sw_subscriber) : list sw_subscriber :=
  let n := Z.to_nat (bytes / sizeof_subscriber) in
  take n (arr ++ replicate (n - length arr) fill).

(** The part of [il_net_create] (lines 419-432) that sets the list up. *)
Definition il_net_create_sw_subs (fill : sw_subscriber) : sw_subs_t :=
  mkSubs (realloc [] (sizeof_subscriber * SW_SUBS_SZ_DEF) fill)
         0 SW_SUBS_SZ_DEF.

(** [il_net__sw_subscribe] (lines 308-343). [realloc_ok] is whether
    [realloc] gives a block. *)
Inductive subscribe_result : Type :=
  | Subscribed (sl : sw_subs_t)        (* return 0 *)
  | Sub_nomem (sl : sw_subs_t) (m : err_msg)  (* return IL_ENOMEM *)
  | Sub_overrun.                       (* the store lands past the block *)

Definition il_net__sw_subscribe (sl : sw_subs_t) (id cb ctx : Z)
    (realloc_ok : bool) (fill : sw_subscriber) : subscribe_result :=
  let grown :=
    if cnt sl =? sz sl then
      let sz' := 2 * sz sl * sizeof_subscriber in
      if realloc_ok
      then Some (mkSubs (realloc (subs sl) sz' fill) (cnt sl) sz')
      else None
    else Some sl in
  match grown with
  | None => Sub_nomem sl msg_realloc
  | Some sl1 =>
      if (0 <=? cnt sl1) && (cnt sl1 <? Z.of_nat (length (subs sl1)))
      then Subscribed
             (mkSubs (<[Z.to_nat (cnt sl1) := mkSub id cb ctx]> (subs sl1))
                     (cnt sl1 + 1) (sz sl1))
      else Sub_overrun
  end.

(** [n] calls of [il_net__sw_subscribe] with the subscribers [news],
    every [realloc] succeeding. *)
Fixpoint subscribe_all (sl : sw_subs_t) (news : list sw_subscriber)
    (fill : sw_subscriber) : subscribe_result :=
  match news with
  | [] => Subscribed sl
  | s :: rest =>
      match il_net__sw_subscribe sl (sub_id s) (sub_cb s) (sub_ctx s)
              true fill with
      | Subscribed sl' => subscribe_all sl' rest fill
      | other => other
      end
  end.

End WithHeaders.

End Serial.

(** ** Register labels ([src/ingenialink/registers.c]) *)

Module Labels.

(** [il_reg_labels_t]: the khash table from language tag to label, keys
    compared as strings. *)
Record il_reg_labels_t : Type := mkLabels { h : gmap string string }.

Definition il_reg_labels_create : il_reg_labels_t := mkLabels ∅.

Definition msg_no_lang (lang : string) : err_msg :=
  mkErr "Language not available (%s)" [ArgStr lang].

(** [il_reg_labels_get] (lines 75-89): the return value, what is stored
    through [label], and the last error set. *)
Definition il_reg_labels_get (labels : il_reg_labels_t) (lang : string)
  : il_ret * option string * option err_msg :=
  match h labels !! lang with
  | None => (IL_ERR IL_EFAIL, None, Some (msg_no_lang lang))
  | Some v => (IL_OK, Some v, None)
  end.

(** [il_reg_labels_set] (lines 91-104). *)
Definition il_reg_labels_set (labels : il_reg_labels_t) (lang label : string)
  : il_reg_labels_t :=
  mkLabels (<[lang := label]> (h labels)).

(** Modelled from the spec: the error kinds of section 7, with [ErrFail]
    of section 4.3 for the general failure, and the kind each code of the
    sources stands for. *)
Inductive err_kind : Type :=
  | ErrInvalid | ErrState | ErrAlready | ErrNoMem | ErrIO | ErrTimeout
  | ErrNotSupported | ErrParse | ErrUnknownLang | ErrFault | ErrFail.

Definition kind_of (e : il_err) : err_kind :=
  match e with
  | IL_EFAIL => ErrFail
  | IL_EINVAL => ErrInvalid
  | IL_ETIMEDOUT => ErrTimeout
  | IL_ENOMEM => ErrNoMem
  | IL_EALREADY => ErrAlready
  | IL_EIO => ErrIO
  | IL_ENOTSUP => ErrNotSupported
  | IL_ESTATE => ErrState
  | IL_EFAULT => ErrFault
  end.

(** Scenario S6: the labels [{en: "Speed"}]. *)
Definition s6_labels : il_reg_labels_t :=
  il_reg_labels_set il_reg_labels_create "en" "Speed".

End Labels.

(** ** The slot criteria and the delivery as the specification words them *)

(** The listener takes a frame for the slot: the slot is not complete, the
    ids agree or the slot's is the broadcast id, index and sub-index agree,
    and the payload fits. *)
Definition slot_accepts (s : Serial.sync_t) (f : Serial.il_frame_t) : Prop :=
  Serial.sync_complete s = 0 /\
  (Serial.sync_id s = Serial.frame_id f \/ Serial.sync_id s = 0) /\
  Serial.sync_idx s = Serial.frame_idx f /\
  Serial.sync_sidx s = Serial.frame_sidx f /\
  Serial.sync_sz s >= Serial.il_frame__get_sz f.

(** The entries of an array whose id is [id]. *)
Definition matching (id : Z) (entries : list sw_subscriber)
  : list sw_subscriber :=
  List.filter (fun s => sub_id s =? id) entries.

(** The call that delivers [sw] to a subscriber. *)
Definition call_of (sw : Z) (s : sw_subscriber) : cb_call :=
  mkCall (sub_cb s) (sub_ctx s) sw.

(** The first entry with the id and a callback, if there is one. *)
Definition first_callable (id : Z) (entries : list sw_subscriber)
  : option sw_subscriber :=
  List.find (fun s => (sub_id s =? id) && negb (sub_cb s =? 0)) entries.

(** Whom a call goes to. *)
Definition call_target (c : cb_call) : Z * Z := (call_cb c, call_ctx c).

(** Every entry with the id was called. *)
Definition every_match_called (id : Z) (entries : list sw_subscriber)
    (calls : list cb_call) : Prop :=
  forall s, In s entries -> sub_id s = id ->
    exists c, In c calls /\ call_cb c = sub_cb s /\ call_ctx c = sub_ctx s.

(** ** A platform to evaluate the model on

    One choice of what the absent headers fix (a 64-bit little-endian host);
    the theorems below hold for every choice, the examples run on this
    one. *)

Definition sample_headers : headers := {|
  ETH_MCB_NODE_DFLT := 0xA;
  STATUSWORD_IDX := 0x6041;
  STATUSWORD_SIDX := 0;
  SW_SUBS_SZ_DEF := 2;
  sizeof_subscriber := 24;
  swap_16 := fun x => x;
  ilerr__ser := fun _ => IL_EFAIL
|}.

(** Subscriber lists and polls for the examples. *)
Definition one_subscriber : sw_subs_t := mkSubs [mkSub 1 0x4010 7] 1 1.

Definition two_subscribers : sw_subs_t :=
  mkSubs [mkSub 1 0x4010 7; mkSub 1 0x4020 8] 2 2.

(** [send] fails. *)
Definition failed_poll : Eth.poll_env := Eth.mkPoll (-1) s4_reply one_subscriber.

(** [send] goes through and the S2 reply (statusword [0x1234]) comes back. *)
Definition good_poll : Eth.poll_env := Eth.mkPoll 14 s2_reply one_subscriber.

(** ** The rest of the register labels ([src/ingenialink/registers.c]) *)

Module Registers.
Import Labels.

Definition msg_labels_alloc : err_msg :=
  mkErr "Labels dictionary allocation failed" [].

Definition msg_labels_table_alloc : err_msg :=
  mkErr "Labels hash table allocation failed" [].

Definition msg_langs_alloc : err_msg :=
  mkErr "Languages array allocation failed" [].

(** [il_reg_labels_create] (lines 35-57) with its two allocations:
    [malloc_ok] for the object, [kh_init_ok] for the table. *)
Definition il_reg_labels_create_alloc (malloc_ok kh_init_ok : bool)
  : option il_reg_labels_t * option err_msg :=
  if negb malloc_ok then (None, Some msg_labels_alloc)
  else if negb kh_init_ok then (None, Some msg_labels_table_alloc)
  else (Some (mkLabels ∅), None).

(** [il_reg_labels_del] (lines 106-117). *)
Definition il_reg_labels_del (labels : il_reg_labels_t) (lang : string)
  : il_reg_labels_t :=
  match h labels !! lang with
  | Some _ => mkLabels (delete lang (h labels))
  | None => labels
  end.

(** [il_reg_labels_nlabels_get] (lines 119-122). *)
Definition il_reg_labels_nlabels_get (labels : il_reg_labels_t) : Z :=
  Z.of_nat (size (h labels)).

(** [il_reg_labels_langs_get] (lines 124-149): the array of keys with its
    [NULL] ([None]) at the end, or [NULL] when [malloc] fails.  The keys
    come in the order of the table's buckets; the model lists them in the
    order of its own map, and nothing below depends on the order. *)
Definition il_reg_labels_langs_get (labels : il_reg_labels_t)
    (malloc_ok : bool) : option (list (option string)) * option err_msg :=
  if malloc_ok
  then (Some (map Some (map fst (map_to_list (h labels))) ++ [None]), None)
  else (None, Some msg_langs_alloc).

(** The loop [for (i = 0; langs[i]; i++)] of a caller (as in
    [src/examples/dict.c], lines 25-31): the entries before the first
    [NULL]. *)
Fixpoint until_null (langs : list (option string)) : list string :=
  match langs with
  | Some l :: rest => l :: until_null rest
  | _ => []
  end.

End Registers.

(** ** Unsubscribing ([src/ingenialink/net.c], lines 345-362) *)

Module Subscribers.

(** The entries in use: the first [cnt] of the array. *)
Definition live (sl : sw_subs_t) : list sw_subscriber :=
  take (Z.to_nat (cnt sl)) (subs sl).

(** The loop of [il_net__sw_unsubscribe] from index [i], with [n] turns
    left.  [None]: an index past the array. *)
Fixpoint unsub_scan (n : nat) (i : nat) (sl : sw_subs_t) (id : Z)
  : option sw_subs_t :=
  match n with
  | O => Some sl
  | S k =>
      match subs sl !! i with
      | None => None
      | Some s =>
          if sub_id s =? id then
            match subs sl !! Z.to_nat (cnt sl - 1) with
            | None => None
            | Some last_one =>
                Some (mkSubs (<[i := last_one]> (subs sl)) (cnt sl - 1) (sz sl))
            end
          else unsub_scan k (S i) sl id
      end
  end.

Definition il_net__sw_unsubscribe (sl : sw_subs_t) (id : Z)
  : option sw_subs_t :=
  unsub_scan (Z.to_nat (cnt sl)) 0 sl id.

End Subscribers.

(** The slot criteria as the test [process_sync] makes. *)
Definition slot_accepts_b (s : Serial.sync_t) (f : Serial.il_frame_t) : bool :=
  (Serial.sync_complete s =? 0) &&
  (((Serial.sync_id s =? Serial.il_frame__get_id f) || (Serial.sync_id s =? 0))
   && (Serial.sync_idx s =? Serial.il_frame__get_idx f)
   && (Serial.sync_sidx s =? Serial.il_frame__get_sidx f)
   && (Serial.sync_sz s >=? Serial.il_frame__get_sz f)).

(** What [process_sync] stores for an accepted frame. *)
Definition stored (s : Serial.sync_t) (m : Serial.memory)
    (f : Serial.il_frame_t) : Serial.memory :=
  Serial.mkMem
    (Serial.store_bytes (Serial.mem_bytes m) (Serial.sync_buf s)
       (Serial.frame_data f))
    (if Serial.sync_recvd s =? 0 then Serial.mem_sizes m
     else <[Serial.sync_recvd s := Serial.il_frame__get_sz f]>
            (Serial.mem_sizes m)).

(** ** Register access on the TCP profile
      ([src/ingenialink/eth/net.c], lines 419-465) *)

Module EthOps.
Import Eth.

Section WithHeaders.
Context `{H : headers}.

(** [il_eth_net__read]: [address] is a [uint32_t] cut to [uint16_t] at the
    two calls.  Gives the bytes handed to [send], the return value and the
    bytes stored in the caller's buffer ([[]] when nothing is stored).
    [send_r] and [rx] are what [send] returns and what [recv] leaves. *)
Definition il_eth_net__read (send_r : Z) (rx : list Z)
    (id subnode address sz : Z) : option (list Z * il_ret * list Z) :=
  match net_send send_r subnode (wrap16 address) [] 0 with
  | None => None
  | Some (wire, r) =>
      if ret_neg r then Some (wire, r, [])
      else
        match net_recv rx subnode (wrap16 address) sz with
        | RecvOk bs => Some (wire, IL_OK, bs)
        | RecvErr e _ => Some (wire, IL_ERR e, [])
        | RecvFault => None
        end
  end.

(** [il_eth_net__write]: the payload goes out, the reply is received with
    no buffer and size 0. *)
Definition il_eth_net__write (send_r : Z) (rx : list Z)
    (id subnode address : Z) (data : list Z) (sz : Z) (confirmed : Z)
  : option (list Z * il_ret * list Z) :=
  match net_send send_r subnode (wrap16 address) data sz with
  | None => None
  | Some (wire, r) =>
      if ret_neg r then Some (wire, r, [])
      else
        match net_recv rx subnode (wrap16 address) 0 with
        | RecvOk bs => Some (wire, IL_OK, bs)
        | RecvErr e _ => Some (wire, IL_ERR e, [])
        | RecvFault => None
        end
  end.

End WithHeaders.

End EthOps.

(** A frame differing from [rx] in the byte at position [i] only. *)
Definition corrupted_at (i : nat) (b' : Z) (rx : list Z) : list Z :=
  <[i := b']> rx.

(** The inverse of one shift step of the CRC register. *)
Definition ccitt_unshift (r : Z) : Z :=
  if Z.odd r
  then Z.lor (Z.shiftr (Z.lxor r Crc.ccitt_poly) 1) 0x8000
  else Z.shiftr r 1.

(** One entry of the exhaustive check that a shift step can be undone. *)
Definition unshift_agrees (x : Z) : bool :=
  Z.eqb (ccitt_unshift (Crc.ccitt_shift x)) x.

(** One entry of the check of the table against the CRC of a single
    byte. *)
Definition table_entry_agrees (i : Z) : bool :=
  Z.eqb (Crc.tab_lookup Crc.crc_table i) (Crc.crc_ccitt_spec [i]).

(** ** The device monitor ([src/ingenialink/net.c], lines 599-669) *)

Module Monitor.

(** [il_net_dev_mon_t]: [mon_on_evt] is a function pointer and [mon_handle]
    the serial-port monitor ([mon->mon]); [0] is [NULL]. *)
Record il_net_dev_mon_t : Type := mkMon {
  running : Z;
  mon_ctx : Z;
  mon_on_evt : Z;
  mon_handle : Z
}.

(** What reaches the serial-port library. *)
Inductive ser_call : Type :=
  | Ser_monitor_init (handle : Z)   (* ser_dev_monitor_init gave handle *)
  | Ser_monitor_stop (handle : Z).  (* ser_dev_monitor_stop(handle) *)

(** [il_net_dev_mon_create]: [junk] is what [malloc] leaves in the fields
    that are not set. *)
Definition il_net_dev_mon_create (malloc_ok : bool) (junk : il_net_dev_mon_t)
  : option il_net_dev_mon_t :=
  if malloc_ok
  then Some (mkMon 0 (mon_ctx junk) (mon_on_evt junk) (mon_handle junk))
  else None.

(** [il_net_dev_mon_start]: [init_r] is what [ser_dev_monitor_init]
    returns.  Gives the monitor, the return value and the calls made. *)
Definition il_net_dev_mon_start (mon : option il_net_dev_mon_t)
    (on_evt ctx : Z) (init_r : Z)
  : option il_net_dev_mon_t * il_ret * list ser_call :=
  match mon with
  | None => (None, IL_ERR IL_EFAULT, [])
  | Some m =>
      if negb (running m =? 0) then (Some m, IL_ERR IL_EALREADY, [])
      else if on_evt =? 0 then (Some m, IL_ERR IL_EINVAL, [])
      else
        let m1 := mkMon (running m) ctx on_evt init_r in
        if init_r =? 0 then (Some m1, IL_ERR IL_EFAIL, [])
        else (Some (mkMon 1 ctx on_evt init_r), IL_OK,
              [Ser_monitor_init init_r])
  end.

(** [il_net_dev_mon_stop]. *)
Definition il_net_dev_mon_stop (mon : option il_net_dev_mon_t)
  : option il_net_dev_mon_t * list ser_call :=
  match mon with
  | None => (None, [])
  | Some m =>
      if negb (running m =? 0)
      then (Some (mkMon 0 (mon_ctx m) (mon_on_evt m) (mon_handle m)),
            [Ser_monitor_stop (mon_handle m)])
      else (Some m, [])
  end.

(** [il_net_dev_mon_destroy]: the stop, then [free]. *)
Definition il_net_dev_mon_destroy (mon : option il_net_dev_mon_t)
  : option il_net_dev_mon_t * list ser_call :=
  match mon with
  | None => (None, [])
  | Some _ => (None, snd (il_net_dev_mon_stop mon))
  end.

(** The calls a user makes on a monitor. *)
Inductive mon_op : Type :=
  | Op_start (on_evt ctx init_r : Z)
  | Op_stop.

Definition mon_step (st : option il_net_dev_mon_t * list ser_call)
    (op : mon_op) : option il_net_dev_mon_t * list ser_call :=
  match op with
  | Op_start on_evt ctx init_r =>
      let '(m, _, calls) := il_net_dev_mon_start (fst st) on_evt ctx init_r in
      (m, snd st ++ calls)
  | Op_stop =>
      let '(m, calls) := il_net_dev_mon_stop (fst st) in
      (m, snd st ++ calls)
  end.

Definition mon_run (m : option il_net_dev_mon_t) (ops : list mon_op)
  : option il_net_dev_mon_t * list ser_call :=
  fold_left mon_step ops (m, []).

(** Reading a run of calls to the serial-port library: the handle that is
    live after it, provided every stop stops the handle that is live and
    no monitor is started while one is live ([None] otherwise). *)
Fixpoint live_handle (calls : list ser_call) (cur : option Z)
  : option (option Z) :=
  match calls with
  | [] => Some cur
  | Ser_monitor_init h :: rest =>
      match cur with
      | None => live_handle rest (Some h)
      | Some _ => None
      end
  | Ser_monitor_stop h :: rest =>
      match cur with
      | Some h' => if h =? h' then live_handle rest None else None
      | None => None
      end
  end.

(** What holds of a monitor and the calls made so far: it is stopped and
    the library has no monitor alive, or it runs with a callback and the
    library's one live monitor is its handle. *)
Definition mon_inv (st : option il_net_dev_mon_t * list ser_call) : Prop :=
  match fst st with
  | None => False
  | Some m =>
      (running m = 0 /\ live_handle (snd st) None = Some None) \/
      (running m = 1 /\ mon_on_evt m <> 0 /\ mon_handle m <> 0 /\
       live_handle (snd st) None = Some (Some (mon_handle m)))
  end.

End Monitor.

(** ** Listing the devices ([src/ingenialink/net.c], lines 551-597) *)

Module DevList.

(** [strncpy(dst, src, n)] into a field of [n] bytes: [src] is the string
    without its terminator; short strings are padded with zero bytes, long
    ones are cut and get no terminator. *)
Definition strncpy (src : list Z) (n : nat) : list Z :=
  take n (src ++ replicate (n - length src) 0).

(** The loop of [il_net_dev_list_get] over the devices [paths], the list
    built so far being [lst] (its head is the newest node); [ok k] tells
    whether the [k]-th [malloc] gives a block; [port_sz] is
    [sizeof(lst->port)].  Gives the list and the number of nodes freed by
    [il_net_dev_list_destroy]. *)
Fixpoint dev_list_loop (paths : list (list Z)) (lst : list (list Z))
    (ok : nat -> bool) (k : nat) (port_sz : nat) : list (list Z) * nat :=
  match paths with
  | [] => (lst, O)
  | path :: rest =>
      if ok k
      then dev_list_loop rest (strncpy path port_sz :: lst) ok (S k) port_sz
      else ([], length lst)
  end.

(** [il_net_dev_list_get]: [devs] is what [ser_dev_list_get] returns
    ([None] for [NULL]). *)
Definition il_net_dev_list_get (devs : option (list (list Z)))
    (ok : nat -> bool) (port_sz : nat) : list (list Z) * nat :=
  match devs with
  | None => ([], O)
  | Some paths => dev_list_loop paths [] ok O port_sz
  end.

End DevList.

(** ** Creating and destroying a network
      ([src/ingenialink/net.c], lines 368-535) *)

Module Lifecycle.

(** What [il_net_create] acquires. *)
Inductive resource : Type :=
  | R_net | R_lock | R_state_lock | R_sync_lock | R_sync_cond
  | R_subs | R_subs_lock | R_ser | R_port | R_listener.

Inductive res_event : Type :=
  | Acquire (r : resource)
  | Release (r : resource).

(** What the steps of [il_net_create] meet: whether [port] is given, and
    the outcome of each allocation and call, in the order of the code. *)
Record create_env : Type := mkCreateEnv {
  ce_port : bool;
  ce_net : bool;
  ce_lock : bool;
  ce_state_lock : bool;
  ce_sync_lock : bool;
  ce_sync_cond : bool;
  ce_subs : bool;
  ce_subs_lock : bool;
  ce_ser : bool;
  ce_open : Z;
  ce_a2b : Z;
  ce_bin : Z;
  ce_thread : bool
}.

(** The labels of the clean-up ladder. *)
Definition cleanup_net : list res_event := [Release R_net].
Definition cleanup_lock : list res_event := Release R_lock :: cleanup_net.
Definition cleanup_state_lock : list res_event :=
  Release R_state_lock :: cleanup_lock.
Definition cleanup_sync_lock : list res_event :=
  Release R_sync_lock :: cleanup_state_lock.
Definition cleanup_sync_cond : list res_event :=
  Release R_sync_cond :: cleanup_sync_lock.
Definition cleanup_sw_subs_subs : list res_event :=
  Release R_subs :: cleanup_sync_cond.
Definition cleanup_sw_subs_lock : list res_event :=
  Release R_subs_lock :: cleanup_sw_subs_subs.
Definition cleanup_ser : list res_event := Release R_ser :: cleanup_sw_subs_lock.
Definition close_ser : list res_event := Release R_port :: cleanup_ser.

Section WithHeaders.
Context `{H : headers}.

(** [il_net_create]: the network (or [NULL]) and the acquisitions and
    releases made, in order.  [fill] is the indeterminate content of the
    subscriber array, [junk] that of the slot fields not set. *)
Definition il_net_create (env : create_env) (fill : sw_subscriber)
    (junk : Serial.sync_t) : option Serial.il_net_t * list res_event :=
  if negb (ce_port env) then (None, []) else
  if negb (ce_net env) then (None, []) else
  let t := [Acquire R_net] in
  if negb (ce_lock env) then (None, t ++ cleanup_net) else
  let t := t ++ [Acquire R_lock] in
  if negb (ce_state_lock env) then (None, t ++ cleanup_lock) else
  let t := t ++ [Acquire R_state_lock] in
  if negb (ce_sync_lock env) then (None, t ++ cleanup_state_lock) else
  let t := t ++ [Acquire R_sync_lock] in
  if negb (ce_sync_cond env) then (None, t ++ cleanup_sync_lock) else
  let t := t ++ [Acquire R_sync_cond] in
  if negb (ce_subs env) then (None, t ++ cleanup_sync_cond) else
  let t := t ++ [Acquire R_subs] in
  if negb (ce_subs_lock env) then (None, t ++ cleanup_sw_subs_subs) else
  let t := t ++ [Acquire R_subs_lock] in
  if negb (ce_ser env) then (None, t ++ cleanup_sw_subs_lock) else
  let t := t ++ [Acquire R_ser] in
  if ce_open env <? 0 then (None, t ++ cleanup_ser) else
  let t := t ++ [Acquire R_port] in
  if ce_a2b env <? 0 then (None, t ++ close_ser) else
  if ce_bin env <? 0 then (None, t ++ close_ser) else
  if negb (ce_thread env) then (None, t ++ close_ser) else
  (Some (Serial.mkNet Serial.IL_NET_STATE_OPERATIVE
           (Serial.set_complete junk 1)
           (Serial.il_net_create_sw_subs fill)),
   t ++ [Acquire R_listener]).

End WithHeaders.

(** [il_net_destroy]: the releases made, in order. *)
Definition il_net_destroy (net : option Serial.il_net_t) : list res_event :=
  match net with
  | None => []
  | Some _ =>
      [Release R_listener; Release R_port; Release R_subs_lock;
       Release R_subs; Release R_sync_cond; Release R_sync_lock;
       Release R_state_lock; Release R_lock; Release R_ser; Release R_net]
  end.

Definition acquired (t : list res_event) : list resource :=
  omap (fun e => match e with Acquire r => Some r | Release _ => None end) t.

Definition released (t : list res_event) : list resource :=
  omap (fun e => match e with Release r => Some r | Acquire _ => None end) t.

(** The ten resources, in the order [il_net_create] acquires them. *)
Definition all_resources : list resource :=
  [R_net; R_lock; R_state_lock; R_sync_lock; R_sync_cond; R_subs;
   R_subs_lock; R_ser; R_port; R_listener].

End Lifecycle.

(** ** Scanning for axes ([src/ingenialink/net.c], lines 671-750) *)

Module Axes.
Import Serial.

Inductive lock_name : Type := L_state | L_net | L_sync.

Inductive lock_event : Type :=
  | Lock (l : lock_name)
  | Unlock (l : lock_name).

Definition lock_name_eqb (a b : lock_name) : bool :=
  match a, b with
  | L_state, L_state | L_net, L_net | L_sync, L_sync => true
  | _, _ => false
  end.

(** How many times more [l] was locked than unlocked in a run of calls. *)
Fixpoint held (l : lock_name) (t : list lock_event) : Z :=
  match t with
  | [] => 0
  | Lock l' :: rest => (if lock_name_eqb l l' then 1 else 0) + held l rest
  | Unlock l' :: rest => held l rest - (if lock_name_eqb l l' then 1 else 0)
  end.

(** A call [on_found(ctx, id)]. *)
Record found_call : Type := mkFound {
  found_cb : Z;
  found_ctx : Z;
  found_id : Z
}.

(** One [osal_cond_wait]: the responses the listener handles while the
    wait has given [sync.lock] up, and what the wait returns. *)
Record scan_turn : Type := mkTurn {
  turn_frames : list il_frame_t;
  turn_wait : osal_wait_t
}.

(** What the scan meets: the result of [ser_write], the responses handled
    between the [unlock] and the [lock] of lines 716-719, the waits, and
    whether the [k]-th [malloc] gives a block. *)
Record scan_env : Type := mkScanEnv {
  se_write : Z;
  se_gap : list il_frame_t;
  se_turns : list scan_turn;
  se_malloc : nat -> bool
}.

(** The variables of the loop: the slot, the memory, the list (newest node
    first, as ids), the calls of [on_found] so far, the number of [malloc]
    calls made and the number of nodes freed. *)
Record scan_st : Type := mkScan {
  sc_sync : sync_t;
  sc_mem : memory;
  sc_lst : list Z;
  sc_found : list found_call;
  sc_mallocs : nat;
  sc_freed : nat
}.

(** Reading the local [uint8_t id] at its address; [junk] is what an
    unwritten [id] holds. *)
Definition load_u8 (m : memory) (addr junk : Z) : Z :=
  default junk (mem_bytes m !! addr).

(** The branch [if (net->sync.complete)] of the loop (lines 722-737):
    [inl] goes on, [inr] is the [break]. *)
Definition take_found (on_found ctx id_addr junk : Z) (ok : nat -> bool)
    (st : scan_st) : scan_st + scan_st :=
  if sync_complete (sc_sync st) =? 0 then inl st
  else
    let s' := set_complete (sc_sync st) 0 in
    if ok (sc_mallocs st) then
      let id := load_u8 (sc_mem st) id_addr junk in
      inl (mkScan s' (sc_mem st) (id :: sc_lst st)
             (sc_found st ++
              (if on_found =? 0 then [] else [mkFound on_found ctx id]))
             (S (sc_mallocs st)) (sc_freed st))
    else
      inr (mkScan s' (sc_mem st) [] (sc_found st) (S (sc_mallocs st))
             (sc_freed st + length (sc_lst st))).

(** The loop [while (r == 0)] (lines 721-742), entered with [r = 0]: a
    complete slot is taken, then the next wait is made.  [None]: the scan
    is still waiting when the waits given are used up. *)
Fixpoint scan_loop (turns : list scan_turn) (on_found ctx id_addr junk : Z)
    (ok : nat -> bool) (st : scan_st) : option scan_st :=
  match take_found on_found ctx id_addr junk ok st with
  | inr st' => Some st'
  | inl st' =>
      match turns with
      | [] => None
      | t :: rest =>
          let '(s2, m2, _) :=
            listener_sync (sc_sync st') (sc_mem st') (turn_frames t) in
          let st2 := mkScan s2 m2 (sc_lst st') (sc_found st')
                       (sc_mallocs st') (sc_freed st') in
          match turn_wait t with
          | OSAL_WOKEN => scan_loop rest on_found ctx id_addr junk ok st2
          | _ => Some st2
          end
      end
  end.

(** What the call leaves: the network, the memory, the list returned, the
    calls of [on_found], the nodes freed, and the lock calls made. *)
Record axes_result : Type := mkAxes {
  ax_net : option il_net_t;
  ax_mem : memory;
  ax_lst : list Z;
  ax_found : list found_call;
  ax_freed : nat;
  ax_locks : list lock_event
}.

Section WithRegister.
(** The register read, from the absent [net.h]. *)
Variables (UARTCFG_ID_IDX UARTCFG_ID_SIDX : Z).

(** The slot the scan registers (lines 699-705); [sizeof(id)] is 1. *)
Definition scan_slot (id_addr : Z) : sync_t :=
  mkSync 0 UARTCFG_ID_IDX UARTCFG_ID_SIDX id_addr 1 0 0.

(** [il_net_axes_list_get]: [id_addr] is the address of the local [id].
    The loop [while (r == 0)] is entered with [r] the result of
    [ser_write]: a positive result skips it.  The lock calls are those of
    the function and of [il_net_state_get]; a wait holds [sync.lock]
    again when it returns.  The text of the last error is left out. *)
Definition il_net_axes_list_get (net : option il_net_t) (m : memory)
    (on_found ctx id_addr junk : Z) (env : scan_env) : option axes_result :=
  match net with
  | None => Some (mkAxes None m [] [] O [])
  | Some n =>
      let t0 := [Lock L_state; Unlock L_state] in
      if negb (state_is_operative (state n))
      then Some (mkAxes net m [] [] O t0)
      else
        let s0 := scan_slot id_addr in
        let t1 := t0 ++ [Lock L_net; Lock L_sync] in
        if se_write env <? 0 then
          Some (mkAxes (Some (mkNet (state n) s0 (sw_subs n))) m [] [] O
                  (t1 ++ [Unlock L_net]))
        else
          let '(s1, m1, _) := listener_sync s0 m (se_gap env) in
          let t2 := t1 ++ [Unlock L_sync; Lock L_sync;
                           Unlock L_sync; Unlock L_net] in
          if se_write env =? 0 then
            match scan_loop (se_turns env) on_found ctx id_addr junk
                    (se_malloc env) (mkScan s1 m1 [] [] O O) with
            | None => None
            | Some st =>
                Some (mkAxes (Some (mkNet (state n) (sc_sync st) (sw_subs n)))
                        (sc_mem st) (sc_lst st) (sc_found st) (sc_freed st)
                        t2)
            end
          else
            Some (mkAxes (Some (mkNet (state n) s1 (sw_subs n))) m1 [] [] O
                    t2)
  end.

(** A wait in which the axis answers with the one byte [b] in a frame from
    node [nid], followed by the responses [more], and which is woken. *)
Definition answer_turn (r : Z * Z * list il_frame_t) : scan_turn :=
  mkTurn (mkFrame (fst (fst r)) UARTCFG_ID_IDX UARTCFG_ID_SIDX [snd (fst r)]
            :: snd r)
         OSAL_WOKEN.

(** The slot of a state is the one the scan registered, open or not. *)
Definition slot_shape (id_addr : Z) (st : scan_st) : Prop :=
  exists c, (c = 0 \/ c = 1) /\
    sc_sync st = set_complete (scan_slot id_addr) c.

End WithRegister.

(** The answers waiting to be taken: one when the slot is complete. *)
Definition pending (st : scan_st) : nat :=
  if sync_complete (sc_sync st) =? 0 then O else 1%nat.

(** The calls of [on_found] for the ids [bs]. *)
Definition found_calls (on_found ctx : Z) (bs : list Z) : list found_call :=
  if on_found =? 0 then [] else map (mkFound on_found ctx) bs.

End Axes.

(** * Facts *)

(** *** Bit-level facts about the truncations *)

Lemma wrap16_mod (x : Z) : wrap16 x = x mod 2 ^ 16.
Proof. unfold wrap16. change 0xFFFF with (Z.ones 16). apply Z.land_ones. lia. Qed.

Lemma wrap8_mod (x : Z) : wrap8 x = x mod 2 ^ 8.
Proof. unfold wrap8. change 0xFF with (Z.ones 8). apply Z.land_ones. lia. Qed.

Lemma wrap16_range (x : Z) : is_u16 (wrap16 x).
Proof. rewrite wrap16_mod. unfold is_u16. apply Z.mod_pos_bound. lia. Qed.

Lemma wrap8_range (x : Z) : is_u8 (wrap8 x).
Proof. rewrite wrap8_mod. unfold is_u8. apply Z.mod_pos_bound. lia. Qed.

Lemma wrap16_id (x : Z) : is_u16 x -> wrap16 x = x.
Proof. intros H. rewrite wrap16_mod. apply Z.mod_small. exact H. Qed.

Lemma wrap8_id (x : Z) : is_u8 x -> wrap8 x = x.
Proof. intros H. rewrite wrap8_mod. apply Z.mod_small. exact H. Qed.

Lemma wrap16_testbit (x n : Z) :
  Z.testbit (wrap16 x) n = (n <? 16) && Z.testbit x n.
Proof.
  rewrite wrap16_mod. destruct (Z.ltb_spec n 16).
  - destruct (Z.ltb_spec n 0).
    + rewrite !Z.testbit_neg_r by lia. reflexivity.
    + rewrite Z.mod_pow2_bits_low by lia. reflexivity.
  - rewrite Z.mod_pow2_bits_high by lia. reflexivity.
Qed.

Lemma wrap8_testbit (x n : Z) :
  Z.testbit (wrap8 x) n = (n <? 8) && Z.testbit x n.
Proof.
  rewrite wrap8_mod. destruct (Z.ltb_spec n 8).
  - destruct (Z.ltb_spec n 0).
    + rewrite !Z.testbit_neg_r by lia. reflexivity.
    + rewrite Z.mod_pow2_bits_low by lia. reflexivity.
  - rewrite Z.mod_pow2_bits_high by lia. reflexivity.
Qed.

(** A value below [2^k] has no bit at or above [k]. *)
Lemma testbit_above (x k n : Z) :
  0 <= x < 2 ^ k -> 0 <= k <= n -> Z.testbit x n = false.
Proof.
  intros Hx Hn.
  rewrite <- (Z.mod_small x (2 ^ k)) by exact Hx.
  apply Z.mod_pow2_bits_high. lia.
Qed.

Lemma lxor_below (a b k : Z) :
  0 <= k -> 0 <= a < 2 ^ k -> 0 <= b < 2 ^ k -> 0 <= Z.lxor a b < 2 ^ k.
Proof.
  intros Hk Ha Hb.
  assert (Hnn : 0 <= Z.lxor a b) by (apply Z.lxor_nonneg; lia).
  split; [exact Hnn|].
  assert (E : Z.lxor a b = Z.lxor a b mod 2 ^ k).
  { apply Z.bits_inj'. intros n Hn.
    destruct (Z.ltb_spec n k).
    - rewrite Z.mod_pow2_bits_low by lia. reflexivity.
    - rewrite Z.mod_pow2_bits_high by lia.
      rewrite Z.lxor_spec, (testbit_above a k n), (testbit_above b k n) by lia.
      reflexivity. }
  rewrite E. apply Z.mod_pos_bound. lia.
Qed.

Lemma seqZ_from_In (n : nat) : forall lo x,
  lo <= x < lo + Z.of_nat n -> In x (seqZ_from lo n).
Proof.
  induction n as [|k IH]; intros lo x Hx; [lia|].
  simpl. destruct (Z.eq_dec lo x) as [->|Hne]; [now left|].
  right. apply IH. lia.
Qed.

Lemma seqZ_from_length (n : nat) : forall lo, length (seqZ_from lo n) = n.
Proof. induction n as [|k IH]; intros lo; simpl; [reflexivity|]. now rewrite IH. Qed.

Module CrcFacts.
Import Crc.

Lemma memo_ok_start : memo_ok crc_globals_start.
Proof. unfold memo_ok. simpl. discriminate. Qed.

Lemma update_crc_ccitt_eth_st_pure (g : crc_globals) (crc c : Z) :
  memo_ok g ->
  let r := update_crc_ccitt_eth_st g crc c in
  snd r = update_crc_ccitt_eth crc c /\
  crc_tabccitt_init_eth (fst r) = true /\ memo_ok (fst r).
Proof.
  intros Hg. unfold update_crc_ccitt_eth_st, update_crc_ccitt_eth. simpl.
  destruct (crc_tabccitt_init_eth g) eqn:E.
  - rewrite (Hg E). split; [reflexivity|]. split; [exact E | exact Hg].
  - split; [reflexivity|]. split; [reflexivity|]. intros _. reflexivity.
Qed.

Lemma update_range (crc c : Z) : is_u16 (update_crc_ccitt_eth crc c).
Proof. apply wrap16_range. Qed.

(** Entering the byte at the top of the register first and then looking
    the table up with a zero byte is the same table step. *)
Lemma update_fold_byte (crc c : Z) :
  0 <= crc -> is_u8 c ->
  update_crc_ccitt_eth crc c
  = update_crc_ccitt_eth (Z.lxor crc (Z.shiftl c 8)) 0.
Proof.
  intros Hcrc Hc. unfold update_crc_ccitt_eth.
  rewrite Z.lxor_0_r, Z.shiftr_lxor, Z.shiftr_shiftl_l by lia.
  rewrite Z.sub_diag, Z.shiftl_0_r.
  set (t := tab_lookup _ _).
  apply Z.bits_inj'. intros n Hn.
  rewrite !wrap16_testbit, !Z.lxor_spec.
  rewrite !Z.shiftl_spec by lia. rewrite Z.lxor_spec.
  destruct (Z.ltb_spec n 16); simpl; [|reflexivity].
  assert (Z.testbit (Z.shiftl c 8) (n - 8) = false) as ->.
  { destruct (Z.ltb_spec n 8).
    - apply Z.testbit_neg_r. lia.
    - rewrite Z.shiftl_spec by lia. apply Z.testbit_neg_r. lia. }
  now rewrite xorb_false_r.
Qed.

Lemma table_step_all :
  forallb table_step_agrees (seqZ_from 0 (Z.to_nat 65536)) = true.
Proof. vm_compute. reflexivity. Qed.

(** Eight shift steps of the register are one table step. *)
Lemma shift8_table (x : Z) :
  is_u16 x -> Nat.iter 8 ccitt_shift x = update_crc_ccitt_eth x 0.
Proof.
  intros Hx. pose proof table_step_all as H.
  rewrite forallb_forall in H.
  assert (Hin : In x (seqZ_from 0 (Z.to_nat 65536))).
  { apply seqZ_from_In. unfold is_u16 in Hx. rewrite Z2Nat.id; lia. }
  specialize (H x Hin).
  unfold table_step_agrees in H. now apply Z.eqb_eq in H.
Qed.

Lemma update_is_ccitt_byte (crc c : Z) :
  is_u16 crc -> is_u8 c -> update_crc_ccitt_eth crc c = ccitt_byte crc c.
Proof.
  intros Hcrc Hc. unfold ccitt_byte.
  rewrite shift8_table.
  - apply update_fold_byte; [unfold is_u16 in Hcrc; lia | exact Hc].
  - unfold is_u16 in *. unfold is_u8 in Hc. apply (lxor_below _ _ 16); [lia|lia|].
    rewrite Z.shiftl_mul_pow2 by lia. lia.
Qed.

Lemma fold_update_is_spec (bytes : list Z) : forall crc,
  is_u16 crc -> Forall is_u8 bytes ->
  fold_left update_crc_ccitt_eth bytes crc = fold_left ccitt_byte bytes crc.
Proof.
  induction bytes as [|b bs IH]; intros crc Hcrc Hb; [reflexivity|].
  inversion Hb as [|? ? Hb1 Hbs]; subst. simpl.
  rewrite <- (update_is_ccitt_byte crc b Hcrc Hb1).
  apply IH; [apply update_range | exact Hbs].
Qed.

Lemma crc_calc_eth_range (buf : list Z) (n : Z) : is_u16 (crc_calc_eth buf n).
Proof.
  unfold crc_calc_eth.
  generalize (take (Z.to_nat (n * 2)) buf). intros l.
  assert (H : is_u16 0) by (unfold is_u16; lia). revert H.
  generalize 0. induction l as [|b bs IH]; intros crc Hc; simpl; [exact Hc|].
  apply IH, update_range.
Qed.

End CrcFacts.


(** *** Words and bytes *)

Lemma lor_disjoint_add (a c k : Z) :
  0 <= k -> 0 <= a < 2 ^ k -> Z.lor a (c * 2 ^ k) = a + c * 2 ^ k.
Proof.
  intros Hk Ha.
  assert (E : Z.land a (c * 2 ^ k) = 0).
  { apply Z.bits_inj'. intros n Hn. rewrite Z.land_spec, Z.bits_0.
    destruct (Z.ltb_spec n k).
    - rewrite Z.mul_pow2_bits_low by lia. apply andb_false_r.
    - rewrite (testbit_above a k n) by lia. reflexivity. }
  rewrite Z.add_nocarry_lxor by exact E. symmetry. apply Z.lxor_lor. exact E.
Qed.

Lemma u8_land_shiftr (w : Z) : is_u16 w -> is_u8 (Z.land w 0xFF) /\ is_u8 (Z.shiftr w 8).
Proof.
  intros Hw. split; [apply wrap8_range|].
  unfold is_u8, is_u16 in *. rewrite Z.shiftr_div_pow2 by lia.
  change (2 ^ 8) with 256. split.
  - apply Z.div_pos; lia.
  - apply Z.div_lt_upper_bound; lia.
Qed.

Module EthFacts.
Import Crc CrcFacts Eth.

Lemma word_of_bytes_split (w : Z) :
  word_of_bytes (Z.land w 0xFF) (Z.shiftr w 8) = w.
Proof.
  unfold word_of_bytes. apply Z.bits_inj'. intros n Hn.
  rewrite Z.lor_spec. fold (wrap8 w). rewrite wrap8_testbit.
  destruct (Z.ltb_spec n 8); simpl.
  - rewrite Z.shiftl_spec_low by lia. apply orb_false_r.
  - rewrite Z.shiftl_spec, Z.shiftr_spec by lia. f_equal. lia.
Qed.

Lemma word_of_bytes_add (lo hi : Z) :
  is_u8 lo -> word_of_bytes lo hi = lo + hi * 2 ^ 8.
Proof.
  intros Hlo. unfold word_of_bytes. rewrite Z.shiftl_mul_pow2 by lia.
  apply lor_disjoint_add; [lia | exact Hlo].
Qed.

Lemma word_of_bytes_range (lo hi : Z) :
  is_u8 lo -> is_u8 hi -> is_u16 (word_of_bytes lo hi).
Proof.
  intros Hlo Hhi. rewrite word_of_bytes_add by exact Hlo.
  unfold is_u8, is_u16 in *. lia.
Qed.

Lemma bytes_of_word_join (lo hi : Z) :
  is_u8 lo -> is_u8 hi -> bytes_of_word (word_of_bytes lo hi) = [lo; hi].
Proof.
  intros Hlo Hhi. unfold bytes_of_word.
  rewrite word_of_bytes_add by exact Hlo.
  change 0xFF with (Z.ones 8). rewrite Z.land_ones, Z.shiftr_div_pow2 by lia.
  unfold is_u8 in *. change (2 ^ 8) with 256.
  f_equal; [|f_equal]; Z.div_mod_to_equations; lia.
Qed.

Lemma bytes_of_words_u8 (ws : list Z) :
  Forall is_u16 ws -> Forall is_u8 (bytes_of_words ws).
Proof.
  induction 1 as [|w ws Hw _ IH]; simpl; [constructor|].
  destruct (u8_land_shiftr w Hw) as [Hl Hh].
  constructor; [exact Hl|]. constructor; [exact Hh | exact IH].
Qed.

(** Eight bytes turned into four words and laid out in memory again. *)
Lemma bytes_words_bytes8 (d : list Z) :
  length d = 8%nat -> Forall is_u8 d ->
  bytes_of_words (words_of_bytes d) = d /\ Forall is_u16 (words_of_bytes d)
  /\ length (words_of_bytes d) = 4%nat.
Proof.
  intros Hlen Hd.
  do 8 (destruct d as [|? d]; [discriminate Hlen|]).
  destruct d; [|discriminate Hlen].
  repeat match goal with
         | Hf : Forall _ (_ :: _) |- _ =>
             let a := fresh "Hb" in let b := fresh "Hr" in
             apply Forall_cons in Hf; destruct Hf as [a b]
         end.
  unfold bytes_of_words. cbn [words_of_bytes flat_map].
  rewrite !bytes_of_word_join by assumption. cbn [app].
  split; [reflexivity|]. split; [|reflexivity].
  repeat constructor; apply word_of_bytes_range; assumption.
Qed.

Lemma crc_calc_eth_spec (buf : list Z) (n : Z) :
  Forall is_u8 buf ->
  crc_calc_eth buf n = crc_ccitt_spec (take (Z.to_nat (n * 2)) buf).
Proof.
  intros Hb. unfold crc_calc_eth, crc_ccitt_spec.
  apply fold_update_is_spec; [unfold is_u16; lia|].
  apply Forall_take. exact Hb.
Qed.

Lemma bytes_of_words_cons (w : Z) (ws : list Z) :
  bytes_of_words (w :: ws) = Z.land w 0xFF :: Z.shiftr w 8 :: bytes_of_words ws.
Proof. reflexivity. Qed.

Lemma bytes_of_words_snoc (ws : list Z) (w : Z) :
  bytes_of_words (ws ++ [w]) = bytes_of_words ws ++ bytes_of_word w.
Proof.
  unfold bytes_of_words. rewrite flat_map_app. cbn [flat_map].
  now rewrite app_nil_r.
Qed.

(** The loop of [crc_calc_eth] stops after [2 * n] bytes. *)
Lemma crc_calc_eth_prefix (pre suf : list Z) (n : Z) :
  length pre = Z.to_nat (n * 2) ->
  crc_calc_eth (pre ++ suf) n = crc_calc_eth pre n.
Proof.
  intros Hl. unfold crc_calc_eth. f_equal.
  rewrite <- Hl. rewrite take_app_length. now rewrite firstn_all.
Qed.

Lemma lor_below (a b k : Z) :
  0 <= k -> 0 <= a < 2 ^ k -> 0 <= b < 2 ^ k -> 0 <= Z.lor a b < 2 ^ k.
Proof.
  intros Hk Ha Hb.
  assert (Hnn : 0 <= Z.lor a b) by (apply Z.lor_nonneg; lia).
  split; [exact Hnn|].
  assert (E : Z.lor a b = Z.lor a b mod 2 ^ k).
  { apply Z.bits_inj'. intros n Hn.
    destruct (Z.ltb_spec n k).
    - rewrite Z.mod_pow2_bits_low by lia. reflexivity.
    - rewrite Z.mod_pow2_bits_high by lia.
      rewrite Z.lor_spec, (testbit_above a k n), (testbit_above b k n) by lia.
      reflexivity. }
  rewrite E. apply Z.mod_pos_bound. lia.
Qed.

Lemma swap_be_32_bytes (b0 b1 b2 b3 : Z) :
  is_u8 b0 -> is_u8 b1 -> is_u8 b2 -> is_u8 b3 ->
  __swap_be_32 (b0 + b1 * 2 ^ 8 + b2 * 2 ^ 16 + b3 * 2 ^ 24)
  = b0 * 2 ^ 24 + b1 * 2 ^ 16 + b2 * 2 ^ 8 + b3.
Proof.
  unfold is_u8. intros H0 H1 H2 H3. unfold __swap_be_32.
  set (x := b0 + b1 * 2 ^ 8 + b2 * 2 ^ 16 + b3 * 2 ^ 24).
  change 0xFF with (Z.ones 8).
  rewrite !Z.land_ones, !Z.shiftr_div_pow2, !Z.shiftl_mul_pow2 by lia.
  assert (E0 : x mod 2 ^ 8 = b0).
  { subst x. change (2 ^ 8) with 256. change (2 ^ 16) with 65536.
    change (2 ^ 24) with 16777216. Z.div_mod_to_equations. lia. }
  assert (E1 : (x / 2 ^ 8) mod 2 ^ 8 = b1).
  { subst x. change (2 ^ 8) with 256. change (2 ^ 16) with 65536.
    change (2 ^ 24) with 16777216. Z.div_mod_to_equations. lia. }
  assert (E2 : (x / 2 ^ 16) mod 2 ^ 8 = b2).
  { subst x. change (2 ^ 8) with 256. change (2 ^ 16) with 65536.
    change (2 ^ 24) with 16777216. Z.div_mod_to_equations. lia. }
  assert (E3 : (x / 2 ^ 24) mod 2 ^ 8 = b3).
  { subst x. change (2 ^ 8) with 256. change (2 ^ 16) with 65536.
    change (2 ^ 24) with 16777216. Z.div_mod_to_equations. lia. }
  rewrite E0, E1, E2, E3. clear E0 E1 E2 E3 x.
  rewrite (Z.lor_comm (b2 * 2 ^ 8) b3), (lor_disjoint_add b3 b2 8) by lia.
  rewrite (Z.lor_comm (b0 * 2 ^ 24) (b1 * 2 ^ 16)).
  rewrite (lor_disjoint_add (b1 * 2 ^ 16) b0 24) by lia.
  rewrite Z.lor_comm.
  replace (b1 * 2 ^ 16 + b0 * 2 ^ 24) with ((b1 + b0 * 2 ^ 8) * 2 ^ 16) by lia.
  rewrite lor_disjoint_add by lia. lia.
Qed.

Section WithHeaders.
Context `{H : headers}.

Lemma net_send_inv (send_r subnode address : Z) (data : list Z) (sz : Z)
    (wire : list Z) (r : il_ret) :
  Forall is_u8 data ->
  net_send send_r subnode address data sz = Some (wire, r) ->
  exists d, length d = 8%nat /\ Forall is_u8 d /\
            wire = wire_of subnode address sz d /\
            (0 < sz -> d = pad8 (take (Z.to_nat sz) data)
                       /\ sz <= 8 /\ sz <= Z.of_nat (length data)) /\
            (sz <= 0 -> d = replicate 8 0).
Proof.
  intros Hdata. unfold net_send, wire_of.
  destruct (Z.ltb_spec 0 sz) as [Hpos|Hnpos].
  - unfold memcpy. rewrite length_replicate.
    destruct (Z.leb_spec sz (Z.of_nat 8)) as [H8|H8]; cbn [andb];
      [|discriminate].
    destruct (Z.leb_spec sz (Z.of_nat (length data))) as [Hl|Hl];
      [|discriminate].
    rewrite drop_replicate.
    intros E. injection E as <- <-.
    exists (take (Z.to_nat sz) data ++ replicate (8 - Z.to_nat sz) 0).
    assert (Hlen : length (take (Z.to_nat sz) data) = Z.to_nat sz).
    { rewrite length_take. lia. }
    split; [rewrite length_app, Hlen, length_replicate; lia|].
    split.
    { apply Forall_app. split; [apply Forall_take; exact Hdata|].
      apply Forall_replicate. unfold is_u8. lia. }
    split; [reflexivity|]. split; [|lia].
    intros _. unfold pad8. rewrite Hlen. repeat split; lia.
  - intros E. injection E as <- <-.
    exists (replicate 8 0). split; [reflexivity|].
    split; [apply Forall_replicate; unfold is_u8; lia|].
    split; [reflexivity|]. split; [lia | reflexivity].
Qed.

Lemma net_send_total (send_r subnode address : Z) (data : list Z) (sz : Z) :
  0 <= sz <= 8 -> sz <= Z.of_nat (length data) ->
  exists wire r, net_send send_r subnode address data sz = Some (wire, r).
Proof.
  intros Hsz Hl. unfold net_send.
  destruct (Z.ltb_spec 0 sz); [|eauto].
  unfold memcpy. rewrite length_replicate.
  destruct (Z.leb_spec sz (Z.of_nat 8)); [|lia].
  destruct (Z.leb_spec sz (Z.of_nat (length data))); [|lia].
  cbn [andb]. eauto.
Qed.

(** The layout of those 14 bytes. *)
Lemma wire_of_layout (subnode address sz : Z) (d : list Z) :
  length d = 8%nat -> Forall is_u8 d ->
  let wire := wire_of subnode address sz d in
  let cmd := if sz =? 0 then ETH_MCB_CMD_READ else ETH_MCB_CMD_WRITE in
  length wire = 14%nat /\ Forall is_u8 wire /\
  word_at wire 0 = wrap16 (Z.lor (Z.shiftl ETH_MCB_NODE_DFLT 4) subnode) /\
  word_at wire 1
    = wrap16 (Z.lor (Z.lor (Z.shiftl address 4) (Z.shiftl cmd 1)) 0) /\
  take 8 (drop 4 wire) = d /\
  map (word_at wire) [2; 3; 4; 5]%nat = words_of_bytes d /\
  word_at wire 6 = crc_calc_eth wire 6.
Proof.
  intros Hlen Hd wire cmd. subst wire. unfold wire_of. fold cmd.
  set (hh := wrap16 (Z.lor (Z.shiftl ETH_MCB_NODE_DFLT 4) subnode)).
  set (hl := wrap16 (Z.lor (Z.lor (Z.shiftl address 4) (Z.shiftl cmd 1)) 0)).
  assert (Hhh : is_u16 hh) by apply wrap16_range.
  assert (Hhl : is_u16 hl) by apply wrap16_range.
  clearbody hh hl.
  destruct (bytes_words_bytes8 d Hlen Hd) as (Hrt & Hw16 & Hw4).
  rewrite bytes_of_words_snoc.
  assert (Hpre : bytes_of_words ([hh; hl] ++ words_of_bytes d)
                 = [Z.land hh 0xFF; Z.shiftr hh 8;
                    Z.land hl 0xFF; Z.shiftr hl 8] ++ d).
  { change ([hh; hl] ++ words_of_bytes d)
      with (hh :: hl :: words_of_bytes d).
    rewrite !bytes_of_words_cons, Hrt. reflexivity. }
  rewrite Hpre.
  set (pre := [Z.land hh 0xFF; Z.shiftr hh 8; Z.land hl 0xFF; Z.shiftr hl 8]
                ++ d).
  assert (Hplen : length pre = 12%nat).
  { subst pre. rewrite length_app, Hlen. reflexivity. }
  assert (Hcrc : crc_calc_eth (pre ++ bytes_of_word
                    (crc_calc_eth pre (Z.of_nat ETH_MCB_CRC_POS))) 6
                 = crc_calc_eth pre (Z.of_nat ETH_MCB_CRC_POS)).
  { apply (crc_calc_eth_prefix pre _ 6). exact Hplen. }
  assert (Hc : is_u16 (crc_calc_eth pre (Z.of_nat ETH_MCB_CRC_POS)))
    by apply crc_calc_eth_range.
  revert Hcrc Hc.
  generalize (crc_calc_eth pre (Z.of_nat ETH_MCB_CRC_POS)). intros crc Hcrc Hc.
  rewrite Hcrc. clear Hcrc Hpre Hrt. subst pre.
  do 8 (destruct d as [|? d]; [discriminate Hlen|]).
  destruct d; [|discriminate Hlen].
  unfold word_at, bytes_of_word.
  cbn [length app take drop map nth Nat.mul Nat.add words_of_bytes].
  rewrite !word_of_bytes_split.
  split; [reflexivity|]. split.
  { destruct (u8_land_shiftr hh Hhh), (u8_land_shiftr hl Hhl),
      (u8_land_shiftr crc Hc).
    repeat match goal with
           | Hf : Forall _ (_ :: _) |- _ =>
               let a := fresh "Hb" in let b := fresh "Hr" in
               apply Forall_cons in Hf; destruct Hf as [a b]
           end.
    repeat (constructor; [assumption|]). constructor. }
  repeat (split; [reflexivity|]). reflexivity.
Qed.

Lemma wrap16_lor_exact (a b : Z) :
  0 <= a < 2 ^ 12 -> 0 <= b < 2 ^ 16 ->
  wrap16 (Z.lor (Z.shiftl a 4) b) = Z.lor (Z.shiftl a 4) b.
Proof.
  intros Ha Hb. apply wrap16_id. unfold is_u16.
  apply (lor_below _ _ 16); [lia| |exact Hb].
  rewrite Z.shiftl_mul_pow2 by lia. lia.
Qed.

(** C7. For a call [net_send(subnode, address, data, sz)] whose payload
    fits the frame ([sz <= 8] bytes, all present in [data]), the 14
    bytes handed to [send] are a 7-word frame with word 0 equal to
    [(ETH_MCB_NODE_DFLT << 4) | subnode], word 1 equal to
    [(address << 4) | (cmd << 1) | 0] where [cmd] is WRITE (2) for
    [sz > 0] and READ (1) for [sz = 0], both as 16-bit words (and
    without truncation when the node default and the address fit 12
    bits), words 2..5 holding the payload zero-padded to eight bytes in
    little-endian order, and word 6 the CRC-CCITT of the first 12
    bytes. *)
Theorem net_send_frame_layout (send_r subnode address : Z)
    (data : list Z) (sz : Z) :
  is_u8 subnode -> is_u16 address -> Forall is_u8 data ->
  0 <= sz <= 8 -> sz <= Z.of_nat (length data) ->
  let payload := take (Z.to_nat sz) data in
  let cmd := if 0 <? sz then 2 else 1 in
  exists wire r,
    net_send send_r subnode address data sz = Some (wire, r) /\
    length wire = 14%nat /\
    word_at wire 0 = wrap16 (Z.lor (Z.shiftl ETH_MCB_NODE_DFLT 4) subnode) /\
    (0 <= ETH_MCB_NODE_DFLT < 2 ^ 12 ->
     word_at wire 0 = Z.lor (Z.shiftl ETH_MCB_NODE_DFLT 4) subnode) /\
    word_at wire 1
      = wrap16 (Z.lor (Z.lor (Z.shiftl address 4) (Z.shiftl cmd 1)) 0) /\
    (address < 2 ^ 12 ->
     word_at wire 1 = Z.lor (Z.lor (Z.shiftl address 4) (Z.shiftl cmd 1)) 0) /\
    take 8 (drop 4 wire) = pad8 payload /\
    map (word_at wire) [2; 3; 4; 5]%nat = words_of_bytes (pad8 payload) /\
    word_at wire 6 = crc_calc_eth wire 6 /\
    word_at wire 6 = crc_ccitt_spec (take 12 wire).
Proof.
  intros Hsub Haddr Hdata Hsz Hl payload cmd.
  destruct (net_send_total send_r subnode address data sz Hsz Hl)
    as (wire & r & E).
  exists wire, r. split; [exact E|].
  destruct (net_send_inv _ _ _ _ _ _ _ Hdata E)
    as (d & Hlen & Hd & -> & Hpos & Hzero).
  assert (Hdp : d = pad8 payload).
  { destruct (Z.ltb_spec 0 sz) as [Hp|Hp].
    - apply Hpos. exact Hp.
    - rewrite Hzero by exact Hp. subst payload.
      replace sz with 0 by lia. reflexivity. }
  assert (Hcmd : (if sz =? 0 then ETH_MCB_CMD_READ else ETH_MCB_CMD_WRITE)
                 = cmd).
  { subst cmd. destruct (Z.eqb_spec sz 0), (Z.ltb_spec 0 sz);
      try lia; reflexivity. }
  destruct (wire_of_layout subnode address sz d Hlen Hd)
    as (Hw14 & Hwu8 & Hw0 & Hw1 & Hpay & Hwords & Hw6).
  rewrite Hcmd in Hw1. rewrite <- Hdp.
  split; [exact Hw14|]. split; [exact Hw0|]. split.
  { intros Hn. rewrite Hw0. apply wrap16_lor_exact; [exact Hn|].
    unfold is_u8 in Hsub. lia. }
  split; [exact Hw1|]. split.
  { intros Ha. rewrite Hw1, Z.lor_0_r.
    unfold is_u16 in Haddr.
    apply wrap16_lor_exact; [lia|].
    subst cmd. destruct (0 <? sz); cbv; (split; [discriminate | reflexivity]). }
  split; [exact Hpay|]. split; [exact Hwords|]. split; [exact Hw6|].
  rewrite Hw6. apply (crc_calc_eth_spec _ 6). exact Hwu8.
Qed.


(** C2 (as amended). [crc_calc_eth] is CRC-CCITT with polynomial
    [0x1021], initial value [0x0000], most significant bit first and no
    final XOR, over the first [2 * u16Sz] bytes of the buffer; for the 12
    bytes of scenario S1 it gives [0xF402]; and [net_send] stores the
    CRC of the first 12 bytes of the frame as its 7th word. *)
Theorem crc_calc_eth_is_ccitt :
  (forall (buf : list Z) (n : Z), Forall is_u8 buf ->
     crc_calc_eth buf n = crc_ccitt_spec (take (Z.to_nat (n * 2)) buf)) /\
  crc_calc_eth s1_bytes 6 = 0xF402 /\
  (forall (send_r subnode address : Z) (data : list Z) (sz : Z)
          (wire : list Z) (r : il_ret),
     Forall is_u8 data ->
     net_send send_r subnode address data sz = Some (wire, r) ->
     length wire = 14%nat /\
     word_at wire 6 = crc_ccitt_spec (take 12 wire)).
Proof.
  split; [exact crc_calc_eth_spec|]. split; [vm_compute; reflexivity|].
  intros send_r subnode address data sz wire r Hdata E.
  destruct (net_send_inv _ _ _ _ _ _ _ Hdata E)
    as (d & Hlen & Hd & -> & _ & _).
  destruct (wire_of_layout subnode address sz d Hlen Hd)
    as (Hw14 & Hwu8 & _ & _ & _ & _ & Hw6).
  split; [exact Hw14|].
  rewrite Hw6. apply (crc_calc_eth_spec _ 6). exact Hwu8.
Qed.

Lemma load_u32_be32 (rx : list Z) :
  length rx = 14%nat -> Forall is_u8 rx ->
  __swap_be_32 (load_u32 rx ETH_MCB_DATA_POS) = be32 (take 4 (drop 4 rx)).
Proof.
  intros Hlen Hrx.
  do 14 (destruct rx as [|? rx]; [discriminate Hlen|]).
  destruct rx; [|discriminate Hlen].
  repeat match goal with
         | Hf : Forall _ (_ :: _) |- _ =>
             let a := fresh "Hb" in let b := fresh "Hr" in
             apply Forall_cons in Hf; destruct Hf as [a b]
         end.
  unfold load_u32, word_at, be32, ETH_MCB_DATA_POS.
  cbn [take drop nth Nat.mul Nat.add].
  rewrite !word_of_bytes_add by assumption.
  rewrite Z.shiftl_mul_pow2 by lia.
  rewrite lor_disjoint_add by (unfold is_u8 in *; lia).
  rewrite <- swap_be_32_bytes by assumption. f_equal. lia.
Qed.

(** What the mask and shift of [net_recv] read is ACK exactly when bits
    3..1 of the header word are 0, 1, 1. *)
Lemma frame_cmd_ack_bits (rx : list Z) :
  frame_cmd rx = ETH_MCB_CMD_ACK <-> cmd_is_ack rx.
Proof.
  unfold frame_cmd, cmd_is_ack, ETH_MCB_CMD_MSK, ETH_MCB_CMD_POS,
    ETH_MCB_CMD_ACK, ETH_MCB_HDR_L_POS.
  generalize (word_at rx 1). intros w.
  assert (Hbit : forall n, 0 <= n ->
            Z.testbit (Z.shiftr (Z.land w 14) 1) n
            = Z.testbit w (n + 1) && Z.testbit 14 (n + 1)).
  { intros n Hn. rewrite Z.shiftr_spec, Z.land_spec by lia. reflexivity. }
  split.
  - intros E.
    pose proof (Hbit 0 ltac:(lia)) as H0.
    pose proof (Hbit 1 ltac:(lia)) as H1.
    pose proof (Hbit 2 ltac:(lia)) as H2.
    rewrite E in H0, H1, H2.
    change (0 + 1) with 1 in H0. change (1 + 1) with 2 in H1.
    change (2 + 1) with 3 in H2.
    change (Z.testbit 3 0) with true in H0.
    change (Z.testbit 3 1) with true in H1.
    change (Z.testbit 3 2) with false in H2.
    change (Z.testbit 14 1) with true in H0.
    change (Z.testbit 14 2) with true in H1.
    change (Z.testbit 14 3) with true in H2.
    rewrite andb_true_r in H0, H1, H2.
    split; [now symmetry|]. split; now symmetry.
  - intros (H3 & H2 & H1). apply Z.bits_inj'. intros n Hn.
    rewrite Hbit by exact Hn.
    destruct (Z.ltb_spec n 3) as [Hlt|Hge].
    + assert (Hn3 : n = 0 \/ n = 1 \/ n = 2) by lia.
      destruct Hn3 as [-> | [-> | ->]].
      * change (0 + 1) with 1. rewrite H1. reflexivity.
      * change (1 + 1) with 2. rewrite H2. reflexivity.
      * change (2 + 1) with 3. rewrite H3. reflexivity.
    + rewrite (testbit_above 14 4 (n + 1)) by lia.
      rewrite andb_false_r. symmetry. apply (testbit_above 3 2 n); lia.
Qed.

(** C1. For a 7-word frame left in [frame] by [recv] (and a byte count
    the frame can serve), [net_recv] returns success exactly when the
    CRC-CCITT of the first 6 words equals word 6 and the [cmd] field of
    [HDR_L], bits 3..1 of word 1, is ACK; on a CRC mismatch it returns
    [IL_EIO] with the CRC-mismatch error; on a CRC-valid frame whose
    [cmd] is not ACK it returns [IL_EIO] with the NACK error carrying the
    first four payload bytes read as a big-endian 32-bit value. *)
Theorem net_recv_outcome (rx : list Z) (subnode address sz : Z) :
  length rx = 14%nat -> Forall is_u8 rx -> 0 <= sz <= 10 ->
  let crc_ok := crc_ccitt_spec (take 12 rx) = word_at rx 6 in
  let acked := cmd_is_ack rx in
  let res := net_recv rx subnode address sz in
  (recv_ret res = Some IL_OK <-> crc_ok /\ acked) /\
  (~ crc_ok -> res = RecvErr IL_EIO msg_crc) /\
  (crc_ok -> ~ acked ->
   res = RecvErr IL_EIO (msg_nack (be32 (take 4 (drop 4 rx))))) /\
  (crc_ok -> acked -> res = RecvOk (take (Z.to_nat sz) (drop 4 rx))).
Proof.
  intros Hlen Hrx Hsz crc_ok acked res.
  assert (Hres :
    res = if negb (crc_ccitt_spec (take 12 rx) =? word_at rx 6)
          then RecvErr IL_EIO msg_crc
          else if negb (frame_cmd rx =? ETH_MCB_CMD_ACK)
               then RecvErr IL_EIO (msg_nack (be32 (take 4 (drop 4 rx))))
               else RecvOk (take (Z.to_nat sz) (drop 4 rx))).
  { subst res. unfold net_recv.
    rewrite (crc_calc_eth_spec rx 6 Hrx).
    change (Z.to_nat (6 * 2)) with 12%nat.
    rewrite (load_u32_be32 rx Hlen Hrx).
    destruct (negb _); [reflexivity|]. destruct (negb _); [reflexivity|].
    destruct (Z.eqb_spec sz 0) as [->|Hnz]; [reflexivity|].
    unfold memcpy. rewrite length_replicate, length_drop, Hlen.
    change (2 * ETH_MCB_DATA_POS)%nat with 4%nat.
    destruct (Z.leb_spec sz (Z.of_nat (Z.to_nat sz))); [|lia].
    destruct (Z.leb_spec sz (Z.of_nat (14 - 4))); [|lia].
    cbn [andb]. rewrite drop_replicate, Nat.sub_diag. cbn [replicate].
    now rewrite app_nil_r. }
  clearbody res. subst res.
  destruct (Z.eqb_spec (crc_ccitt_spec (take 12 rx)) (word_at rx 6))
    as [Hc|Hc]; cbn [negb];
    [destruct (Z.eqb_spec (frame_cmd rx) ETH_MCB_CMD_ACK) as [Ha|Ha];
     rewrite frame_cmd_ack_bits in Ha; cbn [negb]|];
    subst crc_ok acked; cbn [recv_ret];
    (split; [split; [intros E; try discriminate E; tauto
                    | intros [? ?]; try reflexivity; contradiction]|]);
    (split; [intros ?; try reflexivity; contradiction|]);
    (split; intros; try reflexivity; contradiction).
Qed.

End WithHeaders.

Ltac all_u8 :=
  repeat (constructor; [unfold is_u8; lia|]); constructor.

Example s2_read_ack : net_recv s2_reply 1 0x0011 2 = RecvOk [0x34; 0x12].
Proof. vm_compute. reflexivity. Qed.

Example s3_nack :
  net_recv s3_reply 1 0x0011 2 = RecvErr IL_EIO (msg_nack 0xDEADBEEF).
Proof. vm_compute. reflexivity. Qed.

Example s4_crc_mismatch :
  net_recv s4_reply 1 0x0011 2 = RecvErr IL_EIO msg_crc.
Proof. vm_compute. reflexivity. Qed.

Example read_request_wire :
  net_send (H := sample_headers) 14 1 0x0011 [] 0
  = Some ([0xA1;0x00; 0x12;0x01; 0;0;0;0; 0;0;0;0; 0x4B;0x66], IL_OK).
Proof. vm_compute. reflexivity. Qed.

Lemma net_recv_outcome_witness :
  ((length s2_reply = 14%nat /\ Forall is_u8 s2_reply /\ 0 <= 2 <= 10) /\
   net_recv s2_reply 1 0x0011 2
   = RecvOk (take (Z.to_nat 2) (drop 4 s2_reply))) /\
  ((length s3_reply = 14%nat /\ Forall is_u8 s3_reply /\ 0 <= 2 <= 10 /\
    ~ cmd_is_ack s3_reply) /\
   net_recv s3_reply 1 0x0011 2
   = RecvErr IL_EIO (msg_nack (be32 (take 4 (drop 4 s3_reply))))) /\
  ((length s4_reply = 14%nat /\ Forall is_u8 s4_reply /\ 0 <= 2 <= 10 /\
    crc_ccitt_spec (take 12 s4_reply) <> word_at s4_reply 6) /\
   net_recv s4_reply 1 0x0011 2 = RecvErr IL_EIO msg_crc).
Proof.
  assert (Hs : 0 <= 2 <= 10) by lia.
  assert (Hl2 : length s2_reply = 14%nat) by reflexivity.
  assert (Hu2 : Forall is_u8 s2_reply) by (unfold s2_reply; all_u8).
  assert (Hl3 : length s3_reply = 14%nat) by reflexivity.
  assert (Hu3 : Forall is_u8 s3_reply) by (unfold s3_reply; all_u8).
  assert (Hn3 : ~ cmd_is_ack s3_reply).
  { intros (_ & H2 & _). vm_compute in H2. discriminate H2. }
  assert (Hl4 : length s4_reply = 14%nat) by reflexivity.
  assert (Hu4 : Forall is_u8 s4_reply) by (unfold s4_reply; all_u8).
  assert (Hc4 : crc_ccitt_spec (take 12 s4_reply) <> word_at s4_reply 6).
  { intros E. vm_compute in E. discriminate E. }
  split; [|split].
  - split; [exact (conj Hl2 (conj Hu2 Hs))|].
    destruct (net_recv_outcome s2_reply 1 0x0011 2 Hl2 Hu2 Hs)
      as (_ & _ & _ & Hok).
    apply Hok; [vm_compute; reflexivity|].
    split; [|split]; vm_compute; reflexivity.
  - split; [exact (conj Hl3 (conj Hu3 (conj Hs Hn3)))|].
    destruct (net_recv_outcome s3_reply 1 0x0011 2 Hl3 Hu3 Hs)
      as (_ & _ & Hnack & _).
    apply Hnack; [vm_compute; reflexivity | exact Hn3].
  - split; [exact (conj Hl4 (conj Hu4 (conj Hs Hc4)))|].
    destruct (net_recv_outcome s4_reply 1 0x0011 2 Hl4 Hu4 Hs)
      as (_ & Hcrc & _).
    apply Hcrc. exact Hc4.
Defined.

Lemma crc_calc_eth_is_ccitt_witness :
  Forall is_u8 s1_bytes /\
  crc_calc_eth s1_bytes 6 = crc_ccitt_spec (take (Z.to_nat (6 * 2)) s1_bytes).
Proof.
  assert (Hu : Forall is_u8 s1_bytes) by (unfold s1_bytes; all_u8).
  split; [exact Hu|].
  exact (proj1 (crc_calc_eth_is_ccitt (H := sample_headers)) s1_bytes 6 Hu).
Defined.

(** The value the claim names for scenario S1 is not what the code (or the
    algorithm as the specification words it) computes. *)
Lemma s1_crc_is_not_d1ef :
  crc_calc_eth s1_bytes 6 <> 0xD1EF /\ crc_ccitt_spec s1_bytes <> 0xD1EF.
Proof. split; vm_compute; discriminate. Qed.

Lemma net_send_frame_layout_witness :
  (is_u8 1 /\ is_u16 0x0120 /\ Forall is_u8 [0x34; 0x12] /\ 0 <= 2 <= 8
   /\ 2 <= Z.of_nat (length [0x34; 0x12])) /\
  exists wire r,
    net_send (H := sample_headers) 14 1 0x0120 [0x34; 0x12] 2 = Some (wire, r) /\
    word_at wire 1 = Z.lor (Z.lor (Z.shiftl 0x0120 4) (Z.shiftl 2 1)) 0 /\
    take 8 (drop 4 wire) = [0x34; 0x12; 0; 0; 0; 0; 0; 0] /\
    word_at wire 6 = crc_ccitt_spec (take 12 wire).
Proof.
  assert (H1 : is_u8 1) by (unfold is_u8; lia).
  assert (H2 : is_u16 0x0120) by (unfold is_u16; lia).
  assert (H3 : Forall is_u8 [0x34; 0x12]) by all_u8.
  assert (H4 : 0 <= 2 <= 8) by lia.
  assert (H5 : 2 <= Z.of_nat (length [0x34; 0x12])) by (simpl; lia).
  split; [repeat split; try assumption; lia|].
  destruct (net_send_frame_layout (H := sample_headers) 14 1 0x0120
              [0x34; 0x12] 2 H1 H2 H3 H4 H5)
    as (wire & r & E & _ & _ & _ & _ & Hw1 & Hpay & _ & _ & Hcrc).
  exists wire, r. split; [exact E|]. split.
  - apply Hw1. lia.
  - split; [exact Hpay | exact Hcrc].
Defined.

End EthFacts.

(** *** The TCP listener *)

Module ListenerFacts.
Import Eth.

Section WithHeaders.
Context `{H : headers}.

Lemma poll_io_counter (st st' : listener_st) (e : poll_env) :
  poll_io st e = Some st' ->
  error_count st' = if poll_failed e then error_count st + 1 else 0.
Proof.
  unfold poll_io, poll_failed.
  destruct (net_send (pe_send e) 1 17 [] 0) as [[w r]|]; [|discriminate].
  destruct (ret_neg r); cbn [orb].
  - intros E. injection E as <-. reflexivity.
  - destruct (net_recv (pe_rx e) 1 17 2); intros E;
      try discriminate E; injection E as <-; reflexivity.
Qed.

Lemma poll_turn_counter (a : Z) (st st' : listener_st) (e : poll_env)
    (calls : list cb_call) :
  poll_turn a st e = Some (st', calls) ->
  error_count st' = if poll_failed e then error_count st + 1 else 0.
Proof.
  unfold poll_turn. destruct (poll_io st e) as [st1|] eqn:E; [|discriminate].
  destruct (process_statusword (pe_subs e) 1 a); [|discriminate].
  intros E'. injection E' as <- _. exact (poll_io_counter _ _ _ E).
Qed.

Lemma failures_in_a_row_cons (c : Z) (e : poll_env) (ps : list poll_env) :
  failures_in_a_row c (e :: ps)
  = failures_in_a_row (if poll_failed e then c + 1 else 0) ps.
Proof. reflexivity. Qed.

Lemma failures_in_a_row_snoc (c : Z) (e : poll_env) (ps : list poll_env) :
  failures_in_a_row c (ps ++ [e])
  = if poll_failed e then failures_in_a_row c ps + 1 else 0.
Proof. unfold failures_in_a_row. now rewrite fold_left_app. Qed.

(** The count is the length of a run of failures that ends the list. *)
Lemma failures_in_a_row_run (ps : list poll_env) :
  let n := failures_in_a_row 0 ps in
  0 <= n <= Z.of_nat (length ps) /\
  Forall (fun e => poll_failed e = true)
         (drop (length ps - Z.to_nat n) ps).
Proof.
  induction ps as [|e ps IH] using rev_ind.
  - cbn. split; [lia | constructor].
  - cbv zeta in *. rewrite failures_in_a_row_snoc, length_app.
    cbn [length]. destruct IH as [Hn Hf].
    destruct (poll_failed e) eqn:Ee.
    + split; [lia|].
      replace (length ps + 1 - Z.to_nat (failures_in_a_row 0 ps + 1))%nat
        with (length ps - Z.to_nat (failures_in_a_row 0 ps))%nat by lia.
      rewrite drop_app_le by lia.
      apply Forall_app. split; [exact Hf|]. repeat constructor. exact Ee.
    + split; [lia|].
      replace (length ps + 1 - Z.to_nat 0)%nat
        with (length (ps ++ [e])) by (rewrite length_app; cbn; lia).
      rewrite drop_all. constructor.
Qed.

(** What the way [poll_loop] ends says about the polls it consumed. *)
Lemma poll_loop_end (a : Z) (ps : list poll_env) :
  forall (st : listener_st) (log : list cb_call),
    0 <= error_count st < 10 ->
    match fst (poll_loop a st ps log) with
    | Left_loop (st', rest) =>
        error_count st' = 10 /\
        exists pre, ps = pre ++ rest /\
          failures_in_a_row (error_count st) pre = 10 /\
          (forall p q, pre = p ++ q -> q <> [] ->
             failures_in_a_row (error_count st) p < 10)
    | Still_in =>
        forall p q, ps = p ++ q ->
          failures_in_a_row (error_count st) p < 10
    | Faulted => True
    end.
Proof.
  induction ps as [|e ps IH]; intros st log Hst.
  - cbn [poll_loop]. destruct (Z.ltb_spec (error_count st) 10); [|lia].
    cbn [fst]. intros p q E.
    destruct p; [cbn; lia | discriminate E].
  - cbn [poll_loop]. destruct (Z.ltb_spec (error_count st) 10); [|lia].
    destruct (poll_turn a st e) as [[st1 calls]|] eqn:Et; [|exact I].
    pose proof (poll_turn_counter _ _ _ _ _ Et) as Hc.
    destruct (Z.ltb_spec (error_count st1) 10) as [Hlt|Hge].
    + assert (Hst1 : 0 <= error_count st1 < 10).
      { destruct (poll_failed e); lia. }
      specialize (IH st1 (log ++ calls) Hst1).
      destruct (fst (poll_loop a st1 ps (log ++ calls)))
        as [[st' rest]| |]; [| |exact I].
      * destruct IH as (H10 & pre & -> & Hrow & Hpre).
        split; [exact H10|]. exists (e :: pre).
        split; [reflexivity|].
        rewrite failures_in_a_row_cons, <- Hc. split; [exact Hrow|].
        intros p q E Hq. destruct p as [|e' p]; [cbn; lia|].
        injection E as <- E. rewrite failures_in_a_row_cons, <- Hc.
        exact (Hpre p q E Hq).
      * intros p q E. destruct p as [|e' p]; [cbn; lia|].
        injection E as <- E. rewrite failures_in_a_row_cons, <- Hc.
        exact (IH p q E).
    + assert (E10 : error_count st1 = 10).
      { destruct (poll_failed e); lia. }
      destruct ps as [|e2 ps]; cbn [poll_loop];
        (destruct (Z.ltb_spec (error_count st1) 10); [lia|]);
        cbn [fst]; (split; [exact E10|]);
        exists [e]; (split; [reflexivity|]);
        rewrite failures_in_a_row_cons, <- Hc; (split; [exact E10|]);
        intros p q E Hq; (destruct p as [|e' p]; [cbn; lia|]);
        injection E as _ E; destruct p; destruct q; try discriminate E;
        contradiction.
Qed.

(** *** Polls that stay within their objects never fault *)

Lemma sw_scan_total (n : nat) : forall (i : nat) (arr : list sw_subscriber)
    (id sw : Z),
  (i + n <= length arr)%nat -> is_Some (sw_scan n i arr id sw).
Proof.
  induction n as [|n IH]; intros i arr id sw Hn; cbn [sw_scan]; [eauto|].
  destruct (lookup_lt_is_Some_2 arr i) as [s Hs]; [lia|]. rewrite Hs.
  destruct (_ && _); [eauto|]. apply IH. lia.
Qed.

Lemma poll_io_total (st : listener_st) (e : poll_env) :
  length (pe_rx e) = 14%nat -> is_Some (poll_io st e).
Proof.
  intros Hlen. unfold poll_io, net_send.
  cbn [Z.ltb Z.compare Z.eqb].
  destruct (ret_neg _); [eauto|].
  unfold net_recv. destruct (negb _); [eauto|]. destruct (negb _); [eauto|].
  cbn [Z.eqb]. unfold memcpy.
  rewrite length_replicate, length_drop, Hlen. cbn. eauto.
Qed.

Lemma poll_turn_total (a : Z) (st : listener_st) (e : poll_env) :
  poll_well_formed e -> is_Some (poll_turn a st e).
Proof.
  intros [Hlen Hsz]. unfold poll_turn.
  destruct (poll_io_total st e Hlen) as [st1 E1]. rewrite E1.
  unfold process_statusword.
  destruct (sw_scan_total (Z.to_nat (sz (pe_subs e))) 0 (subs (pe_subs e))
              (wrap8 1) (wrap16 a)) as [calls E2]; [lia|].
  rewrite E2. eauto.
Qed.

(** The loop is left with the counter at 10 at the first prefix of the
    polls on which ten failures in a row have built up. *)
Lemma poll_loop_reaches (a : Z) (rest pre : list poll_env) :
  forall (st : listener_st) (log : list cb_call),
    0 <= error_count st < 10 ->
    Forall poll_well_formed pre ->
    failures_in_a_row (error_count st) pre = 10 ->
    (forall p q, pre = p ++ q -> q <> [] ->
       failures_in_a_row (error_count st) p < 10) ->
    exists st' log',
      poll_loop a st (pre ++ rest) log = (Left_loop (st', rest), log') /\
      error_count st' = 10.
Proof.
  induction pre as [|e pre IH]; intros st log Hst Hwf Hrow Hmin.
  - cbn in Hrow. lia.
  - apply Forall_cons in Hwf. destruct Hwf as [He Hwf].
    cbn [app poll_loop]. destruct (Z.ltb_spec (error_count st) 10) as [Hlt10|Hge10]; [|lia].
    destruct (poll_turn_total a st e He) as [[st1 calls] Et]. rewrite Et.
    pose proof (poll_turn_counter _ _ _ _ _ Et) as Hc.
    rewrite failures_in_a_row_cons, <- Hc in Hrow.
    destruct pre as [|e2 pre].
    + cbn in Hrow. exists st1, (log ++ calls). split; [|exact Hrow].
      cbn [app]. destruct rest; cbn [poll_loop];
        (destruct (Z.ltb_spec (error_count st1) 10) as [Hlt1|Hge1]; [lia|]); reflexivity.
    + apply IH.
      * pose proof (Hmin [e] (e2 :: pre) eq_refl ltac:(discriminate)) as Hm1.
        rewrite failures_in_a_row_cons, <- Hc in Hm1. cbn in Hm1.
        destruct (poll_failed e); lia.
      * exact Hwf.
      * exact Hrow.
      * intros p q E Hq.
        pose proof (Hmin (e :: p) q ltac:(now rewrite E) Hq) as Hm1.
        rewrite failures_in_a_row_cons, <- Hc in Hm1. exact Hm1.
Qed.

(** While no prefix of the polls has ten failures in a row the loop is
    not left. *)
Lemma poll_loop_stays (a : Z) (ps : list poll_env) :
  forall (st : listener_st) (log : list cb_call),
    Forall poll_well_formed ps ->
    (forall p q, ps = p ++ q -> failures_in_a_row (error_count st) p < 10) ->
    fst (poll_loop a st ps log) = Still_in.
Proof.
  induction ps as [|e ps IH]; intros st log Hwf Hlt;
    pose proof (Hlt [] _ eq_refl) as Hm0; cbn in Hm0;
    cbn [poll_loop]; (destruct (Z.ltb_spec (error_count st) 10) as [Hlt10|Hge10]; [|lia]).
  - reflexivity.
  - apply Forall_cons in Hwf. destruct Hwf as [He Hwf].
    destruct (poll_turn_total a st e He) as [[st1 calls] Et]. rewrite Et.
    pose proof (poll_turn_counter _ _ _ _ _ Et) as Hc.
    apply IH; [exact Hwf|]. intros p q E.
    pose proof (Hlt (e :: p) q ltac:(now rewrite E)) as Hm1.
    rewrite failures_in_a_row_cons, <- Hc in Hm1. exact Hm1.
Qed.

Lemma poll_loop_no_fault (a : Z) (ps : list poll_env) :
  forall (st : listener_st) (log : list cb_call),
    Forall poll_well_formed ps ->
    fst (poll_loop a st ps log) <> Faulted.
Proof.
  induction ps as [|e ps IH]; intros st log Hwf; cbn [poll_loop];
    (destruct (error_count st <? 10); [|discriminate]).
  - discriminate.
  - apply Forall_cons in Hwf. destruct Hwf as [He Hwf].
    destruct (poll_turn_total a st e He) as [[st1 calls] Et]. rewrite Et.
    apply IH. exact Hwf.
Qed.

(** *** The reconnect loop *)

Lemma reconnect_loop_goes_on (pre rest : list reconnect_env) :
  forall (r : Z) (fl : eth_flags),
    r < 0 -> stop_reconnect fl = 0 -> Forall reconnect_goes_on pre ->
    exists r', r' < 0 /\
      reconnect_loop r fl (pre ++ rest) = reconnect_loop r' fl rest.
Proof.
  induction pre as [|e pre IH]; intros r fl Hr Hs Hpre.
  - exists r. split; [exact Hr | reflexivity].
  - apply Forall_cons in Hpre. destruct Hpre as [[Hc Hm] Hpre].
    cbn [app reconnect_loop]. rewrite Hs.
    destruct (Z.ltb_spec r 0); [|lia]. cbn [andb Z.eqb].
    destruct (Z.ltb_spec (rc_connect e) 0); [|lia]. rewrite Hm.
    apply IH; assumption.
Qed.

Lemma reconnect_loop_still_in (evs : list reconnect_env) (r : Z)
    (fl : eth_flags) :
  r < 0 -> stop_reconnect fl = 0 -> Forall reconnect_goes_on evs ->
  reconnect_loop r fl evs = Still_in.
Proof.
  intros Hr Hs Hevs.
  destruct (reconnect_loop_goes_on evs [] r fl Hr Hs Hevs) as (r' & Hr' & E).
  rewrite app_nil_r in E. rewrite E. cbn [reconnect_loop]. rewrite Hs.
  destruct (Z.ltb_spec r' 0); [reflexivity | lia].
Qed.

Lemma reconnect_loop_stops (e : reconnect_env) (rest : list reconnect_env)
    (r : Z) (fl : eth_flags) :
  r < 0 -> stop_reconnect fl = 0 -> ~ reconnect_goes_on e ->
  exists fl',
    reconnect_loop r fl (e :: rest) = Left_loop (fl', rest) /\
    stop_reconnect fl' = (if rc_mon_stop e then 1 else 0) /\
    stop fl' = (if rc_connect e <? 0 then stop fl else 0).
Proof.
  intros Hr Hs Hne. cbn [reconnect_loop]. rewrite Hs.
  destruct (Z.ltb_spec r 0); [|lia]. cbn [andb Z.eqb].
  unfold reconnect_goes_on in Hne.
  destruct (Z.ltb_spec (rc_connect e) 0) as [Hc|Hc];
    destruct (rc_mon_stop e) eqn:Hm.
  - exists (mkFlags (stop fl) 1). split; [|split; reflexivity].
    destruct rest; cbn [reconnect_loop stop_reconnect Z.eqb andb];
      rewrite ?andb_false_r; reflexivity.
  - exfalso. apply Hne. split; [exact Hc | reflexivity].
  - exists (mkFlags 0 1). split; [|split; reflexivity].
    destruct rest; cbn [reconnect_loop stop_reconnect Z.eqb andb];
      rewrite ?andb_false_r; reflexivity.
  - exists (mkFlags 0 0). split; [|split; reflexivity].
    destruct rest; cbn [reconnect_loop];
      (destruct (Z.ltb_spec (rc_connect e) 0); [lia|]); reflexivity.
Qed.

Lemma il_net_reconnect_stopped (fl : eth_flags) (evs : list reconnect_env) :
  stop_reconnect fl <> 0 ->
  il_net_reconnect fl evs
  = Left_loop (stop_reconnect fl, mkFlags 1 (stop_reconnect fl), evs).
Proof.
  intros Hs. unfold il_net_reconnect.
  assert (E : reconnect_loop (-1) (mkFlags 1 (stop_reconnect fl)) evs
              = Left_loop (mkFlags 1 (stop_reconnect fl), evs)).
  { destruct evs; cbn [reconnect_loop stop_reconnect];
      (destruct (Z.eqb_spec (stop_reconnect fl) 0); [contradiction|]);
      rewrite andb_false_r; reflexivity. }
  rewrite E. reflexivity.
Qed.

(** C8. In the TCP listener, over polls that stay within their objects
    (a 14-byte frame, the dispatch within the subscriber array): every
    turn goes through, a successful poll resetting the error counter and
    a failed poll adding one to it; once 10 polls in a row have failed
    the poll loop is left and [il_net_reconnect] is entered, and while no
    10 polls in a row have failed the listener stays in its poll loop;
    conversely the loop is left only so.  The reconnect loop ends at the
    first turn in which [connect] succeeds or [stop_reconnect] is set,
    and goes on while neither happens; with [stop_reconnect] set,
    [il_net_reconnect] returns at once, and whenever it returns a
    non-zero value the listener returns without another poll. *)
Theorem listener_reconnect_policy :
  (forall a st e,
     poll_well_formed e ->
     exists st' calls,
       poll_turn a st e = Some (st', calls) /\
       error_count st' = if poll_failed e then error_count st + 1 else 0) /\
  (forall k a b fl pre rest rs log,
     Forall poll_well_formed pre ->
     failures_in_a_row 0 pre = 10 ->
     (forall p q, pre = p ++ q -> q <> [] -> failures_in_a_row 0 p < 10) ->
     exists st log',
       poll_loop a (mkLst 0 b) (pre ++ rest) log
       = (Left_loop (st, rest), log') /\
       error_count st = 10 /\
       listener_eth (S k) a b fl (pre ++ rest) rs log
       = match il_net_reconnect fl rs with
         | Still_in => (In_reconnect, log')
         | Faulted => (Listener_fault, log')
         | Left_loop (r, fl', rs') =>
             if r =? 0
             then listener_eth k a (buf st) fl' rest rs' log'
             else (Returned 0, log')
         end) /\
  (forall k a b fl ps rs log,
     Forall poll_well_formed ps ->
     (forall p q, ps = p ++ q -> failures_in_a_row 0 p < 10) ->
     fst (listener_eth (S k) a b fl ps rs log) = In_poll_loop) /\
  (forall k a b fl ps rs log,
     Forall poll_well_formed ps ->
     match poll_loop a (mkLst 0 b) ps log with
     | (Left_loop (st, rest), log') =>
         (exists pre, ps = pre ++ rest /\
            failures_in_a_row 0 pre = 10 /\
            Forall (fun e => poll_failed e = true)
                   (drop (length pre - 10) pre) /\
            (forall p q, pre = p ++ q -> q <> [] ->
               failures_in_a_row 0 p < 10)) /\
         listener_eth (S k) a b fl ps rs log
         = match il_net_reconnect fl rs with
           | Still_in => (In_reconnect, log')
           | Faulted => (Listener_fault, log')
           | Left_loop (r, fl', rs') =>
               if r =? 0
               then listener_eth k a (buf st) fl' rest rs' log'
               else (Returned 0, log')
           end
     | (Still_in, log') =>
         (forall p q, ps = p ++ q -> failures_in_a_row 0 p < 10) /\
         listener_eth (S k) a b fl ps rs log = (In_poll_loop, log')
     | (Faulted, _) => False
     end) /\
  (forall fl pre e rest,
     stop_reconnect fl = 0 ->
     Forall reconnect_goes_on pre -> ~ reconnect_goes_on e ->
     exists fl',
       il_net_reconnect fl (pre ++ e :: rest)
       = Left_loop (stop_reconnect fl', fl', rest) /\
       stop_reconnect fl' = (if rc_mon_stop e then 1 else 0)) /\
  (forall fl evs,
     stop_reconnect fl = 0 -> Forall reconnect_goes_on evs ->
     il_net_reconnect fl evs = Still_in) /\
  (forall fl evs,
     stop_reconnect fl <> 0 ->
     il_net_reconnect fl evs
     = Left_loop (stop_reconnect fl, mkFlags 1 (stop_reconnect fl), evs)) /\
  (forall k a b fl ps rs log st rest log' r fl' rs',
     poll_loop a (mkLst 0 b) ps log = (Left_loop (st, rest), log') ->
     il_net_reconnect fl rs = Left_loop (r, fl', rs') -> r <> 0 ->
     listener_eth (S k) a b fl ps rs log = (Returned 0, log')).
Proof.
  assert (Hloop : forall b : Z, 0 <= error_count (mkLst 0 b) < 10)
    by (intros; cbn; lia).
  split.
  { intros a st e He.
    destruct (poll_turn_total a st e He) as [[st' calls] Et].
    exists st', calls. split; [exact Et|].
    exact (poll_turn_counter _ _ _ _ _ Et). }
  split.
  { intros k a b fl pre rest rs log Hwf Hrow Hmin.
    destruct (poll_loop_reaches a rest pre (mkLst 0 b) log (Hloop b) Hwf
                Hrow Hmin) as (st & log' & Ep & H10).
    exists st, log'. split; [exact Ep|]. split; [exact H10|].
    cbn [listener_eth]. rewrite Ep, H10. reflexivity. }
  split.
  { intros k a b fl ps rs log Hwf Hlt.
    pose proof (poll_loop_stays a ps (mkLst 0 b) log Hwf Hlt) as Es.
    cbn [listener_eth].
    destruct (poll_loop a (mkLst 0 b) ps log) as [[[st rest]| |] log'];
      cbn [fst] in Es; try discriminate Es. reflexivity. }
  split.
  { intros k a b fl ps rs log Hwf.
    pose proof (poll_loop_end a ps (mkLst 0 b) log (Hloop b)) as Hend.
    pose proof (poll_loop_no_fault a ps (mkLst 0 b) log Hwf) as Hnf.
    cbn [listener_eth].
    destruct (poll_loop a (mkLst 0 b) ps log) as [[[st rest]| |] log'];
      cbn [fst error_count] in Hend, Hnf; [| |now apply Hnf].
    - destruct Hend as (H10 & pre & -> & Hrow & Hpre). split.
      + exists pre. split; [reflexivity|]. split; [exact Hrow|].
        split; [|exact Hpre].
        pose proof (failures_in_a_row_run pre) as Hrun. cbv zeta in Hrun.
        rewrite Hrow in Hrun. exact (proj2 Hrun).
      + rewrite H10. reflexivity.
    - split; [exact Hend | reflexivity]. }
  split.
  { intros fl pre e rest Hs Hpre Hne. unfold il_net_reconnect.
    destruct (reconnect_loop_goes_on pre (e :: rest) (-1)
                (mkFlags 1 (stop_reconnect fl)))
      as (r' & Hr' & E); [lia | exact Hs | exact Hpre|].
    rewrite E.
    destruct (reconnect_loop_stops e rest r' (mkFlags 1 (stop_reconnect fl)))
      as (fl' & E' & Hs' & _); [exact Hr' | exact Hs | exact Hne|].
    rewrite E'. exists fl'. split; [reflexivity | exact Hs']. }
  split.
  { intros fl evs Hs Hevs. unfold il_net_reconnect.
    rewrite reconnect_loop_still_in; [reflexivity | lia | exact Hs | exact Hevs]. }
  split; [exact il_net_reconnect_stopped|].
  intros k a b fl ps rs log st rest log' r fl' rs' Ep Er Hr.
  pose proof (poll_loop_end a ps (mkLst 0 b) log (Hloop b)) as Hend.
  cbn [listener_eth]. rewrite Ep in *. cbn [fst] in Hend.
  destruct Hend as (H10 & _). rewrite H10, Er. cbn [Z.eqb].
  destruct (Z.eqb_spec r 0); [contradiction | reflexivity].
Qed.

End WithHeaders.

(** What a turn delivers depends on the subscriber list and on the
    address of [buf] only, not on the poll. *)
Lemma poll_turn_calls `{headers} (a : Z) (st st' : listener_st)
    (e : poll_env) (calls : list cb_call) :
  poll_turn a st e = Some (st', calls) ->
  process_statusword (pe_subs e) 1 a = Some calls.
Proof.
  unfold poll_turn. destruct (poll_io st e); [|discriminate].
  destruct (process_statusword (pe_subs e) 1 a); [|discriminate].
  intros E. injection E as _ <-. reflexivity.
Qed.

(** C6, the code at the failing inputs. With [buf] at address [0x61FE4A]
    and one subscriber for id 1: a turn whose [send] fails still calls
    the subscriber; and a turn whose read returns the statusword [0x1234]
    calls it with [0xFE4A], the low 16 bits of the address. *)
Theorem poll_turn_delivery_at_failing_inputs :
  poll_failed (H := sample_headers) failed_poll = true /\
  poll_turn (H := sample_headers) 0x61FE4A (mkLst 0 0) failed_poll
  = Some (mkLst 1 0, [mkCall 0x4010 7 0xFE4A]) /\
  poll_failed (H := sample_headers) good_poll = false /\
  poll_turn (H := sample_headers) 0x61FE4A (mkLst 0 0) good_poll
  = Some (mkLst 0 0x1234, [mkCall 0x4010 7 0xFE4A]).
Proof. repeat split; vm_compute; reflexivity. Qed.

(** Scenario S5: ten failed polls, then [stop_reconnect] is found set. *)
Example s5_reconnect_stopped :
  listener_eth (H := sample_headers) 3 0x61FE4A 0 (mkFlags 0 1)
    (replicate 10 (mkPoll (-1) s4_reply (mkSubs [] 0 0)) ++ [good_poll])
    [mkRc 0 false] []
  = (Returned 0, []).
Proof. vm_compute. reflexivity. Qed.

Lemma listener_reconnect_policy_witness :
  let pre := replicate 10 failed_poll in
  ((Forall poll_well_formed pre /\
    failures_in_a_row (H := sample_headers) 0 pre = 10 /\
    (forall p q, pre = p ++ q -> q <> [] ->
       failures_in_a_row (H := sample_headers) 0 p < 10)) /\
   exists st log',
     poll_loop (H := sample_headers) 0x61FE4A (mkLst 0 0)
       (pre ++ [good_poll]) []
     = (Left_loop (st, [good_poll]), log') /\
     error_count st = 10) /\
  ((stop_reconnect (mkFlags 0 0) = 0 /\
    Forall reconnect_goes_on [mkRc (-1) false] /\
    ~ reconnect_goes_on (mkRc (-1) true)) /\
   exists fl',
     il_net_reconnect (mkFlags 0 0)
       ([mkRc (-1) false] ++ mkRc (-1) true :: [])
     = Left_loop (stop_reconnect fl', fl', []) /\
     stop_reconnect fl' = 1).
Proof.
  intros pre.
  assert (Hw : Forall poll_well_formed pre).
  { apply Forall_replicate. split; [reflexivity | cbn; lia]. }
  assert (Hrow : failures_in_a_row (H := sample_headers) 0 pre = 10)
    by (vm_compute; reflexivity).
  assert (Hmin : forall p q, pre = p ++ q -> q <> [] ->
            failures_in_a_row (H := sample_headers) 0 p < 10).
  { intros p q E Hq.
    assert (Hlen : (length p + length q = 10)%nat).
    { rewrite <- length_app, <- E. reflexivity. }
    pose proof (failures_in_a_row_run (H := sample_headers) p) as [Hn _].
    destruct q; [contradiction | cbn [length] in Hlen; lia]. }
  assert (H1 : stop_reconnect (mkFlags 0 0) = 0) by reflexivity.
  assert (H2 : Forall reconnect_goes_on [mkRc (-1) false]).
  { repeat constructor. }
  assert (H3 : ~ reconnect_goes_on (mkRc (-1) true)).
  { intros [_ E]. discriminate E. }
  split.
  - split; [exact (conj Hw (conj Hrow Hmin))|].
    destruct (proj1 (proj2 (listener_reconnect_policy (H := sample_headers)))
                O 0x61FE4A 0 (mkFlags 0 0) pre [good_poll] [] [] Hw Hrow Hmin)
      as (st & log' & Ep & H10 & _).
    exists st, log'. split; [exact Ep | exact H10].
  - split; [exact (conj H1 (conj H2 H3))|].
    exact (proj1 (proj2 (proj2 (proj2 (proj2
             (listener_reconnect_policy (H := sample_headers))))))
             (mkFlags 0 0) [mkRc (-1) false] (mkRc (-1) true) [] H1 H2 H3).
Defined.

End ListenerFacts.

(** *** The serial session engine *)

Module SerialFacts.
Import Serial.

Lemma store_bytes_below (data : list Z) : forall (m : gmap Z Z) (dst a : Z),
  a < dst -> store_bytes m dst data !! a = m !! a.
Proof.
  induction data as [|b data IH]; intros m dst a Ha; [reflexivity|].
  cbn [store_bytes]. rewrite IH by lia. apply lookup_insert_ne. lia.
Qed.

Lemma store_bytes_above (data : list Z) : forall (m : gmap Z Z) (dst a : Z),
  dst + Z.of_nat (length data) <= a -> store_bytes m dst data !! a = m !! a.
Proof.
  induction data as [|b data IH]; intros m dst a Ha; [reflexivity|].
  cbn [store_bytes length] in *. rewrite IH by lia.
  apply lookup_insert_ne. lia.
Qed.

Lemma store_bytes_at (data : list Z) : forall (m : gmap Z Z) (dst : Z)
    (i : nat) (b : Z),
  data !! i = Some b -> store_bytes m dst data !! (dst + Z.of_nat i) = Some b.
Proof.
  induction data as [|b0 data IH]; intros m dst i b Hi; [discriminate Hi|].
  cbn [store_bytes]. destruct i as [|i].
  - injection Hi as ->. rewrite Z.add_0_r.
    rewrite store_bytes_below by lia. apply lookup_insert_eq.
  - replace (dst + Z.of_nat (S i)) with (dst + 1 + Z.of_nat i) by lia.
    apply IH. exact Hi.
Qed.

Lemma slot_accepts_dec (s : sync_t) (f : il_frame_t) :
  slot_accepts s f <->
  (sync_complete s =? 0) &&
  (((sync_id s =? il_frame__get_id f) || (sync_id s =? 0))
   && (sync_idx s =? il_frame__get_idx f)
   && (sync_sidx s =? il_frame__get_sidx f)
   && (sync_sz s >=? il_frame__get_sz f)) = true.
Proof.
  unfold slot_accepts, il_frame__get_id, il_frame__get_idx, il_frame__get_sidx.
  rewrite !andb_true_iff, orb_true_iff, !Z.eqb_eq, Z.geb_le. intuition lia.
Qed.

Section WithHeaders.
Context `{H : headers}.

Lemma process_sync_accept (s : sync_t) (m : memory) (f : il_frame_t) :
  slot_accepts s f ->
  process_sync s m f
  = (set_complete s 1,
     mkMem (store_bytes (mem_bytes m) (sync_buf s) (frame_data f))
           (if sync_recvd s =? 0 then mem_sizes m
            else <[sync_recvd s := il_frame__get_sz f]> (mem_sizes m)),
     true).
Proof.
  intros Ha. apply slot_accepts_dec in Ha.
  apply andb_true_iff in Ha. destruct Ha as [Hc Hm].
  unfold process_sync. rewrite Hc, Hm. reflexivity.
Qed.

Lemma process_sync_reject (s : sync_t) (m : memory) (f : il_frame_t) :
  ~ slot_accepts s f -> process_sync s m f = (s, m, false).
Proof.
  intros Hn. rewrite slot_accepts_dec in Hn.
  unfold process_sync.
  destruct (sync_complete s =? 0); [|reflexivity].
  cbn [andb] in Hn.
  destruct (_ && _); [exfalso; apply Hn; reflexivity | reflexivity].
Qed.

Lemma slot_accepts_decidable (s : sync_t) (f : il_frame_t) :
  slot_accepts s f \/ ~ slot_accepts s f.
Proof.
  rewrite slot_accepts_dec. destruct (_ && _); [left | right]; congruence.
Qed.

(** A complete slot takes no frame. *)
Lemma listener_sync_complete (fs : list il_frame_t) (s : sync_t)
    (m : memory) :
  sync_complete s <> 0 -> listener_sync s m fs = (s, m, O).
Proof.
  intros Hc. induction fs as [|f fs IH]; [reflexivity|].
  cbn [listener_sync]. rewrite process_sync_reject.
  - rewrite IH. reflexivity.
  - intros (E & _). contradiction.
Qed.

Lemma listener_sync_once (fs : list il_frame_t) : forall (s : sync_t)
    (m : memory),
  (snd (listener_sync s m fs) <= 1)%nat.
Proof.
  induction fs as [|f fs IH]; intros s m; [cbn; lia|].
  cbn [listener_sync].
  destruct (slot_accepts_decidable s f) as [Ha|Hn].
  - rewrite process_sync_accept by exact Ha.
    rewrite listener_sync_complete by (cbn; lia). cbn. lia.
  - rewrite process_sync_reject by exact Hn.
    specialize (IH s m). destruct (listener_sync s m fs) as [[s2 m2] n].
    exact IH.
Qed.

(** The listener never moves the buffer pointer of the slot. *)
Lemma listener_sync_buf (fs : list il_frame_t) : forall (s : sync_t)
    (m : memory),
  sync_buf (fst (fst (listener_sync s m fs))) = sync_buf s.
Proof.
  induction fs as [|f fs IH]; intros s m; [reflexivity|].
  cbn [listener_sync].
  destruct (slot_accepts_decidable s f) as [Ha|Hn].
  - rewrite process_sync_accept by exact Ha.
    rewrite listener_sync_complete by (cbn; lia). reflexivity.
  - rewrite process_sync_reject by exact Hn.
    specialize (IH s m). destruct (listener_sync s m fs) as [[s2 m2] n].
    exact IH.
Qed.

(** C3. [process_sync] copies the payload of a decoded frame into the
    buffer of the slot, records the size through [recvd] (when that
    pointer is given), sets [complete = 1] and signals the condition
    variable exactly when the slot is not complete, the slot's id is the
    frame's or 0, index and sub-index agree and the slot's size is at
    least the frame's; otherwise it changes nothing.  A complete slot
    takes no further frame, so over any run of frames at most one
    signal is given. *)
Theorem process_sync_first_writer_wins :
  (forall (s : sync_t) (m : memory) (f : il_frame_t),
     let r := process_sync s m f in
     (snd r = true <-> slot_accepts s f) /\
     (slot_accepts s f ->
        fst (fst r) = set_complete s 1 /\
        sync_complete (fst (fst r)) = 1 /\
        (forall (i : nat) (b : Z), frame_data f !! i = Some b ->
           mem_bytes (snd (fst r)) !! (sync_buf s + Z.of_nat i) = Some b) /\
        (forall a : Z,
           a < sync_buf s \/ sync_buf s + il_frame__get_sz f <= a ->
           mem_bytes (snd (fst r)) !! a = mem_bytes m !! a) /\
        (sync_recvd s <> 0 ->
           mem_sizes (snd (fst r))
           = <[sync_recvd s := il_frame__get_sz f]> (mem_sizes m)) /\
        (sync_recvd s = 0 -> mem_sizes (snd (fst r)) = mem_sizes m)) /\
     (~ slot_accepts s f -> r = (s, m, false))) /\
  (forall (s : sync_t) (m : memory) (fs : list il_frame_t),
     sync_complete s <> 0 -> listener_sync s m fs = (s, m, O)) /\
  (forall (s : sync_t) (m : memory) (fs : list il_frame_t),
     (snd (listener_sync s m fs) <= 1)%nat).
Proof.
  split; [|split; [intros; now apply listener_sync_complete
                  | intros; apply listener_sync_once]].
  intros s m f r. subst r.
  destruct (slot_accepts_decidable s f) as [Ha|Hn].
  - rewrite process_sync_accept by exact Ha. cbn [fst snd mem_bytes mem_sizes].
    split; [tauto|]. split; [|tauto]. intros _.
    split; [reflexivity|]. split; [reflexivity|].
    split; [intros i b Hi; now apply store_bytes_at|].
    split.
    { intros a [Hlo|Hhi]; [now apply store_bytes_below|].
      apply store_bytes_above. exact Hhi. }
    split; intros Hr.
    + destruct (Z.eqb_spec (sync_recvd s) 0); [contradiction | reflexivity].
    + rewrite Hr. reflexivity.
  - rewrite process_sync_reject by exact Hn. cbn [fst snd].
    split; [split; [discriminate | contradiction]|].
    split; [contradiction | reflexivity].
Qed.

(** C10. On every return path of [il_net__read] past the state check
    (the send failed, a response arrived, the wait timed out or failed)
    the slot is left with [complete = 1], so whatever frames the
    listener handles after the call, [process_sync] takes none of them:
    the slot and the memory, the caller's buffer included, stay as
    they were on return, and no signal is given. *)
Theorem il_net__read_closes_slot (net : il_net_t) (m : memory)
    (id idx sidx buf sz recvd timeout : Z) (env : read_env) :
  state net = IL_NET_STATE_OPERATIVE ->
  let r := il_net__read net m id idx sidx buf sz recvd timeout env in
  let net' := fst (fst r) in
  let m' := snd (fst r) in
  sync_complete (sync net') = 1 /\
  sync_buf (sync net') = buf /\
  forall later : list il_frame_t,
    listener_sync (sync net') m' later = (sync net', m', O).
Proof.
  intros Hst r net' m'.
  assert (Hc : sync_complete (sync net') = 1 /\ sync_buf (sync net') = buf).
  { subst net' r. unfold il_net__read. rewrite Hst. cbn [state_is_operative negb].
    destruct (re_write env <? 0); [split; reflexivity|].
    destruct (listener_sync _ m (re_gap env)) as [[s1 m1] n1] eqn:E1.
    assert (Hb1 : sync_buf s1 = buf).
    { pose proof (listener_sync_buf (re_gap env) (mkSync id idx sidx buf sz recvd 0) m) as Hb.
      rewrite E1 in Hb. exact Hb. }
    destruct (sync_complete s1 =? 0).
    - destruct (listener_sync s1 m1 (re_waiting env)) as [[s2 m2] n2] eqn:E2.
      pose proof (listener_sync_buf (re_waiting env) s1 m1) as Hb.
      rewrite E2 in Hb. cbn [fst] in Hb.
      cbn. split; [reflexivity | congruence].
    - cbn. split; [reflexivity | exact Hb1]. }
  destruct Hc as [Hc Hb]. split; [exact Hc|]. split; [exact Hb|].
  intros later. apply listener_sync_complete. rewrite Hc. discriminate.
Qed.

End WithHeaders.

Lemma process_sync_first_writer_wins_witness :
  let s := mkSync 1 0x6041 0 1000 2 2000 0 in
  let f := mkFrame 1 0x6041 0 [0x34; 0x12] in
  let m := mkMem ∅ ∅ in
  slot_accepts s f /\
  mem_bytes (snd (fst (process_sync s m f))) !! (1000 + Z.of_nat 1) = Some 0x12.
Proof.
  intros s f m.
  assert (Ha : slot_accepts s f).
  { unfold slot_accepts, il_frame__get_sz. cbn. lia. }
  split; [exact Ha|].
  destruct (proj1 process_sync_first_writer_wins s m f)
    as (_ & Hacc & _).
  destruct (Hacc Ha) as (_ & _ & Hbytes & _).
  apply (Hbytes 1%nat 0x12). reflexivity.
Defined.

Lemma il_net__read_closes_slot_witness :
  let net := mkNet IL_NET_STATE_OPERATIVE (mkSync 0 0 0 0 0 0 1) one_subscriber in
  let env := mkReadEnv 5 [] [mkFrame 1 0x6041 0 [0x34; 0x12]] OSAL_ETIMEDOUT in
  let r := il_net__read net (mkMem ∅ ∅) 1 0x6041 0 1000 2 0 100 env in
  state net = IL_NET_STATE_OPERATIVE /\
  sync_complete (sync (fst (fst r))) = 1 /\
  listener_sync (sync (fst (fst r))) (snd (fst r))
    [mkFrame 1 0x6041 0 [0x99; 0x99]]
  = (sync (fst (fst r)), snd (fst r), O).
Proof.
  intros net env r.
  assert (Hs : state net = IL_NET_STATE_OPERATIVE) by reflexivity.
  split; [exact Hs|].
  destruct (il_net__read_closes_slot net (mkMem ∅ ∅)
              1 0x6041 0 1000 2 0 100 env Hs) as (Hc & _ & Hl).
  split; [exact Hc | apply Hl].
Defined.

(** *** The subscriber array *)

Section Subscribe.
Context `{H : headers}.

(** With the array full and no memory, the call fails with [IL_ENOMEM]
    and leaves the list as it was. *)
Lemma sw_subscribe_nomem (sl : sw_subs_t) (id cb ctx : Z)
    (fill : sw_subscriber) :
  cnt sl = sz sl ->
  il_net__sw_subscribe sl id cb ctx false fill = Sub_nomem sl msg_realloc.
Proof.
  intros E. unfold il_net__sw_subscribe. rewrite E, Z.eqb_refl. reflexivity.
Qed.

(** With room left, the entry goes to index [cnt] and [cnt] grows by
    one. *)
Lemma sw_subscribe_room (sl : sw_subs_t) (id cb ctx : Z) (ok : bool)
    (fill : sw_subscriber) :
  cnt sl <> sz sl -> 0 <= cnt sl < Z.of_nat (length (subs sl)) ->
  il_net__sw_subscribe sl id cb ctx ok fill
  = Subscribed (mkSubs (<[Z.to_nat (cnt sl) := mkSub id cb ctx]> (subs sl))
                       (cnt sl + 1) (sz sl)).
Proof.
  intros Hne Hr. unfold il_net__sw_subscribe.
  destruct (Z.eqb_spec (cnt sl) (sz sl)); [contradiction|].
  destruct (Z.leb_spec 0 (cnt sl)); [|lia].
  destruct (Z.ltb_spec (cnt sl) (Z.of_nat (length (subs sl)))); [|lia].
  reflexivity.
Qed.

(** When the array grows, the byte count of the new block is what is
    stored in [sz]. *)
Lemma sw_subscribe_grow_sz (sl sl' : sw_subs_t) (id cb ctx : Z)
    (fill : sw_subscriber) :
  cnt sl = sz sl ->
  il_net__sw_subscribe sl id cb ctx true fill = Subscribed sl' ->
  sz sl' = 2 * sz sl * sizeof_subscriber /\ cnt sl' = cnt sl + 1.
Proof.
  intros E. unfold il_net__sw_subscribe. rewrite E, Z.eqb_refl.
  cbn [cnt subs sz]. destruct (_ && _); [|discriminate].
  intros E'. injection E' as <-. split; reflexivity.
Qed.

End Subscribe.

(** C5, the code at the failing input. With [SW_SUBS_SZ_DEF = 2] and
    24-byte entries, the list [il_net_create] sets up holds 2 entries; the
    third [il_net__sw_subscribe] reallocates to 4 entries but stores the
    byte count 96 in [sz]; the fifth finds [cnt = 4 <> sz = 96], does not
    reallocate, and stores past the block. *)
Theorem sw_subscribe_growth_at_failing_input :
  let fill := mkSub 0 0 0 in
  let reg0 := il_net_create_sw_subs (H := sample_headers) fill in
  let s1 := mkSub 1 0x4010 7 in
  let s2 := mkSub 2 0x4020 8 in
  reg0 = mkSubs [fill; fill] 0 2 /\
  subscribe_all (H := sample_headers) reg0 [s1; s2] fill
  = Subscribed (mkSubs [s1; s2] 2 2) /\
  subscribe_all (H := sample_headers) reg0 [s1; s2; s1] fill
  = Subscribed (mkSubs [s1; s2; s1; fill] 3 96) /\
  subscribe_all (H := sample_headers) reg0 [s1; s2; s1; s2] fill
  = Subscribed (mkSubs [s1; s2; s1; s2] 4 96) /\
  subscribe_all (H := sample_headers) reg0 [s1; s2; s1; s2; s1] fill
  = Sub_overrun.
Proof. repeat split; vm_compute; reflexivity. Qed.

End SerialFacts.

(** *** The register labels *)

Module LabelsFacts.
Import Labels.

(** C9 (as amended). [il_reg_labels_get] returns success with the stored
    string when the language is present; when it is absent it returns the
    general failure [IL_EFAIL], stores nothing, and sets the last error to
    "Language not available" with the language. *)
Theorem il_reg_labels_get_outcome (labels : il_reg_labels_t) (lang : string) :
  (forall v, h labels !! lang = Some v ->
     il_reg_labels_get labels lang = (IL_OK, Some v, None)) /\
  (h labels !! lang = None ->
     il_reg_labels_get labels lang
     = (IL_ERR IL_EFAIL, None, Some (msg_no_lang lang)) /\
     kind_of IL_EFAIL = ErrFail).
Proof.
  unfold il_reg_labels_get. split.
  - intros v ->. reflexivity.
  - intros ->. split; reflexivity.
Qed.

Lemma il_reg_labels_get_outcome_witness :
  h s6_labels !! "en"%string = Some "Speed"%string /\
  il_reg_labels_get s6_labels "en" = (IL_OK, Some "Speed"%string, None).
Proof.
  assert (E : h s6_labels !! "en"%string = Some "Speed"%string).
  { unfold s6_labels, il_reg_labels_set, il_reg_labels_create. cbn [h].
    apply lookup_insert_eq. }
  split; [exact E|].
  exact (proj1 (il_reg_labels_get_outcome s6_labels "en") "Speed"%string E).
Defined.

(** The failure for a missing language is not of the kind
    [ErrUnknownLang]: no code of the library is. *)
Lemma labels_get_missing_is_general_failure :
  exists e, fst (fst (il_reg_labels_get s6_labels "fr")) = IL_ERR e /\
            kind_of e <> ErrUnknownLang.
Proof.
  exists IL_EFAIL. split; [|discriminate].
  unfold il_reg_labels_get, s6_labels, il_reg_labels_set, il_reg_labels_create.
  cbn [h]. rewrite lookup_insert_ne by discriminate.
  rewrite lookup_empty. reflexivity.
Qed.

Lemma no_code_is_unknown_lang (e : il_err) : kind_of e <> ErrUnknownLang.
Proof. destruct e; discriminate. Qed.

End LabelsFacts.

(** *** Statusword dispatch, both profiles *)

Module DispatchFacts.

Lemma sw_each_matching `{headers} (n : nat) :
  forall (i : nat) (arr : list sw_subscriber) (id sw : Z),
    (i + n <= length arr)%nat ->
    Serial.sw_each n i arr id sw
    = Some (map (call_of sw) (matching id (take n (drop i arr)))).
Proof.
  induction n as [|k IH]; intros i arr id sw Hlen.
  - cbn [Serial.sw_each]. rewrite take_0. reflexivity.
  - cbn [Serial.sw_each].
    destruct (lookup_lt_is_Some_2 arr i) as [s Hs]; [lia|].
    rewrite Hs, (IH (S i)) by lia.
    rewrite (drop_S arr s i Hs). cbn [take]. unfold matching.
    cbn [List.filter]. destruct (sub_id s =? id); reflexivity.
Qed.

Lemma sw_scan_first `{headers} (n : nat) :
  forall (i : nat) (arr : list sw_subscriber) (id sw : Z),
    (i + n <= length arr)%nat ->
    Eth.sw_scan n i arr id sw
    = Some (match first_callable id (take n (drop i arr)) with
            | Some s => [call_of sw s]
            | None => []
            end).
Proof.
  induction n as [|k IH]; intros i arr id sw Hlen.
  - cbn [Eth.sw_scan]. rewrite take_0. reflexivity.
  - cbn [Eth.sw_scan].
    destruct (lookup_lt_is_Some_2 arr i) as [s Hs]; [lia|].
    rewrite Hs, (drop_S arr s i Hs). cbn [take]. unfold first_callable.
    cbn [List.find]. destruct ((sub_id s =? id) && negb (sub_cb s =? 0)).
    + reflexivity.
    + apply IH. lia.
Qed.

Lemma matching_all_called (id sw : Z) (entries : list sw_subscriber) :
  every_match_called id entries (map (call_of sw) (matching id entries)).
Proof.
  intros s Hin Hid. exists (call_of sw s).
  split; [|split; reflexivity].
  apply in_map. unfold matching. apply filter_In.
  split; [exact Hin | now apply Z.eqb_eq].
Qed.

(** C4 (as amended). On the serial profile, a response at the statusword
    index and sub-index is delivered to every subscriber among the [cnt]
    entries whose id is the frame's, each called once, in array order,
    with the 16-bit statusword of the frame.  On the TCP profile the
    dispatch for an id makes at most one call, to the first of the [sz]
    slots that has the id and a callback; later entries with the same id
    are not called. *)
Theorem statusword_dispatch `{headers} :
  (forall (net : Serial.il_net_t) (frame : Serial.il_frame_t),
     Serial.frame_idx frame = STATUSWORD_IDX ->
     Serial.frame_sidx frame = STATUSWORD_SIDX ->
     0 <= cnt (Serial.sw_subs net)
       <= Z.of_nat (length (subs (Serial.sw_subs net))) ->
     let entries :=
       take (Z.to_nat (cnt (Serial.sw_subs net))) (subs (Serial.sw_subs net)) in
     let sw := swap_16 (Serial.load_u16 (Serial.frame_data frame)) in
     let calls := map (call_of sw) (matching (Serial.frame_id frame) entries) in
     Serial.process_statusword net frame = Some calls /\
     every_match_called (Serial.frame_id frame) entries calls) /\
  (forall (sl : sw_subs_t) (subnode data : Z),
     0 <= sz sl <= Z.of_nat (length (subs sl)) ->
     exists calls,
       Eth.process_statusword sl subnode data = Some calls /\
       map call_target calls
       = match first_callable (wrap8 subnode)
                 (take (Z.to_nat (sz sl)) (subs sl)) with
         | Some s => [(sub_cb s, sub_ctx s)]
         | None => []
         end /\
       (length calls <= 1)%nat).
Proof.
  split.
  - intros net frame Hidx Hsidx Hcnt entries sw calls.
    split; [|apply matching_all_called].
    unfold Serial.process_statusword, Serial.il_frame__get_idx,
      Serial.il_frame__get_sidx, Serial.il_frame__get_id,
      Serial.il_frame__get_data.
    rewrite Hidx, Hsidx, !Z.eqb_refl. cbn [andb].
    rewrite sw_each_matching by lia. rewrite drop_0. reflexivity.
  - intros sl subnode data Hsz. unfold Eth.process_statusword.
    rewrite sw_scan_first by lia. rewrite drop_0.
    eexists. split; [reflexivity|].
    destruct (first_callable _ _); split; cbn; try reflexivity; lia.
Qed.

Lemma statusword_dispatch_witness :
  (0 <= sz two_subscribers <= Z.of_nat (length (subs two_subscribers))) /\
  exists calls,
    Eth.process_statusword two_subscribers 1 0x61FE4A = Some calls /\
    map call_target calls = [(0x4010, 7)].
Proof.
  assert (Hs : 0 <= sz two_subscribers
               <= Z.of_nat (length (subs two_subscribers))) by (cbn; lia).
  split; [exact Hs|].
  destruct (proj2 (statusword_dispatch (H := sample_headers))
              two_subscribers 1 0x61FE4A Hs) as (calls & E & Ht & _).
  exists calls. split; [exact E | exact Ht].
Defined.

(** On the TCP profile a second subscriber with the same id is not
    called. *)
Lemma tcp_dispatch_stops_at_first_match :
  exists calls,
    Eth.process_statusword two_subscribers 1 0x61FE4A = Some calls /\
    ~ every_match_called 1 (subs two_subscribers) calls.
Proof.
  exists [mkCall 0x4010 7 0xFE4A]. split; [vm_compute; reflexivity|].
  intros Hall.
  destruct (Hall (mkSub 1 0x4020 8)) as (c & Hin & Hcb & _).
  - cbn. right. left. reflexivity.
  - reflexivity.
  - destruct Hin as [<-|[]]. cbn in Hcb. discriminate Hcb.
Qed.

End DispatchFacts.

(** *** More on the register labels *)

Module RegistersFacts.
Import Labels Registers.

(** X1. A label stored with [il_reg_labels_set] is what
    [il_reg_labels_get] returns for that language afterwards, whether or
    not the language was there before, and the answer for every other
    language is unchanged. *)
Theorem labels_set_then_get (labels : il_reg_labels_t) (lang label : string) :
  il_reg_labels_get (il_reg_labels_set labels lang label) lang
  = (IL_OK, Some label, None) /\
  forall other : string, other <> lang ->
    il_reg_labels_get (il_reg_labels_set labels lang label) other
    = il_reg_labels_get labels other.
Proof.
  unfold il_reg_labels_get, il_reg_labels_set. cbn [h]. split.
  - rewrite lookup_insert_eq. reflexivity.
  - intros other Hne. rewrite lookup_insert_ne by congruence. reflexivity.
Qed.

Lemma labels_set_then_get_witness :
  "fr"%string <> "en"%string /\
  il_reg_labels_get (il_reg_labels_set s6_labels "en" "Velocity") "fr"
  = il_reg_labels_get s6_labels "fr".
Proof.
  assert (Hne : "fr"%string <> "en"%string) by discriminate.
  split; [exact Hne|].
  exact (proj2 (labels_set_then_get s6_labels "en" "Velocity") "fr"%string Hne).
Defined.

(** X2. After [il_reg_labels_del] the language is unknown:
    [il_reg_labels_get] fails with [IL_EFAIL]; every other language answers
    as before; and deleting a language that is not there changes
    nothing. *)
Theorem labels_del_then_get (labels : il_reg_labels_t) (lang : string) :
  il_reg_labels_get (il_reg_labels_del labels lang) lang
  = (IL_ERR IL_EFAIL, None, Some (msg_no_lang lang)) /\
  (forall other : string, other <> lang ->
     il_reg_labels_get (il_reg_labels_del labels lang) other
     = il_reg_labels_get labels other) /\
  (h labels !! lang = None -> il_reg_labels_del labels lang = labels).
Proof.
  unfold il_reg_labels_get, il_reg_labels_del.
  destruct (h labels !! lang) as [v|] eqn:E; cbn [h].
  - split; [rewrite lookup_delete_eq; reflexivity|].
    split; [|discriminate].
    intros other Hne. rewrite lookup_delete_ne by congruence. reflexivity.
  - split; [rewrite E; reflexivity|]. split; [reflexivity | reflexivity].
Qed.

Lemma labels_del_then_get_witness :
  h s6_labels !! "fr"%string = None /\
  il_reg_labels_del s6_labels "fr" = s6_labels.
Proof.
  assert (E : h s6_labels !! "fr"%string = None).
  { unfold s6_labels, il_reg_labels_set, il_reg_labels_create. cbn [h].
    rewrite lookup_insert_ne by discriminate. apply lookup_empty. }
  split; [exact E|].
  exact (proj2 (proj2 (labels_del_then_get s6_labels "fr")) E).
Defined.

(** X3. The label count: a fresh table has none; storing a label for a
    new language adds one and storing one for a known language leaves the
    count; deleting a known language takes one off. *)
Theorem labels_count (labels : il_reg_labels_t) (lang label : string) :
  (forall t, il_reg_labels_create_alloc true true = (Some t, None) ->
     il_reg_labels_nlabels_get t = 0) /\
  (h labels !! lang = None ->
     il_reg_labels_nlabels_get (il_reg_labels_set labels lang label)
     = il_reg_labels_nlabels_get labels + 1) /\
  (is_Some (h labels !! lang) ->
     il_reg_labels_nlabels_get (il_reg_labels_set labels lang label)
     = il_reg_labels_nlabels_get labels /\
     il_reg_labels_nlabels_get (il_reg_labels_del labels lang)
     = il_reg_labels_nlabels_get labels - 1).
Proof.
  unfold il_reg_labels_nlabels_get, il_reg_labels_set, il_reg_labels_del.
  split; [|split].
  - intros t E. injection E as <-. cbn [h]. rewrite map_size_empty. reflexivity.
  - intros E. cbn [h]. rewrite map_size_insert_None by exact E. lia.
  - intros [v E]. rewrite E. cbn [h]. split.
    + rewrite map_size_insert_Some by eauto. reflexivity.
    + rewrite map_size_delete_Some by eauto.
      assert (size (h labels) <> 0%nat).
      { intros Hz. apply map_size_empty_inv in Hz. rewrite Hz in E.
        rewrite lookup_empty in E. discriminate E. }
      lia.
Qed.

Lemma labels_count_witness :
  is_Some (h s6_labels !! "en"%string) /\
  il_reg_labels_nlabels_get (il_reg_labels_del s6_labels "en")
  = il_reg_labels_nlabels_get s6_labels - 1.
Proof.
  assert (E : is_Some (h s6_labels !! "en"%string)).
  { exists "Speed"%string. unfold s6_labels, il_reg_labels_set,
      il_reg_labels_create. cbn [h]. apply lookup_insert_eq. }
  split; [exact E|].
  exact (proj2 (proj2 (proj2 (labels_count s6_labels "en" "x")) E)).
Defined.

Lemma until_null_keys (ks : list string) :
  until_null (map Some ks ++ [None]) = ks.
Proof. induction ks as [|k ks IH]; cbn; [reflexivity | now rewrite IH]. Qed.

(** X4. The array [il_reg_labels_langs_get] returns holds one entry per
    label and then [NULL]; the entries a caller walks up to the [NULL] are,
    without repetition, exactly the languages for which
    [il_reg_labels_get] succeeds.  When the allocation fails the result is
    [NULL]. *)
Theorem labels_langs_listing (labels : il_reg_labels_t) :
  il_reg_labels_langs_get labels false = (None, Some msg_langs_alloc) /\
  exists langs,
    il_reg_labels_langs_get labels true = (Some langs, None) /\
    Z.of_nat (length langs) = il_reg_labels_nlabels_get labels + 1 /\
    last langs = Some None /\
    NoDup (until_null langs) /\
    forall lang : string,
      In lang (until_null langs) <->
      fst (fst (il_reg_labels_get labels lang)) = IL_OK.
Proof.
  split; [reflexivity|]. unfold il_reg_labels_langs_get.
  eexists. split; [reflexivity|].
  rewrite until_null_keys. split.
  { rewrite length_app, !length_map, length_map_to_list.
    unfold il_reg_labels_nlabels_get. cbn [length]. lia. }
  split; [apply last_snoc|]. split.
  { exact (NoDup_fst_map_to_list (h labels)). }
  intros lang. unfold il_reg_labels_get. rewrite <- list_elem_of_In.
  rewrite list_elem_of_fmap. split.
  - intros ([k v] & -> & Hin). apply elem_of_map_to_list in Hin.
    cbn [fst]. rewrite Hin. reflexivity.
  - destruct (h labels !! lang) as [v|] eqn:E; [|discriminate].
    intros _. exists (lang, v). split; [reflexivity|].
    apply elem_of_map_to_list. exact E.
Qed.

End RegistersFacts.

(** *** Unsubscribing, and subscribing again *)

Module SubscribersFacts.
Import Subscribers.

(** The scan from index [i]: entries [i ..] up to the first with the id. *)
Lemma unsub_scan_first (n : nat) : forall (i : nat) (sl : sw_subs_t) (id : Z)
    (pre : list sw_subscriber) (x : sw_subscriber),
  (i + n <= length (subs sl))%nat ->
  take (length pre) (drop i (subs sl)) = pre ->
  (length pre < n)%nat ->
  drop i (subs sl) !! length pre = Some x ->
  sub_id x = id ->
  Forall (fun s => sub_id s <> id) pre ->
  unsub_scan n i sl id
  = match subs sl !! Z.to_nat (cnt sl - 1) with
    | None => None
    | Some last_one =>
        Some (mkSubs (<[(i + length pre)%nat := last_one]> (subs sl))
                     (cnt sl - 1) (sz sl))
    end.
Proof.
  induction n as [|k IH]; intros i sl id pre x Hlen Hpre Hn Hx Hid Hno; [lia|].
  cbn [unsub_scan].
  destruct (lookup_lt_is_Some_2 (subs sl) i) as [s Hs]; [lia|].
  rewrite Hs. rewrite (drop_S _ _ _ Hs) in Hpre, Hx.
  destruct pre as [|p pre].
  - cbn in Hx. injection Hx as ->. rewrite Hid, Z.eqb_refl.
    cbn [length]. rewrite Nat.add_0_r. reflexivity.
  - cbn [length take] in Hpre. injection Hpre as -> Hpre.
    apply Forall_cons in Hno. destruct Hno as [Hp Hno].
    destruct (Z.eqb_spec (sub_id p) id); [contradiction|].
    cbn [length] in *. cbn in Hx.
    rewrite (IH (S i) sl id pre x); [|lia|exact Hpre|lia|exact Hx|exact Hid|exact Hno].
    replace (S i + length pre)%nat with (i + S (length pre))%nat by lia.
    reflexivity.
Qed.

Lemma unsub_scan_none (n : nat) : forall (i : nat) (sl : sw_subs_t) (id : Z),
  (i + n <= length (subs sl))%nat ->
  Forall (fun s => sub_id s <> id) (take n (drop i (subs sl))) ->
  unsub_scan n i sl id = Some sl.
Proof.
  induction n as [|k IH]; intros i sl id Hlen Hno; [reflexivity|].
  cbn [unsub_scan].
  destruct (lookup_lt_is_Some_2 (subs sl) i) as [s Hs]; [lia|].
  rewrite Hs. rewrite (drop_S _ _ _ Hs) in Hno. cbn [take] in Hno.
  apply Forall_cons in Hno. destruct Hno as [Hp Hno].
  destruct (Z.eqb_spec (sub_id s) id); [contradiction|].
  apply IH; [lia | exact Hno].
Qed.

Lemma move_last_snoc (t : list sw_subscriber) (i : nat)
    (x y : sw_subscriber) :
  (t ++ [y]) !! i = Some x ->
  x :: take (length t) (<[i := y]> (t ++ [y])) ≡ₚ t ++ [y].
Proof.
  intros Hx.
  assert (Hi : (i < length (t ++ [y]))%nat) by (apply lookup_lt_Some in Hx; exact Hx).
  rewrite length_app in Hi. cbn [length] in Hi.
  destruct (decide (i = length t)) as [->|Hne].
  - rewrite take_insert_ge by lia. rewrite take_app_length.
    rewrite lookup_app_r, Nat.sub_diag in Hx by lia. injection Hx as ->.
    apply Permutation_cons_append.
  - rewrite lookup_app_l in Hx by lia.
    rewrite insert_app_l by lia.
    rewrite take_app_length' by (rewrite length_insert; reflexivity).
    rewrite insert_take_drop by lia.
    rewrite <- (take_drop_middle t i x Hx) at 3.
    solve_Permutation.
Qed.

(** Moving the last of [l] over position [i] and dropping the last place
    leaves the other entries, up to order. *)
Lemma move_last_Permutation (l : list sw_subscriber) (i : nat)
    (x y : sw_subscriber) :
  l !! i = Some x -> l !! (length l - 1)%nat = Some y ->
  x :: take (length l - 1) (<[i := y]> l) ≡ₚ l.
Proof.
  intros Hx Hy.
  assert (Hpos : (0 < length l)%nat).
  { apply lookup_lt_Some in Hx. lia. }
  assert (Hl : l = take (length l - 1) l ++ [y]).
  { rewrite <- (take_drop (length l - 1) l) at 1. f_equal.
    rewrite (drop_S _ _ _ Hy). rewrite drop_ge by lia. reflexivity. }
  remember (take (length l - 1) l) as t eqn:Et.
  assert (Ht : length t = (length l - 1)%nat).
  { rewrite Et, length_take. lia. }
  rewrite <- Ht. clear Et Ht Hy Hpos. subst l.
  apply move_last_snoc. exact Hx.
Qed.

(** The list after the first entry with the id is found. *)
Lemma unsubscribe_first_shape (sl : sw_subs_t) (id : Z)
    (pre : list sw_subscriber) (x : sw_subscriber) (post : list sw_subscriber) :
  0 <= cnt sl <= Z.of_nat (length (subs sl)) ->
  live sl = pre ++ x :: post -> sub_id x = id ->
  Forall (fun s => sub_id s <> id) pre ->
  exists y,
    subs sl !! Z.to_nat (cnt sl - 1) = Some y /\
    Z.to_nat (cnt sl) = (length pre + S (length post))%nat /\
    subs sl !! length pre = Some x /\
    il_net__sw_unsubscribe sl id
    = Some (mkSubs (<[length pre := y]> (subs sl)) (cnt sl - 1) (sz sl)).
Proof.
  intros Hwf Hlive Hid Hno. unfold il_net__sw_unsubscribe, live in *.
  assert (Hlen : length (take (Z.to_nat (cnt sl)) (subs sl))
                 = Z.to_nat (cnt sl)) by (rewrite length_take; lia).
  assert (Hcnt : Z.to_nat (cnt sl) = (length pre + S (length post))%nat).
  { rewrite <- Hlen, Hlive, length_app. reflexivity. }
  assert (Hxl : take (Z.to_nat (cnt sl)) (subs sl) !! length pre = Some x).
  { rewrite Hlive. rewrite lookup_app_r by lia.
    rewrite Nat.sub_diag. reflexivity. }
  assert (Hxs : subs sl !! length pre = Some x).
  { rewrite lookup_take_lt in Hxl by lia. exact Hxl. }
  destruct (lookup_lt_is_Some_2 (subs sl) (Z.to_nat (cnt sl - 1)))
    as [y Hy]; [lia|].
  exists y. split; [exact Hy|]. split; [exact Hcnt|]. split; [exact Hxs|].
  rewrite (unsub_scan_first _ 0 sl id pre x);
    [|lia| |lia|rewrite drop_0; exact Hxs|exact Hid|exact Hno].
  2:{ rewrite drop_0.
      replace (length pre) with (Nat.min (length pre) (Z.to_nat (cnt sl)))
        at 1 by lia.
      rewrite <- take_take, Hlive. rewrite take_app_length. reflexivity. }
  rewrite Hy. reflexivity.
Qed.

(** X5. [il_net__sw_unsubscribe] on a list whose [cnt] entries lie within
    the array: when no entry in use has the id, the list is unchanged; when
    [x] is the first entry in use with the id, the count drops by one, the
    capacity field stays, the entries before [x] keep their places, and the
    entries in use afterwards are the old ones without [x], up to order
    (the last one has moved into the place of [x]).  Only that first entry
    goes: later entries with the same id stay subscribed. *)
Theorem sw_unsubscribe_removes_first (sl : sw_subs_t) (id : Z) :
  0 <= cnt sl <= Z.of_nat (length (subs sl)) ->
  (Forall (fun s => sub_id s <> id) (live sl) ->
     il_net__sw_unsubscribe sl id = Some sl) /\
  (forall pre x post,
     live sl = pre ++ x :: post -> sub_id x = id ->
     Forall (fun s => sub_id s <> id) pre ->
     exists sl',
       il_net__sw_unsubscribe sl id = Some sl' /\
       cnt sl' = cnt sl - 1 /\ sz sl' = sz sl /\
       take (length pre) (live sl') = pre /\
       live sl' ≡ₚ pre ++ post).
Proof.
  intros Hwf. split.
  - intros Hno. unfold il_net__sw_unsubscribe, live in *.
    apply unsub_scan_none; [lia|]. rewrite drop_0. exact Hno.
  - intros pre x post Hlive Hid Hno.
    destruct (unsubscribe_first_shape sl id pre x post Hwf Hlive Hid Hno)
      as (y & Hy & Hcnt & Hxs & E).
    rewrite E. eexists. split; [reflexivity|]. unfold live in *.
    cbn [cnt sz subs]. split; [reflexivity|]. split; [reflexivity|].
    assert (Hlen : length (take (Z.to_nat (cnt sl)) (subs sl))
                   = Z.to_nat (cnt sl)) by (rewrite length_take; lia).
    assert (Hxl : take (Z.to_nat (cnt sl)) (subs sl) !! length pre = Some x).
    { rewrite lookup_take_lt by lia. exact Hxs. }
    set (l := take (Z.to_nat (cnt sl)) (subs sl)) in *.
    assert (Htk : take (Z.to_nat (cnt sl - 1)) (<[length pre := y]> (subs sl))
                  = take (length l - 1) (<[length pre := y]> l)).
    { subst l. rewrite Hlen.
      replace (Z.to_nat (cnt sl - 1)) with (Z.to_nat (cnt sl) - 1)%nat by lia.
      destruct (decide (length pre = (Z.to_nat (cnt sl) - 1)%nat)) as [E'|E'].
      - rewrite !take_insert_ge by lia.
        rewrite take_take, Nat.min_l by lia. reflexivity.
      - rewrite !take_insert_lt by lia.
        rewrite take_take, Nat.min_l by lia. reflexivity. }
    rewrite Htk.
    assert (Hyl : l !! (length l - 1)%nat = Some y).
    { subst l. rewrite Hlen. rewrite lookup_take_lt by lia.
      replace (Z.to_nat (cnt sl) - 1)%nat with (Z.to_nat (cnt sl - 1)) by lia.
      exact Hy. }
    split.
    + destruct (decide (length pre = (length l - 1)%nat)) as [E'|E'].
      * rewrite take_insert_ge by lia. rewrite take_take, Nat.min_l by lia.
        rewrite Hlive, take_app_length. reflexivity.
      * rewrite take_insert_lt by lia. rewrite take_insert_ge by lia.
        rewrite take_take, Nat.min_l by lia.
        rewrite Hlive, take_app_length. reflexivity.
    + pose proof (move_last_Permutation l (length pre) x y Hxl Hyl) as Hp.
      rewrite Hlive in Hp at 3.
      rewrite <- Permutation_middle in Hp.
      apply Permutation_cons_inv in Hp. exact Hp.
Qed.

Lemma sw_unsubscribe_removes_first_witness :
  (0 <= cnt two_subscribers <= Z.of_nat (length (subs two_subscribers))) /\
  exists sl',
    il_net__sw_unsubscribe two_subscribers 1 = Some sl' /\
    cnt sl' = 1 /\ live sl' ≡ₚ [mkSub 1 0x4020 8].
Proof.
  assert (Hwf : 0 <= cnt two_subscribers
                <= Z.of_nat (length (subs two_subscribers))) by (cbn; lia).
  split; [exact Hwf|].
  destruct (proj2 (sw_unsubscribe_removes_first two_subscribers 1 Hwf)
              [] (mkSub 1 0x4010 7) [mkSub 1 0x4020 8])
    as (sl' & E & Hc & _ & _ & Hp); [reflexivity | reflexivity | constructor|].
  exists sl'. split; [exact E|]. split; [exact Hc | exact Hp].
Defined.

Section SubscribeAgain.
Context `{H : headers}.

(** A successful [il_net__sw_subscribe] appends the entry to those in
    use. *)
Lemma subscribe_appends (sl sl1 : sw_subs_t) (id cb ctx : Z) (ok : bool)
    (fill : sw_subscriber) :
  0 <= cnt sl <= Z.of_nat (length (subs sl)) ->
  Serial.il_net__sw_subscribe sl id cb ctx ok fill = Serial.Subscribed sl1 ->
  cnt sl1 = cnt sl + 1 /\
  0 <= cnt sl1 <= Z.of_nat (length (subs sl1)) /\
  live sl1 = live sl ++ [mkSub id cb ctx].
Proof.
  intros Hwf. unfold Serial.il_net__sw_subscribe.
  set (grown := if cnt sl =? sz sl then _ else _).
  assert (Hg : forall g, grown = Some g ->
             cnt g = cnt sl /\
             (cnt g < Z.of_nat (length (subs g)) ->
              take (Z.to_nat (cnt sl)) (subs g) = take (Z.to_nat (cnt sl)) (subs sl))).
  { intros g. subst grown. destruct (cnt sl =? sz sl).
    - destruct ok; [|discriminate]. intros E. injection E as <-.
      cbn [cnt subs]. split; [reflexivity|]. unfold Serial.realloc.
      intros Hlt. rewrite length_take in Hlt.
      rewrite take_take, Nat.min_l by lia.
      rewrite take_app_le by lia. reflexivity.
    - intros E. injection E as <-. split; reflexivity. }
  destruct grown as [g|]; [|discriminate].
  destruct (Hg g eq_refl) as [Hc Htk].
  destruct (Z.leb_spec 0 (cnt g)); [|discriminate].
  destruct (Z.ltb_spec (cnt g) (Z.of_nat (length (subs g)))); [|discriminate].
  cbn [andb]. intros E. injection E as <-. unfold live. cbn [cnt subs].
  split; [lia|]. split; [rewrite length_insert; lia|].
  rewrite Hc in *.
  replace (Z.to_nat (cnt sl + 1)) with (S (Z.to_nat (cnt sl))) by lia.
  rewrite (take_S_r _ _ (mkSub id cb ctx)).
  - rewrite take_insert_ge by lia. rewrite Htk by lia. reflexivity.
  - apply list_lookup_insert_eq. lia.
Qed.

(** X6. Subscribing and then unsubscribing the same id: when the id was
    not subscribed before, the count and the entries in use are as they
    were before the two calls; when it was, the count is also as before,
    but it is the oldest entry with that id that has gone, and the new
    entry sits in its place. *)
Theorem subscribe_then_unsubscribe (sl sl1 : sw_subs_t) (id cb ctx : Z)
    (ok : bool) (fill : sw_subscriber) :
  0 <= cnt sl <= Z.of_nat (length (subs sl)) ->
  Serial.il_net__sw_subscribe sl id cb ctx ok fill = Serial.Subscribed sl1 ->
  (Forall (fun s => sub_id s <> id) (live sl) ->
     exists sl2, il_net__sw_unsubscribe sl1 id = Some sl2 /\
                 cnt sl2 = cnt sl /\ live sl2 = live sl) /\
  (forall pre x post,
     live sl = pre ++ x :: post -> sub_id x = id ->
     Forall (fun s => sub_id s <> id) pre ->
     exists sl2, il_net__sw_unsubscribe sl1 id = Some sl2 /\
                 cnt sl2 = cnt sl /\
                 live sl2 = pre ++ mkSub id cb ctx :: post).
Proof.
  intros Hwf Hsub.
  destruct (subscribe_appends sl sl1 id cb ctx ok fill Hwf Hsub)
    as (Hc1 & Hwf1 & Hl1).
  assert (Hlen : length (live sl) = Z.to_nat (cnt sl)).
  { unfold live. rewrite length_take. lia. }
  assert (Hlast : subs sl1 !! Z.to_nat (cnt sl1 - 1) = Some (mkSub id cb ctx)).
  { replace (Z.to_nat (cnt sl1 - 1)) with (length (live sl)) by lia.
    assert (E : live sl1 !! length (live sl) = Some (mkSub id cb ctx)).
    { rewrite Hl1, lookup_app_r, Nat.sub_diag by lia. reflexivity. }
    change (live sl1) with (take (Z.to_nat (cnt sl1)) (subs sl1)) in E.
    rewrite lookup_take_lt in E by lia. exact E. }
  assert (Hshape : forall pre x post,
            live sl1 = pre ++ x :: post -> sub_id x = id ->
            Forall (fun s => sub_id s <> id) pre ->
            exists sl2, il_net__sw_unsubscribe sl1 id = Some sl2 /\
              cnt sl2 = cnt sl /\
              live sl2 = take (Z.to_nat (cnt sl))
                           (<[length pre := mkSub id cb ctx]> (live sl1))).
  { intros pre x post Hl Hid Hno.
    destruct (unsubscribe_first_shape sl1 id pre x post Hwf1 Hl Hid Hno)
      as (y & Hy & Hcnt & _ & E).
    rewrite Hlast in Hy. injection Hy as <-.
    eexists. split; [exact E|]. unfold live. cbn [cnt subs].
    split; [lia|].
    replace (Z.to_nat (cnt sl1 - 1)) with (Z.to_nat (cnt sl)) by lia.
    destruct (decide (length pre < Z.to_nat (cnt sl1))%nat) as [Hlt|Hge]; [|lia].
    rewrite <- take_insert_lt by lia.
    rewrite take_take, Nat.min_l by lia. reflexivity. }
  split.
  - intros Hno.
    destruct (Hshape (live sl) (mkSub id cb ctx) []) as (sl2 & E & Hc & Hl);
      [exact Hl1 | reflexivity | exact Hno|].
    exists sl2. split; [exact E|]. split; [exact Hc|].
    rewrite Hl, Hl1.
    rewrite take_insert_ge by lia. rewrite <- Hlen. apply take_app_length.
  - intros pre x post Hlive Hid Hno.
    destruct (Hshape pre x (post ++ [mkSub id cb ctx])) as (sl2 & E & Hc & Hl);
      [rewrite Hl1, Hlive, <- app_assoc; reflexivity | exact Hid | exact Hno|].
    exists sl2. split; [exact E|]. split; [exact Hc|].
    rewrite Hl, Hl1, Hlive.
    rewrite <- app_assoc. cbn [app].
    rewrite insert_app_r_alt, Nat.sub_diag by lia. cbn [insert list_insert].
    rewrite Hlive, length_app in Hlen. cbn [length] in Hlen.
    rewrite <- Hlen.
    replace (pre ++ mkSub id cb ctx :: post ++ [mkSub id cb ctx])
      with ((pre ++ mkSub id cb ctx :: post) ++ [mkSub id cb ctx])
      by (rewrite <- app_assoc; reflexivity).
    apply take_app_length'. rewrite length_app. reflexivity.
Qed.

(** X7. After a successful [il_net__sw_subscribe], a statusword response
    on the serial profile is delivered to whom it was delivered before,
    and then, when the frame carries the new subscriber's id, to the new
    subscriber with its context and the statusword. *)
Theorem subscribe_then_dispatch (net : Serial.il_net_t) (sl1 : sw_subs_t)
    (id cb ctx : Z) (ok : bool) (fill : sw_subscriber)
    (frame : Serial.il_frame_t) :
  0 <= cnt (Serial.sw_subs net)
    <= Z.of_nat (length (subs (Serial.sw_subs net))) ->
  Serial.il_net__sw_subscribe (Serial.sw_subs net) id cb ctx ok fill
  = Serial.Subscribed sl1 ->
  Serial.frame_idx frame = STATUSWORD_IDX ->
  Serial.frame_sidx frame = STATUSWORD_SIDX ->
  exists before,
    Serial.process_statusword net frame = Some before /\
    Serial.process_statusword
      (Serial.mkNet (Serial.state net) (Serial.sync net) sl1) frame
    = Some (before ++
            if Serial.frame_id frame =? id
            then [mkCall cb ctx
                    (swap_16 (Serial.load_u16 (Serial.frame_data frame)))]
            else []).
Proof.
  intros Hwf Hsub Hidx Hsidx.
  destruct (subscribe_appends _ sl1 id cb ctx ok fill Hwf Hsub)
    as (Hc1 & Hwf1 & Hl1).
  unfold Serial.process_statusword, Serial.il_frame__get_idx,
    Serial.il_frame__get_sidx, Serial.il_frame__get_id,
    Serial.il_frame__get_data.
  rewrite Hidx, Hsidx, !Z.eqb_refl. cbn [andb Serial.sw_subs].
  rewrite !DispatchFacts.sw_each_matching by lia. rewrite !drop_0.
  eexists. split; [reflexivity|]. f_equal.
  fold (live sl1). fold (live (Serial.sw_subs net)). rewrite Hl1.
  unfold matching. rewrite List.filter_app, map_app. f_equal.
  cbn [List.filter sub_id]. rewrite (Z.eqb_sym id).
  destruct (Serial.frame_id frame =? id); reflexivity.
Qed.

End SubscribeAgain.

Lemma subscribe_then_unsubscribe_witness :
  (0 <= cnt one_subscriber <= Z.of_nat (length (subs one_subscriber))) /\
  exists sl1 sl2,
    Serial.il_net__sw_subscribe (H := sample_headers) one_subscriber 1 0x4020 8
      true (mkSub 0 0 0) = Serial.Subscribed sl1 /\
    il_net__sw_unsubscribe sl1 1 = Some sl2 /\
    live sl2 = [mkSub 1 0x4020 8].
Proof.
  assert (Hwf : 0 <= cnt one_subscriber
                <= Z.of_nat (length (subs one_subscriber))) by (cbn; lia).
  split; [exact Hwf|].
  destruct (Serial.il_net__sw_subscribe (H := sample_headers) one_subscriber
              1 0x4020 8 true (mkSub 0 0 0)) as [sl1| |] eqn:E;
    [|vm_compute in E; discriminate E..].
  destruct (proj2 (subscribe_then_unsubscribe (H := sample_headers)
                     one_subscriber sl1 1 0x4020 8 true (mkSub 0 0 0) Hwf E)
              [] (mkSub 1 0x4010 7) [])
    as (sl2 & E2 & _ & Hl); [reflexivity | reflexivity | constructor|].
  exists sl1, sl2. split; [reflexivity|]. split; [exact E2 | exact Hl].
Defined.

Lemma subscribe_then_dispatch_witness :
  let net := Serial.mkNet Serial.IL_NET_STATE_OPERATIVE
               (Serial.mkSync 0 0 0 0 0 0 1) (mkSubs [mkSub 0 0 0] 0 1) in
  let frame := Serial.mkFrame 1 0x6041 0 [0x34; 0x12] in
  (0 <= cnt (Serial.sw_subs net)
     <= Z.of_nat (length (subs (Serial.sw_subs net)))) /\
  exists sl1 before,
    Serial.il_net__sw_subscribe (H := sample_headers) (Serial.sw_subs net)
      1 0x4010 7 true (mkSub 0 0 0) = Serial.Subscribed sl1 /\
    Serial.process_statusword (H := sample_headers)
      (Serial.mkNet (Serial.state net) (Serial.sync net) sl1) frame
    = Some (before ++ [mkCall 0x4010 7 0x1234]).
Proof.
  intros net frame.
  assert (Hwf : 0 <= cnt (Serial.sw_subs net)
                <= Z.of_nat (length (subs (Serial.sw_subs net)))) by (cbn; lia).
  split; [exact Hwf|].
  destruct (Serial.il_net__sw_subscribe (H := sample_headers)
              (Serial.sw_subs net) 1 0x4010 7 true (mkSub 0 0 0))
    as [sl1| |] eqn:E; [|vm_compute in E; discriminate E..].
  destruct (subscribe_then_dispatch (H := sample_headers) net sl1 1 0x4010 7
              true (mkSub 0 0 0) frame Hwf E eq_refl eq_refl)
    as (before & _ & Hd).
  exists sl1, before. split; [reflexivity | exact Hd].
Defined.

End SubscribersFacts.

(** *** Which response a synchronous read takes *)

Module ReadFacts.
Import Serial SerialFacts.

Lemma find_app_first {A : Type} (p : A -> bool) (l1 l2 : list A) :
  List.find p (l1 ++ l2)
  = match List.find p l1 with
    | Some x => Some x
    | None => List.find p l2
    end.
Proof.
  induction l1 as [|a l1 IH]; [reflexivity|].
  cbn [app List.find]. destruct (p a); [reflexivity | exact IH].
Qed.

Lemma slot_accepts_b_true (s : sync_t) (f : il_frame_t) :
  slot_accepts_b s f = true <-> slot_accepts s f.
Proof. symmetry. apply slot_accepts_dec. Qed.

Lemma listener_sync_first (fs : list il_frame_t) (s : sync_t)
    (m : memory) :
  sync_complete s = 0 ->
  listener_sync s m fs
  = match List.find (slot_accepts_b s) fs with
    | Some f => (set_complete s 1, stored s m f, 1%nat)
    | None => (s, m, O)
    end.
Proof.
  intros Hc. induction fs as [|f fs IH]; [reflexivity|].
  cbn [listener_sync List.find].
  destruct (slot_accepts_b s f) eqn:E.
  - apply slot_accepts_b_true in E.
    rewrite process_sync_accept by exact E.
    rewrite listener_sync_complete by (cbn; lia). reflexivity.
  - rewrite process_sync_reject.
    + rewrite IH. destruct (List.find (slot_accepts_b s) fs); reflexivity.
    + intros Ha. apply slot_accepts_b_true in Ha. congruence.
Qed.

(** X8. A synchronous read whose request went out takes the first
    response, among those the listener handles before the wait and during
    it, that matches the request (same id or the broadcast request,
    same index and sub-index, payload no longer than the buffer): its
    payload is stored at the buffer and its size through [recvd]; responses
    that do not match, and every response after the first match, leave the
    caller's memory alone.  The call returns success when the match came
    before the wait; otherwise it returns what the wait reported
    ([IL_ETIMEDOUT], [IL_EFAIL] or success), whether or not a response was
    stored during the wait. *)
Theorem il_net__read_first_response (net : il_net_t) (m : memory)
    (id idx sidx buf sz recvd timeout : Z) (env : read_env) :
  state net = IL_NET_STATE_OPERATIVE -> 0 <= re_write env ->
  let s0 := mkSync id idx sidx buf sz recvd 0 in
  let r := il_net__read net m id idx sidx buf sz recvd timeout env in
  snd (fst r)
  = match List.find (slot_accepts_b s0) (re_gap env ++ re_waiting env) with
    | Some f => stored s0 m f
    | None => m
    end /\
  snd r
  = match List.find (slot_accepts_b s0) (re_gap env) with
    | Some _ => IL_OK
    | None =>
        match re_wait env with
        | OSAL_ETIMEDOUT => IL_ERR IL_ETIMEDOUT
        | OSAL_EOTHER => IL_ERR IL_EFAIL
        | OSAL_WOKEN => IL_OK
        end
    end.
Proof.
  intros Hst Hw s0 r. subst r. unfold il_net__read.
  rewrite Hst. cbn [state_is_operative negb].
  destruct (Z.ltb_spec (re_write env) 0); [lia|].
  fold s0. rewrite (listener_sync_first (re_gap env) s0 m eq_refl).
  rewrite find_app_first.
  destruct (List.find (slot_accepts_b s0) (re_gap env)) as [f|].
  - cbn. split; reflexivity.
  - change (sync_complete s0 =? 0) with true. cbn match.
    rewrite (listener_sync_first (re_waiting env) s0 m eq_refl).
    destruct (List.find (slot_accepts_b s0) (re_waiting env)); split; reflexivity.
Qed.

Lemma il_net__read_first_response_witness :
  let net := mkNet IL_NET_STATE_OPERATIVE (mkSync 0 0 0 0 0 0 1) one_subscriber in
  let late := mkFrame 1 0x6041 0 [0x34; 0x12] in
  let env := mkReadEnv 0 [mkFrame 2 0x6041 0 [0x99; 0x99]]
               [late; mkFrame 1 0x6041 0 [0x77; 0x77]] OSAL_ETIMEDOUT in
  let r := il_net__read net (mkMem ∅ ∅) 1 0x6041 0 1000 2 0 100 env in
  (state net = IL_NET_STATE_OPERATIVE /\ 0 <= re_write env) /\
  snd (fst r) = stored (mkSync 1 0x6041 0 1000 2 0 0) (mkMem ∅ ∅) late /\
  snd r = IL_ERR IL_ETIMEDOUT.
Proof.
  intros net late env r.
  assert (H1 : state net = IL_NET_STATE_OPERATIVE) by reflexivity.
  assert (H2 : 0 <= re_write env) by (cbn; lia).
  split; [split; [exact H1 | exact H2]|].
  exact (il_net__read_first_response net (mkMem ∅ ∅)
           1 0x6041 0 1000 2 0 100 env H1 H2).
Defined.

End ReadFacts.

(** *** More on the CRC *)

Module CrcMoreFacts.
Import Crc CrcFacts.

Lemma table_entries_all :
  forallb table_entry_agrees (seqZ_from 0 (Z.to_nat 256)) = true.
Proof. vm_compute. reflexivity. Qed.

Lemma init_fills_table (g : crc_globals) :
  init_crcccitt_tab_eth g = mkCrcGlobals true crc_table.
Proof. vm_compute. reflexivity. Qed.

(** X9. The table [init_crcccitt_tab_eth] fills holds, at every index [i]
    below 256, the CRC-CCITT of the single byte [i]; and
    [update_crc_ccitt_eth], whether it finds the table filled or fills it
    first, gives the table step, leaves the flag raised and the table
    filled, and a further call leaves the memo as it is. *)
Theorem crc_table_memo (g : crc_globals) (crc c : Z) :
  memo_ok g ->
  (forall i, 0 <= i < 256 ->
     tab_lookup (crc_tabccitt_eth (init_crcccitt_tab_eth g)) i
     = crc_ccitt_spec [i]) /\
  let r := update_crc_ccitt_eth_st g crc c in
  snd r = update_crc_ccitt_eth crc c /\
  fst r = mkCrcGlobals true crc_table /\
  forall crc' c', fst (update_crc_ccitt_eth_st (fst r) crc' c') = fst r.
Proof.
  intros Hg. split.
  - intros i Hi. rewrite init_fills_table. cbn [crc_tabccitt_eth].
    pose proof table_entries_all as Hall. rewrite forallb_forall in Hall.
    assert (Hin : In i (seqZ_from 0 (Z.to_nat 256))).
    { apply seqZ_from_In. rewrite Z2Nat.id; lia. }
    specialize (Hall i Hin). unfold table_entry_agrees in Hall.
    now apply Z.eqb_eq in Hall.
  - cbv zeta.
    assert (Hfst : fst (update_crc_ccitt_eth_st g crc c)
                   = mkCrcGlobals true crc_table).
    { unfold update_crc_ccitt_eth_st. cbn [fst].
      destruct g as [fl tb]. cbn [crc_tabccitt_init_eth] in *.
      destruct fl.
      - unfold memo_ok in Hg. cbn in Hg. rewrite (Hg eq_refl). reflexivity.
      - apply init_fills_table. }
    split; [exact (proj1 (update_crc_ccitt_eth_st_pure g crc c Hg))|].
    split; [exact Hfst|].
    intros crc' c'. rewrite Hfst. reflexivity.
Qed.

Lemma crc_table_memo_witness :
  memo_ok crc_globals_start /\
  snd (update_crc_ccitt_eth_st crc_globals_start 0 0x30)
  = update_crc_ccitt_eth 0 0x30 /\
  fst (update_crc_ccitt_eth_st crc_globals_start 0 0x30)
  = mkCrcGlobals true crc_table.
Proof.
  split; [exact memo_ok_start|].
  destruct (crc_table_memo crc_globals_start 0 0x30 memo_ok_start)
    as (_ & Hs & Hf & _).
  split; [exact Hs | exact Hf].
Defined.

(** *** A changed byte changes the CRC *)

Lemma unshift_all :
  forallb unshift_agrees (seqZ_from 0 (Z.to_nat 65536)) = true.
Proof. vm_compute. reflexivity. Qed.

Lemma forallb_seqZ_from (p : Z -> bool) (n : nat) (x : Z) :
  forallb p (seqZ_from 0 n) = true -> 0 <= x < Z.of_nat n -> p x = true.
Proof.
  intros Hall Hx. rewrite forallb_forall in Hall.
  apply Hall. apply seqZ_from_In. lia.
Qed.

Lemma shift_unshift (x : Z) :
  is_u16 x -> ccitt_unshift (ccitt_shift x) = x.
Proof.
  intros Hx. apply Z.eqb_eq.
  apply (forallb_seqZ_from unshift_agrees (Z.to_nat 65536) x unshift_all).
  unfold is_u16 in Hx. rewrite Z2Nat.id; lia.
Qed.

Lemma ccitt_shift_range (x : Z) : is_u16 (ccitt_shift x).
Proof. unfold ccitt_shift. destruct (Z.testbit x 15); apply wrap16_range. Qed.

Lemma shift_iter_range (n : nat) (x : Z) :
  is_u16 x -> is_u16 (Nat.iter n ccitt_shift x).
Proof.
  intros Hx. destruct n as [|n]; [exact Hx|].
  cbn [Nat.iter nat_rect]. apply ccitt_shift_range.
Qed.

Lemma shift_iter_injective (n : nat) (x y : Z) :
  is_u16 x -> is_u16 y ->
  Nat.iter n ccitt_shift x = Nat.iter n ccitt_shift y -> x = y.
Proof.
  intros Hx Hy. induction n as [|n IH]; intros E; [exact E|].
  cbn [Nat.iter nat_rect] in E. apply IH.
  rewrite <- (shift_unshift (Nat.iter n ccitt_shift x)),
          <- (shift_unshift (Nat.iter n ccitt_shift y))
    by (apply shift_iter_range; assumption).
  unfold Nat.iter. rewrite E. reflexivity.
Qed.

Lemma shift8_injective (x y : Z) :
  is_u16 x -> is_u16 y ->
  Nat.iter 8 ccitt_shift x = Nat.iter 8 ccitt_shift y -> x = y.
Proof. apply shift_iter_injective. Qed.

Lemma entered_u16 (crc c : Z) :
  is_u16 crc -> is_u8 c -> is_u16 (Z.lxor crc (Z.shiftl c 8)).
Proof.
  intros Hcrc Hc. unfold is_u16, is_u8 in *.
  apply (lxor_below _ _ 16); [lia | lia|].
  rewrite Z.shiftl_mul_pow2 by lia. lia.
Qed.

Lemma lxor_cancel_l (a b b' : Z) : Z.lxor a b = Z.lxor a b' -> b = b'.
Proof.
  intros E.
  assert (E' : Z.lxor a (Z.lxor a b) = Z.lxor a (Z.lxor a b')) by (rewrite E; reflexivity).
  rewrite <- !Z.lxor_assoc, Z.lxor_nilpotent, !Z.lxor_0_l in E'. exact E'.
Qed.

Lemma update_injective (crc crc' c c' : Z) :
  is_u16 crc -> is_u16 crc' -> is_u8 c -> is_u8 c' ->
  update_crc_ccitt_eth crc c = update_crc_ccitt_eth crc' c' ->
  Z.lxor crc (Z.shiftl c 8) = Z.lxor crc' (Z.shiftl c' 8).
Proof.
  intros Hcrc Hcrc' Hc Hc' E.
  rewrite !update_is_ccitt_byte in E by assumption. unfold ccitt_byte in E.
  apply shift8_injective in E; [exact E | now apply entered_u16..].
Qed.

Lemma update_same_byte (crc crc' c : Z) :
  is_u16 crc -> is_u16 crc' -> is_u8 c ->
  update_crc_ccitt_eth crc c = update_crc_ccitt_eth crc' c -> crc = crc'.
Proof.
  intros Hcrc Hcrc' Hc E.
  apply update_injective in E; try assumption.
  rewrite (Z.lxor_comm crc), (Z.lxor_comm crc') in E.
  exact (lxor_cancel_l _ _ _ E).
Qed.

Lemma update_same_crc (crc c c' : Z) :
  is_u16 crc -> is_u8 c -> is_u8 c' ->
  update_crc_ccitt_eth crc c = update_crc_ccitt_eth crc c' -> c = c'.
Proof.
  intros Hcrc Hc Hc' E.
  apply update_injective in E; try assumption.
  apply lxor_cancel_l in E.
  assert (E' : Z.shiftr (Z.shiftl c 8) 8 = Z.shiftr (Z.shiftl c' 8) 8)
    by (rewrite E; reflexivity).
  rewrite !Z.shiftr_shiftl_l, !Z.sub_diag, !Z.shiftl_0_r in E' by lia.
  exact E'.
Qed.

Lemma fold_update_range (bs : list Z) : forall crc,
  is_u16 crc -> is_u16 (fold_left update_crc_ccitt_eth bs crc).
Proof.
  induction bs as [|b bs IH]; intros crc Hc; [exact Hc|].
  cbn [fold_left]. apply IH, update_range.
Qed.

Lemma fold_update_injective (bs : list Z) : forall crc crc',
  Forall is_u8 bs -> is_u16 crc -> is_u16 crc' ->
  fold_left update_crc_ccitt_eth bs crc = fold_left update_crc_ccitt_eth bs crc' ->
  crc = crc'.
Proof.
  induction bs as [|b bs IH]; intros crc crc' Hbs Hc Hc' E; [exact E|].
  apply Forall_cons in Hbs. destruct Hbs as [Hb Hbs].
  cbn [fold_left] in E.
  apply IH in E; [|exact Hbs|apply update_range..].
  exact (update_same_byte crc crc' b Hc Hc' Hb E).
Qed.

(** Two byte strings that differ in one place have different CRCs. *)
Lemma crc_one_byte_differs (pre suf : list Z) (b b' : Z) :
  Forall is_u8 pre -> Forall is_u8 suf -> is_u8 b -> is_u8 b' -> b <> b' ->
  fold_left update_crc_ccitt_eth (pre ++ b :: suf) 0
  <> fold_left update_crc_ccitt_eth (pre ++ b' :: suf) 0.
Proof.
  intros Hpre Hsuf Hb Hb' Hne E.
  rewrite !fold_left_app in E. cbn [fold_left] in E.
  assert (H0 : is_u16 (fold_left update_crc_ccitt_eth pre 0)).
  { apply fold_update_range. unfold is_u16. lia. }
  apply fold_update_injective in E; [|exact Hsuf|apply update_range..].
  apply update_same_crc in E; [contradiction|assumption..].
Qed.

End CrcMoreFacts.

(** *** More on the TCP frame exchange *)

Module EthMoreFacts.
Import Crc CrcFacts CrcMoreFacts Eth EthFacts EthOps.

(** [net_recv] on a full frame, by cases. *)
Lemma net_recv_cases (rx : list Z) (subnode address sz : Z) :
  length rx = 14%nat -> Forall is_u8 rx -> 0 <= sz <= 10 ->
  net_recv rx subnode address sz
  = if negb (crc_calc_eth rx 6 =? word_at rx 6)
    then RecvErr IL_EIO msg_crc
    else if negb (frame_cmd rx =? ETH_MCB_CMD_ACK)
         then RecvErr IL_EIO (msg_nack (be32 (take 4 (drop 4 rx))))
         else RecvOk (take (Z.to_nat sz) (drop 4 rx)).
Proof.
  intros Hlen Hrx Hsz. unfold net_recv.
  rewrite (load_u32_be32 rx Hlen Hrx).
  destruct (negb _); [reflexivity|]. destruct (negb _); [reflexivity|].
  destruct (Z.eqb_spec sz 0) as [->|Hnz]; [reflexivity|].
  unfold memcpy. rewrite length_replicate, length_drop, Hlen.
  change (2 * ETH_MCB_DATA_POS)%nat with 4%nat.
  destruct (Z.leb_spec sz (Z.of_nat (Z.to_nat sz))); [|lia].
  destruct (Z.leb_spec sz (Z.of_nat (14 - 4))); [|lia].
  cbn [andb]. rewrite drop_replicate, Nat.sub_diag. cbn [replicate].
  now rewrite app_nil_r.
Qed.

Lemma word_at_insert_other (rx : list Z) (i k : nat) (b' : Z) :
  i <> (2 * k)%nat -> i <> (2 * k + 1)%nat ->
  word_at (<[i := b']> rx) k = word_at rx k.
Proof.
  intros H1 H2. unfold word_at.
  rewrite !nth_lookup, !list_lookup_insert_ne by lia. reflexivity.
Qed.

Lemma lookup_u8 (rx : list Z) (i : nat) (b : Z) :
  Forall is_u8 rx -> rx !! i = Some b -> is_u8 b.
Proof. intros Hrx Hb. exact (proj1 (Forall_lookup _ _) Hrx i b Hb). Qed.

(** X10. A frame that passes the CRC check no longer passes it after any
    one of its 14 bytes is changed: [net_recv] then returns [IL_EIO] with
    the CRC-mismatch error, whatever the frame is otherwise. *)
Theorem net_recv_detects_changed_byte (rx : list Z) (i : nat) (b' : Z)
    (subnode address sz : Z) :
  length rx = 14%nat -> Forall is_u8 rx -> is_u8 b' -> (i < 14)%nat ->
  rx !! i <> Some b' ->
  crc_calc_eth rx 6 = word_at rx 6 ->
  net_recv (corrupted_at i b' rx) subnode address sz = RecvErr IL_EIO msg_crc.
Proof.
  intros Hlen Hrx Hb' Hi Hne Hok. unfold corrupted_at, net_recv.
  destruct (lookup_lt_is_Some_2 rx i) as [b Hb]; [lia|].
  assert (Hbne : b <> b') by congruence.
  assert (Hbu : is_u8 b) by exact (lookup_u8 rx i b Hrx Hb).
  assert (Hdiff : crc_calc_eth (<[i := b']> rx) 6 <> word_at (<[i := b']> rx) 6).
  { destruct (decide (i < 12)%nat) as [Hlt|Hge].
    - rewrite word_at_insert_other by lia. rewrite <- Hok.
      unfold crc_calc_eth. change (Z.to_nat (6 * 2)) with 12%nat.
      rewrite take_insert_lt by lia.
      set (t := take 12 rx).
      assert (Ht : t !! i = Some b).
      { subst t. rewrite lookup_take_lt by lia. exact Hb. }
      assert (Htu : Forall is_u8 t) by (apply Forall_take; exact Hrx).
      rewrite insert_take_drop by (apply lookup_lt_Some in Ht; exact Ht).
      rewrite <- (take_drop_middle t i b Ht) at 3.
      intros E. symmetry in E. revert E.
      apply crc_one_byte_differs; try assumption.
      + apply Forall_take. exact Htu.
      + apply Forall_drop. exact Htu.
    - assert (Hcrc : crc_calc_eth (<[i := b']> rx) 6 = crc_calc_eth rx 6).
      { unfold crc_calc_eth. change (Z.to_nat (6 * 2)) with 12%nat.
        rewrite take_insert_ge by lia. reflexivity. }
      rewrite Hcrc, Hok. unfold word_at.
      change (2 * 6 + 1)%nat with 13%nat. change (2 * 6)%nat with 12%nat.
      rewrite !nth_lookup.
      destruct (lookup_lt_is_Some_2 rx 12) as [lo Hlo]; [lia|].
      destruct (lookup_lt_is_Some_2 rx 13) as [hi Hhi]; [lia|].
      pose proof (lookup_u8 rx 12 lo Hrx Hlo) as Hlou.
      pose proof (lookup_u8 rx 13 hi Hrx Hhi) as Hhiu.
      rewrite Hlo, Hhi. cbn [default].
      assert (Hcase : i = 12%nat \/ i = 13%nat) by lia.
      destruct Hcase as [-> | ->].
      + rewrite list_lookup_insert_eq by lia.
        rewrite list_lookup_insert_ne by lia. rewrite Hhi. cbn [default].
        rewrite Hlo in Hb. injection Hb as <-. unfold id.
        rewrite !word_of_bytes_add by assumption. lia.
      + rewrite list_lookup_insert_ne by lia.
        rewrite list_lookup_insert_eq by lia. rewrite Hlo. cbn [default].
        rewrite Hhi in Hb. injection Hb as <-. unfold id.
        rewrite !word_of_bytes_add by assumption. lia. }
  destruct (Z.eqb_spec (crc_calc_eth (<[i := b']> rx) 6)
              (word_at (<[i := b']> rx) 6)); [contradiction | reflexivity].
Qed.

Lemma net_recv_detects_changed_byte_witness :
  (length s2_reply = 14%nat /\ Forall is_u8 s2_reply /\ is_u8 0x35 /\
   (4 < 14)%nat /\ s2_reply !! 4%nat <> Some 0x35 /\
   crc_calc_eth s2_reply 6 = word_at s2_reply 6) /\
  net_recv (corrupted_at 4 0x35 s2_reply) 1 0x0011 2 = RecvErr IL_EIO msg_crc.
Proof.
  assert (H1 : length s2_reply = 14%nat) by reflexivity.
  assert (H2 : Forall is_u8 s2_reply) by (unfold s2_reply; all_u8).
  assert (H3 : is_u8 0x35) by (unfold is_u8; lia).
  assert (H4 : (4 < 14)%nat) by lia.
  assert (H5 : s2_reply !! 4%nat <> Some 0x35) by (cbn; discriminate).
  assert (H6 : crc_calc_eth s2_reply 6 = word_at s2_reply 6)
    by (vm_compute; reflexivity).
  split; [exact (conj H1 (conj H2 (conj H3 (conj H4 (conj H5 H6)))))|].
  exact (net_recv_detects_changed_byte s2_reply 4 0x35 1 0x0011 2
           H1 H2 H3 H4 H5 H6).
Defined.

(** The [cmd] field read back from a header word. *)
Lemma cmd_field (a c : Z) :
  0 <= c < 4 ->
  Z.shiftr (Z.land (wrap16 (Z.lor (Z.lor (Z.shiftl a 4) (Z.shiftl c 1)) 0)) 0x0E) 1
  = c.
Proof.
  intros Hc. apply Z.bits_inj'. intros n Hn.
  rewrite Z.shiftr_spec, Z.land_spec, wrap16_testbit, !Z.lor_spec by lia.
  rewrite Z.bits_0, orb_false_r.
  rewrite (Z.shiftl_spec c 1) by lia.
  replace (n + 1 - 1) with n by lia.
  destruct (Z.ltb_spec n 3) as [Hlt|Hge].
  - rewrite Z.shiftl_spec_low by lia.
    assert (Hn3 : n = 0 \/ n = 1 \/ n = 2) by lia.
    destruct Hn3 as [-> | [-> | ->]]; cbn;
      rewrite andb_true_r; reflexivity.
  - rewrite (testbit_above 0x0E 4 (n + 1)) by lia.
    rewrite andb_false_r. symmetry. apply (testbit_above c 2 n); lia.
Qed.

Section WithHeaders.
Context `{H : headers}.

(** X11. What [net_send] puts on the wire passes the CRC check of
    [net_recv] and carries the command in the [cmd] field; being a request
    (READ or WRITE, never ACK), it is answered by [net_recv] with the NACK
    error built from its first four payload bytes, never accepted and never
    taken for a CRC failure. *)
Theorem net_send_then_net_recv (send_r subnode address : Z)
    (data : list Z) (sz : Z) :
  Forall is_u8 data -> 0 <= sz <= 8 -> sz <= Z.of_nat (length data) ->
  exists wire r,
    net_send send_r subnode address data sz = Some (wire, r) /\
    crc_calc_eth wire 6 = word_at wire 6 /\
    frame_cmd wire = (if sz =? 0 then ETH_MCB_CMD_READ else ETH_MCB_CMD_WRITE) /\
    forall s a n, 0 <= n <= 10 ->
      net_recv wire s a n
      = RecvErr IL_EIO
          (msg_nack (be32 (take 4 (pad8 (take (Z.to_nat sz) data))))).
Proof.
  intros Hdata Hsz Hl.
  destruct (net_send_total send_r subnode address data sz Hsz Hl)
    as (wire & r & E).
  exists wire, r. split; [exact E|].
  destruct (net_send_inv _ _ _ _ _ _ _ Hdata E)
    as (d & Hlen & Hd & -> & Hpos & Hzero).
  assert (Hdp : d = pad8 (take (Z.to_nat sz) data)).
  { destruct (Z.ltb_spec 0 sz) as [Hp|Hp].
    - apply Hpos. exact Hp.
    - rewrite Hzero by exact Hp. replace sz with 0 by lia. reflexivity. }
  destruct (wire_of_layout subnode address sz d Hlen Hd)
    as (Hw14 & Hwu8 & _ & Hw1 & Hpay & _ & Hw6).
  assert (Hcmd : frame_cmd (wire_of subnode address sz d)
                 = if sz =? 0 then ETH_MCB_CMD_READ else ETH_MCB_CMD_WRITE).
  { unfold frame_cmd, ETH_MCB_HDR_L_POS, ETH_MCB_CMD_MSK, ETH_MCB_CMD_POS.
    rewrite Hw1. apply cmd_field.
    destruct (sz =? 0); cbv; (split; [discriminate | reflexivity]). }
  split; [symmetry; exact Hw6|]. split; [exact Hcmd|].
  intros s a n Hn. rewrite (net_recv_cases _ s a n Hw14 Hwu8 Hn).
  rewrite <- Hw6, Z.eqb_refl. cbn [negb]. rewrite Hcmd.
  assert (Hnack : ((if sz =? 0 then ETH_MCB_CMD_READ else ETH_MCB_CMD_WRITE)
                   =? ETH_MCB_CMD_ACK) = false).
  { destruct (sz =? 0); reflexivity. }
  rewrite Hnack. cbn [negb]. do 3 f_equal.
  rewrite <- Hdp.
  transitivity (take 4 (take 8 (drop 4 (wire_of subnode address sz d)))).
  - rewrite take_take. reflexivity.
  - rewrite Hpay. reflexivity.
Qed.

Lemma header_low12 (a a' c : Z) :
  a mod 2 ^ 12 = a' mod 2 ^ 12 ->
  wrap16 (Z.lor (Z.lor (Z.shiftl (wrap16 a) 4) c) 0)
  = wrap16 (Z.lor (Z.lor (Z.shiftl (wrap16 a') 4) c) 0).
Proof.
  intros E. apply Z.bits_inj'. intros n Hn.
  rewrite !wrap16_testbit, !Z.lor_spec.
  destruct (Z.ltb_spec n 16); cbn [andb]; [|reflexivity].
  do 2 f_equal.
  destruct (Z.ltb_spec n 4).
  - rewrite !Z.shiftl_spec_low by lia. reflexivity.
  - rewrite !Z.shiftl_spec, !wrap16_testbit by lia.
    rewrite <- (Z.mod_pow2_bits_low a 12 (n - 4)) by lia.
    rewrite <- (Z.mod_pow2_bits_low a' 12 (n - 4)) by lia.
    rewrite E. reflexivity.
Qed.

Lemma net_send_low12 (send_r subnode a a' : Z) (data : list Z) (sz : Z) :
  a mod 2 ^ 12 = a' mod 2 ^ 12 ->
  net_send send_r subnode (wrap16 a) data sz
  = net_send send_r subnode (wrap16 a') data sz.
Proof.
  intros E. unfold net_send. cbv zeta.
  rewrite (header_low12 a a' _ E). reflexivity.
Qed.

(** X12. Only the low 12 bits of a register address reach the wire: two
    addresses that agree in them give the same request frame and the same
    outcome, for [il_eth_net__read] and for [il_eth_net__write]. *)
Theorem eth_address_low12 (send_r : Z) (rx : list Z)
    (id subnode a a' : Z) (data : list Z) (sz confirmed : Z) :
  a mod 2 ^ 12 = a' mod 2 ^ 12 ->
  il_eth_net__read send_r rx id subnode a sz
  = il_eth_net__read send_r rx id subnode a' sz /\
  il_eth_net__write send_r rx id subnode a data sz confirmed
  = il_eth_net__write send_r rx id subnode a' data sz confirmed.
Proof.
  intros E. unfold il_eth_net__read, il_eth_net__write.
  rewrite !(net_send_low12 send_r subnode a a' _ _ E).
  split; reflexivity.
Qed.


End WithHeaders.

Lemma net_send_then_net_recv_witness :
  (Forall is_u8 [0x34; 0x12] /\ 0 <= 2 <= 8
   /\ 2 <= Z.of_nat (length [0x34; 0x12])) /\
  exists wire r,
    net_send (H := sample_headers) 14 1 0x0120 [0x34; 0x12] 2 = Some (wire, r) /\
    frame_cmd wire = ETH_MCB_CMD_WRITE /\
    net_recv wire 1 0x0120 0 = RecvErr IL_EIO (msg_nack 0x34120000).
Proof.
  assert (H1 : Forall is_u8 [0x34; 0x12]) by all_u8.
  assert (H2 : 0 <= 2 <= 8) by lia.
  assert (H3 : 2 <= Z.of_nat (length [0x34; 0x12])) by (cbn; lia).
  split; [repeat split; try assumption; lia|].
  destruct (net_send_then_net_recv (H := sample_headers) 14 1 0x0120
              [0x34; 0x12] 2 H1 H2 H3) as (wire & r & E & _ & Hcmd & Hrecv).
  exists wire, r. split; [exact E|]. split; [exact Hcmd|].
  apply Hrecv. lia.
Defined.

Lemma eth_address_low12_witness :
  0x0011 mod 2 ^ 12 = 0x1011 mod 2 ^ 12 /\
  il_eth_net__read (H := sample_headers) 14 s2_reply 1 1 0x0011 2
  = il_eth_net__read (H := sample_headers) 14 s2_reply 1 1 0x1011 2.
Proof.
  assert (E : 0x0011 mod 2 ^ 12 = 0x1011 mod 2 ^ 12) by reflexivity.
  split; [exact E|].
  exact (proj1 (eth_address_low12 (H := sample_headers) 14 s2_reply 1 1
                  0x0011 0x1011 [] 2 0 E)).
Defined.


End EthMoreFacts.

(** *** When the TCP listener returns *)

Module ListenerMoreFacts.
Import Eth ListenerFacts.

Lemma reconnect_loop_unstopped (evs : list reconnect_env) :
  forall (r : Z) (fl : eth_flags),
    stop_reconnect fl = 0 -> Forall (fun e => rc_mon_stop e = false) evs ->
    match reconnect_loop r fl evs with
    | Left_loop (fl', rest) =>
        stop_reconnect fl' = 0 /\ Forall (fun e => rc_mon_stop e = false) rest
    | Still_in => True
    | Faulted => True
    end.
Proof.
  induction evs as [|e evs IH]; intros r fl Hs Hevs; cbn [reconnect_loop].
  - destruct (_ && _); [exact I | split; [exact Hs | constructor]].
  - destruct (_ && _); [|split; [exact Hs | exact Hevs]].
    apply Forall_cons in Hevs. destruct Hevs as [He Hevs]. rewrite He.
    apply IH; [|exact Hevs].
    destruct (rc_connect e <? 0); [exact Hs | exact Hs].
Qed.

Section WithHeaders.
Context `{H : headers}.

(** X14. The listener of the TCP profile returns only after
    [il_eth_mon_stop] has set [stop_reconnect]: with the flag clear and no
    such call during the reconnect turns, it is still polling or
    reconnecting however many polls fail and however often it reconnects.
    The flag [stop] plays no part: the listener runs the same whatever
    its value. *)
Theorem listener_eth_returns_only_when_stopped (k : nat) (a b : Z)
    (fl : eth_flags) (ps : list poll_env) (rs : list reconnect_env)
    (log : list cb_call) :
  (stop_reconnect fl = 0 -> Forall (fun e => rc_mon_stop e = false) rs ->
   forall r, fst (listener_eth k a b fl ps rs log) <> Returned r) /\
  (forall s',
     listener_eth k a b (mkFlags s' (stop_reconnect fl)) ps rs log
     = listener_eth k a b fl ps rs log).
Proof.
  split.
  - revert b fl ps rs log.
    induction k as [|k IH]; intros b fl ps rs log Hs Hrs r;
      [cbn; discriminate|].
    cbn [listener_eth].
    pose proof (poll_loop_end a ps (mkLst 0 b) log) as Hend.
    destruct (poll_loop a (mkLst 0 b) ps log) as [[[st rest]| |] log'];
      cbn [fst] in *; try discriminate.
    destruct Hend as (H10 & _); [cbn; lia|]. rewrite H10. cbn [Z.eqb].
    change (10 =? 10) with true. cbn match.
    unfold il_net_reconnect.
    pose proof (reconnect_loop_unstopped rs (-1)
                  (mkFlags 1 (stop_reconnect fl)) Hs Hrs) as Hrec.
    destruct (reconnect_loop (-1) (mkFlags 1 (stop_reconnect fl)) rs)
      as [[fl' rs']| |]; cbn [fst]; try discriminate.
    destruct Hrec as [Hs' Hrs']. rewrite Hs'. cbn [Z.eqb].
    change (0 =? 0) with true. cbn match.
    apply IH; assumption.
  - intros s'. destruct k as [|k]; [reflexivity|].
    cbn [listener_eth]. reflexivity.
Qed.

End WithHeaders.

Lemma listener_eth_returns_only_when_stopped_witness :
  (stop_reconnect (mkFlags 1 0) = 0 /\
   Forall (fun e => rc_mon_stop e = false) [mkRc 0 false]) /\
  fst (listener_eth (H := sample_headers) 3 0x61FE4A 0 (mkFlags 1 0)
         (replicate 10 failed_poll ++ [good_poll]) [mkRc 0 false] [])
  <> Returned 0.
Proof.
  assert (H1 : stop_reconnect (mkFlags 1 0) = 0) by reflexivity.
  assert (H2 : Forall (fun e => rc_mon_stop e = false) [mkRc 0 false])
    by (repeat constructor).
  split; [split; [exact H1 | exact H2]|].
  exact (proj1 (listener_eth_returns_only_when_stopped (H := sample_headers)
                  3 0x61FE4A 0 (mkFlags 1 0)
                  (replicate 10 failed_poll ++ [good_poll]) [mkRc 0 false] [])
           H1 H2 0).
Defined.

End ListenerMoreFacts.

(** *** The device monitor *)

Module MonitorFacts.
Import Monitor.

Lemma live_handle_app (c1 c2 : list ser_call) : forall cur mid,
  live_handle c1 cur = Some mid ->
  live_handle (c1 ++ c2) cur = live_handle c2 mid.
Proof.
  induction c1 as [|c c1 IH]; intros cur mid E.
  - cbn in E. injection E as <-. reflexivity.
  - cbn [app live_handle] in *. destruct c as [h|h].
    + destruct cur; [discriminate|]. apply IH. exact E.
    + destruct cur as [h'|]; [|discriminate].
      destruct (h =? h'); [|discriminate]. apply IH. exact E.
Qed.

Lemma mon_step_inv (st : option il_net_dev_mon_t * list ser_call)
    (op : mon_op) : mon_inv st -> mon_inv (mon_step st op).
Proof.
  destruct st as [[m|] calls]; unfold mon_inv; cbn [fst snd]; [|tauto].
  intros [[Hr Hl] | (Hr & Hcb & Hh & Hl)]; destruct op as [on_evt ctx init_r|];
    cbn [mon_step il_net_dev_mon_start il_net_dev_mon_stop fst snd];
    destruct (Z.eqb_spec (running m) 0) as [E0|E0]; try lia; cbn [negb].
  - destruct (Z.eqb_spec on_evt 0) as [->|Hne]; cbn [fst snd].
    + rewrite app_nil_r. left. split; [exact Hr | exact Hl].
    + destruct (Z.eqb_spec init_r 0) as [->|Hi]; cbn [fst snd running].
      * rewrite app_nil_r. left. split; [exact Hr | exact Hl].
      * right. cbn [running mon_on_evt mon_handle].
        split; [reflexivity|]. split; [exact Hne|]. split; [exact Hi|].
        rewrite (live_handle_app _ _ None None Hl). reflexivity.
  - cbn [fst snd]. rewrite app_nil_r. left. split; [exact Hr | exact Hl].
  - cbn [fst snd]. rewrite app_nil_r. right. tauto.
  - cbn [fst snd]. left. cbn [running]. split; [reflexivity|].
    rewrite (live_handle_app _ _ None (Some (mon_handle m)) Hl).
    cbn [live_handle]. rewrite Z.eqb_refl. reflexivity.
Qed.

(** X15. Through any sequence of starts and stops on a monitor that was
    created, [running] stays 0 or 1; while it is 1 a callback and a
    serial-port monitor are installed; and the serial-port library sees at
    most one monitor alive at a time, each stop stopping the one that was
    started last.  A start on a running monitor returns [IL_EALREADY] and
    changes nothing. *)
Theorem monitor_lifecycle (junk : il_net_dev_mon_t) (ops : list mon_op) :
  (forall m, il_net_dev_mon_create true junk = Some m ->
     mon_inv (mon_run (Some m) ops)) /\
  (forall m on_evt ctx init_r, running m <> 0 ->
     il_net_dev_mon_start (Some m) on_evt ctx init_r
     = (Some m, IL_ERR IL_EALREADY, [])).
Proof.
  split.
  - intros m E. injection E as <-. unfold mon_run.
    assert (H0 : mon_inv (Some (mkMon 0 (mon_ctx junk) (mon_on_evt junk)
                                  (mon_handle junk)), [])).
    { left. split; reflexivity. }
    revert H0. generalize (Some (mkMon 0 (mon_ctx junk) (mon_on_evt junk)
                                   (mon_handle junk)), @nil ser_call).
    induction ops as [|op ops IH]; intros st Hst; [exact Hst|].
    cbn [fold_left]. apply IH. apply mon_step_inv. exact Hst.
  - intros m on_evt ctx init_r Hr. cbn [il_net_dev_mon_start].
    destruct (Z.eqb_spec (running m) 0); [contradiction | reflexivity].
Qed.

Lemma monitor_lifecycle_witness :
  let junk := mkMon 7 7 7 7 in
  il_net_dev_mon_create true junk = Some (mkMon 0 7 7 7) /\
  mon_inv (mon_run (Some (mkMon 0 7 7 7))
             [Op_start 0x4010 1 0x9000; Op_start 0x4020 2 0x9100; Op_stop;
              Op_start 0x4020 2 0x9100]).
Proof.
  intros junk.
  assert (E : il_net_dev_mon_create true junk = Some (mkMon 0 7 7 7))
    by reflexivity.
  split; [exact E|].
  exact (proj1 (monitor_lifecycle junk _) (mkMon 0 7 7 7) E).
Defined.

End MonitorFacts.

(** *** Listing the devices *)

Module DevListFacts.
Import DevList.

Lemma dev_list_loop_all_ok (paths : list (list Z)) :
  forall (lst : list (list Z)) (ok : nat -> bool) (k port_sz : nat),
    (forall j, (j < length paths)%nat -> ok (k + j)%nat = true) ->
    dev_list_loop paths lst ok k port_sz
    = (rev (map (fun p => strncpy p port_sz) paths) ++ lst, O).
Proof.
  induction paths as [|p paths IH]; intros lst ok k port_sz Hok;
    [reflexivity|].
  cbn [dev_list_loop map rev length] in *.
  rewrite <- (Nat.add_0_r k) at 1. rewrite (Hok O) by lia.
  rewrite IH.
  - rewrite <- app_assoc. reflexivity.
  - intros j Hj. replace (S k + j)%nat with (k + S j)%nat by lia.
    apply Hok. lia.
Qed.

Lemma dev_list_loop_fails (paths : list (list Z)) :
  forall (lst : list (list Z)) (ok : nat -> bool) (k port_sz : nat) (j : nat),
    (j < length paths)%nat -> ok (k + j)%nat = false ->
    (forall i, (i < j)%nat -> ok (k + i)%nat = true) ->
    dev_list_loop paths lst ok k port_sz = ([], (length lst + j)%nat).
Proof.
  induction paths as [|p paths IH]; intros lst ok k port_sz j Hj Hf Hok;
    [cbn in Hj; lia|].
  cbn [dev_list_loop length] in *. destruct j as [|j].
  - rewrite Nat.add_0_r in Hf. rewrite Hf. f_equal. lia.
  - rewrite <- (Nat.add_0_r k) at 1. rewrite (Hok O) by lia.
    rewrite (IH _ ok (S k) port_sz j).
    + cbn [length]. f_equal. lia.
    + lia.
    + replace (S k + j)%nat with (k + S j)%nat by lia. exact Hf.
    + intros i Hi. replace (S k + i)%nat with (k + S i)%nat by lia.
      apply Hok. lia.
Qed.

Lemma strncpy_length (src : list Z) (n : nat) : length (strncpy src n) = n.
Proof.
  unfold strncpy. rewrite length_take, length_app, length_replicate. lia.
Qed.

(** X16. [il_net_dev_list_get] is all or nothing.  When every allocation
    succeeds, the list holds one node per serial device, the device found
    last first, each with its path copied into the [port] field: padded
    with zero bytes when shorter than the field, cut to the field without
    a terminating zero when not.  When an allocation fails, the nodes
    built so far are all freed and the result is the empty list, as it is
    when the serial library gives no list. *)
Theorem dev_list_all_or_nothing (paths : list (list Z)) (ok : nat -> bool)
    (port_sz : nat) :
  il_net_dev_list_get None ok port_sz = ([], O) /\
  ((forall j, (j < length paths)%nat -> ok j = true) ->
     il_net_dev_list_get (Some paths) ok port_sz
     = (rev (map (fun p => strncpy p port_sz) paths), O)) /\
  (forall j, (j < length paths)%nat -> ok j = false ->
     (forall i, (i < j)%nat -> ok i = true) ->
     il_net_dev_list_get (Some paths) ok port_sz = ([], j)) /\
  (forall p, length (strncpy p port_sz) = port_sz /\
     ((length p < port_sz)%nat ->
        strncpy p port_sz = p ++ replicate (port_sz - length p) 0) /\
     ((port_sz <= length p)%nat -> strncpy p port_sz = take port_sz p)).
Proof.
  split; [reflexivity|]. split; [|split].
  - intros Hok. unfold il_net_dev_list_get.
    rewrite dev_list_loop_all_ok by exact Hok. now rewrite app_nil_r.
  - intros j Hj Hf Hok. unfold il_net_dev_list_get.
    apply (dev_list_loop_fails paths [] ok O port_sz j Hj Hf Hok).
  - intros p. split; [apply strncpy_length|]. unfold strncpy. split.
    + intros Hlt. apply take_ge. rewrite length_app, length_replicate. lia.
    + intros Hge. rewrite take_app_le by lia. reflexivity.
Qed.

Lemma dev_list_all_or_nothing_witness :
  let paths := [[0x43; 0x4F; 0x4D; 0x31]; [0x43; 0x4F; 0x4D; 0x32]] in
  let ok := fun k : nat => negb (Nat.eqb k 1) in
  ((1 < length paths)%nat /\ ok 1%nat = false /\
   (forall i, (i < 1)%nat -> ok i = true)) /\
  il_net_dev_list_get (Some paths) ok 8 = ([], 1%nat).
Proof.
  intros paths ok.
  assert (H1 : (1 < length paths)%nat) by (cbn; lia).
  assert (H2 : ok 1%nat = false) by reflexivity.
  assert (H3 : forall i, (i < 1)%nat -> ok i = true).
  { intros i Hi. replace i with O by lia. reflexivity. }
  split; [exact (conj H1 (conj H2 H3))|].
  exact (proj1 (proj2 (proj2 (dev_list_all_or_nothing paths ok 8)))
           1%nat H1 H2 H3).
Defined.

End DevListFacts.

(** *** Creating and destroying a network *)

Module LifecycleFacts.
Import Lifecycle.

(** X17. [il_net_create] either fails, and then has released everything
    it had acquired, in the reverse order of acquisition, and returns
    [NULL]; or succeeds, and then has released nothing and holds each of
    the ten resources once, the network being operative with a complete
    slot and an empty subscriber list of [SW_SUBS_SZ_DEF] slots.
    [il_net_destroy] on the network releases each of the ten exactly
    once; on [NULL] it does nothing. *)
Theorem net_create_destroy_balanced `{headers} (env : create_env)
    (fill : sw_subscriber) (junk : Serial.sync_t) :
  let r := il_net_create env fill junk in
  (fst r = None ->
     snd r = map Acquire (acquired (snd r))
             ++ map Release (rev (acquired (snd r)))) /\
  (forall net, fst r = Some net ->
     snd r = map Acquire all_resources /\
     Serial.state net = Serial.IL_NET_STATE_OPERATIVE /\
     Serial.sync_complete (Serial.sync net) = 1 /\
     cnt (Serial.sw_subs net) = 0 /\
     sz (Serial.sw_subs net) = SW_SUBS_SZ_DEF /\
     acquired (il_net_destroy (Some net)) = [] /\
     released (il_net_destroy (Some net)) ≡ₚ all_resources) /\
  il_net_destroy None = [].
Proof.
  cbv zeta. unfold il_net_create.
  destruct env as [port net lock state_lock sync_lock sync_cond subs_ subs_lock
                     ser open a2b bin thread].
  cbn [ce_port ce_net ce_lock ce_state_lock ce_sync_lock ce_sync_cond ce_subs
         ce_subs_lock ce_ser ce_open ce_a2b ce_bin ce_thread].
  split; [|split; [|reflexivity]].
  - destruct port, net, lock, state_lock, sync_lock, sync_cond, subs_,
      subs_lock, ser; cbn [negb]; try (intros _; reflexivity).
    destruct (open <? 0); [intros _; reflexivity|].
    destruct (a2b <? 0); [intros _; reflexivity|].
    destruct (bin <? 0); [intros _; reflexivity|].
    destruct thread; cbn [negb]; [discriminate | intros _; reflexivity].
  - intros n.
    destruct port, net, lock, state_lock, sync_lock, sync_cond, subs_,
      subs_lock, ser; cbn [negb]; try discriminate.
    destruct (open <? 0); [discriminate|].
    destruct (a2b <? 0); [discriminate|].
    destruct (bin <? 0); [discriminate|].
    destruct thread; cbn [negb]; [|discriminate].
    cbn [fst snd]. intros E. injection E as <-.
    split; [reflexivity|]. split; [reflexivity|]. split; [reflexivity|].
    split; [reflexivity|]. split; [reflexivity|]. split; [reflexivity|].
    cbn. unfold all_resources. solve_Permutation.
Qed.

Lemma net_create_destroy_balanced_witness :
  let env := mkCreateEnv true true true true true true true true true 0 0 (-1)
               true in
  let r := il_net_create (H := sample_headers) env (mkSub 0 0 0)
             (Serial.mkSync 0 0 0 0 0 0 0) in
  fst r = None /\
  snd r = map Acquire (acquired (snd r)) ++ map Release (rev (acquired (snd r))).
Proof.
  intros env r.
  assert (E : fst r = None) by reflexivity.
  split; [exact E|].
  exact (proj1 (net_create_destroy_balanced (H := sample_headers) env
                  (mkSub 0 0 0) (Serial.mkSync 0 0 0 0 0 0 0)) E).
Defined.

End LifecycleFacts.

(** *** Scanning for axes *)

Module AxesFacts.
Import Serial Axes SerialFacts ReadFacts.

Lemma set_complete_same (s : sync_t) : set_complete s (sync_complete s) = s.
Proof. destruct s. reflexivity. Qed.

(** The listener changes nothing of an open slot but [complete]. *)
Lemma listener_sync_shape (fs : list il_frame_t) (s : sync_t) (m : memory) :
  sync_complete s = 0 ->
  exists c, (c = 0 \/ c = 1) /\
    fst (fst (listener_sync s m fs)) = set_complete s c.
Proof.
  intros Hc. rewrite listener_sync_first by exact Hc.
  destruct (List.find (slot_accepts_b s) fs).
  - exists 1. split; [now right | reflexivity].
  - exists 0. split; [now left|]. cbn [fst]. rewrite <- Hc.
    symmetry. apply set_complete_same.
Qed.

Section WithRegister.
Variables (UARTCFG_ID_IDX UARTCFG_ID_SIDX : Z).
Variables (on_found ctx id_addr junk : Z) (ok : nat -> bool).

Local Abbreviation slot := (scan_slot UARTCFG_ID_IDX UARTCFG_ID_SIDX id_addr).
Local Abbreviation loop turns st :=
  (scan_loop turns on_found ctx id_addr junk ok st).
Local Abbreviation answer := (answer_turn UARTCFG_ID_IDX UARTCFG_ID_SIDX).
Local Abbreviation slot_shape :=
  (Axes.slot_shape UARTCFG_ID_IDX UARTCFG_ID_SIDX id_addr).
Local Abbreviation found_calls := (Axes.found_calls on_found ctx).

Lemma take_found_inv (st : scan_st) :
  slot_shape st ->
  match take_found on_found ctx id_addr junk ok st with
  | inl st' =>
      sc_sync st' = slot /\
      (length (sc_lst st') + sc_freed st'
       <= length (sc_lst st) + sc_freed st + pending st)%nat /\
      (sc_freed st = O -> sc_freed st' = O)
  | inr st' =>
      sc_sync st' = slot /\ sc_lst st' = [] /\
      (length (sc_lst st') + sc_freed st'
       <= length (sc_lst st) + sc_freed st + pending st)%nat
  end.
Proof.
  intros (c & Hc & Hs). unfold take_found, pending. rewrite Hs.
  destruct Hc as [-> | ->]; cbn [set_complete sync_complete Z.eqb].
  - split; [exact Hs|]. split; [lia | tauto].
  - destruct (ok (sc_mallocs st)); cbn [sc_sync sc_lst sc_freed length].
    + split; [reflexivity|]. split; [lia | tauto].
    + split; [reflexivity|]. split; [reflexivity | lia].
Qed.

Lemma scan_loop_inv (turns : list scan_turn) : forall st st',
  loop turns st = Some st' -> slot_shape st ->
  slot_shape st' /\
  (length (sc_lst st') + sc_freed st'
   <= length (sc_lst st) + sc_freed st + pending st + length turns)%nat /\
  (sc_freed st' <> O -> sc_freed st = O -> sc_lst st' = []).
Proof.
  induction turns as [|t turns IH]; intros st st' E Hst;
    cbn [scan_loop] in E;
    pose proof (take_found_inv st Hst) as Ht;
    destruct (take_found on_found ctx id_addr junk ok st) as [st1|st1].
  - discriminate.
  - injection E as <-. destruct Ht as (Hs & Hl & Hb).
    split; [exists 0; split; [now left | exact Hs]|].
    split; [cbn [length]; lia | intros _ _; exact Hl].
  - destruct Ht as (Hs & Hb & Hf).
    assert (Hopen : sync_complete (sc_sync st1) = 0) by (rewrite Hs; reflexivity).
    pose proof (listener_sync_shape (turn_frames t) (sc_sync st1) (sc_mem st1)
                  Hopen) as (c & Hc & Hshape).
    destruct (listener_sync (sc_sync st1) (sc_mem st1) (turn_frames t))
      as [[s2 m2] n]. cbn [fst] in Hshape.
    assert (Hst2 : slot_shape
                     (mkScan s2 m2 (sc_lst st1) (sc_found st1)
                        (sc_mallocs st1) (sc_freed st1))).
    { exists c. split; [exact Hc|]. cbn [sc_sync]. rewrite Hshape, Hs.
      reflexivity. }
    assert (Hp : (pending (mkScan s2 m2 (sc_lst st1) (sc_found st1)
                             (sc_mallocs st1) (sc_freed st1)) <= 1)%nat).
    { unfold pending. destruct (_ =? 0); lia. }
    destruct (turn_wait t).
    + apply IH in E; [|exact Hst2]. cbn [sc_lst sc_freed] in E.
      destruct E as (E1 & E2 & E3).
      split; [exact E1|]. split; [cbn [length]; lia|].
      intros Hne H0. apply E3; [exact Hne | now apply Hf].
    + injection E as <-. cbn [sc_lst sc_freed].
      split; [exact Hst2|]. split; [cbn [length]; lia|].
      intros Hne H0. apply Hf in H0. contradiction.
    + injection E as <-. cbn [sc_lst sc_freed].
      split; [exact Hst2|]. split; [cbn [length]; lia|].
      intros Hne H0. apply Hf in H0. contradiction.
  - injection E as <-. destruct Ht as (Hs & Hl & Hb).
    split; [exists 0; split; [now left | exact Hs]|].
    split; [lia | intros _ _; exact Hl].
Qed.

Lemma found_calls_cons (b : Z) (bs : list Z) :
  (if on_found =? 0 then [] else [mkFound on_found ctx b]) ++ found_calls bs
  = found_calls (b :: bs).
Proof. unfold Axes.found_calls. destruct (on_found =? 0); reflexivity. Qed.

(** Taking an answer that waits: a node is allocated for the byte in
    [id] and [on_found] is called with it. *)
Lemma take_found_pending (st : scan_st) (b0 : Z) :
  sc_sync st = set_complete slot 1 ->
  mem_bytes (sc_mem st) !! id_addr = Some b0 ->
  ok (sc_mallocs st) = true ->
  take_found on_found ctx id_addr junk ok st
  = inl (mkScan slot (sc_mem st) (b0 :: sc_lst st)
           (sc_found st ++
            (if on_found =? 0 then [] else [mkFound on_found ctx b0]))
           (S (sc_mallocs st)) (sc_freed st)).
Proof.
  intros Hs Hm Hok. unfold take_found, load_u8. rewrite Hs, Hok, Hm.
  reflexivity.
Qed.

(** An answer handled while the slot is open closes it and leaves its
    byte in [id]; what follows it in the same wait is dropped. *)
Lemma answer_taken (m : memory) (r : Z * Z * list il_frame_t) :
  exists m', listener_sync slot m (turn_frames (answer r))
             = (set_complete slot 1, m', 1%nat) /\
             mem_bytes m' !! id_addr = Some (snd (fst r)).
Proof.
  destruct r as [[nid b] more]. cbn [answer_turn turn_frames fst snd].
  rewrite listener_sync_first by reflexivity.
  cbn [List.find].
  assert (Ha : slot_accepts_b slot
                 (mkFrame nid UARTCFG_ID_IDX UARTCFG_ID_SIDX [b]) = true).
  { unfold slot_accepts_b, il_frame__get_id, il_frame__get_idx,
      il_frame__get_sidx, il_frame__get_sz.
    cbn [scan_slot sync_complete sync_id sync_idx sync_sidx sync_sz frame_id
           frame_idx frame_sidx frame_data length].
    rewrite !Z.eqb_refl. rewrite orb_true_r. reflexivity. }
  rewrite Ha. eexists. split; [reflexivity|].
  unfold stored. cbn [mem_bytes scan_slot sync_buf frame_data store_bytes].
  apply lookup_insert_eq.
Qed.

Lemma scan_answers (last_wait : osal_wait_t)
    (rs : list (Z * Z * list il_frame_t)) : forall (st : scan_st) (b0 : Z),
  sc_sync st = set_complete slot 1 ->
  mem_bytes (sc_mem st) !! id_addr = Some b0 ->
  (forall j, (j <= length rs)%nat -> ok (sc_mallocs st + j)%nat = true) ->
  last_wait <> OSAL_WOKEN ->
  exists m',
    loop (map answer rs ++ [mkTurn [] last_wait]) st
    = Some (mkScan slot m'
              (rev (map (fun r => snd (fst r)) rs) ++ b0 :: sc_lst st)
              (sc_found st
               ++ found_calls (b0 :: map (fun r => snd (fst r)) rs))
              (sc_mallocs st + S (length rs)) (sc_freed st)).
Proof.
  induction rs as [|r rs IH]; intros st b0 Hs Hm Hok Hw;
    pose proof (Hok O (Nat.le_0_l _)) as Hok0;
    rewrite Nat.add_0_r in Hok0.
  - cbn [map app scan_loop].
    rewrite (take_found_pending st b0 Hs Hm Hok0).
    cbn [sc_sync sc_mem turn_frames listener_sync turn_wait sc_lst sc_found
           sc_mallocs sc_freed].
    exists (sc_mem st).
    rewrite <- (found_calls_cons b0 []).
    replace (found_calls []) with (@nil found_call)
      by (unfold Axes.found_calls; now destruct (on_found =? 0)).
    rewrite app_nil_r.
    replace (sc_mallocs st + S (length (@nil (Z * Z * list il_frame_t))))%nat
      with (S (sc_mallocs st)) by (cbn [length]; lia).
    destruct last_wait; [contradiction | reflexivity | reflexivity].
  - cbn [map app]. cbn [scan_loop].
    rewrite (take_found_pending st b0 Hs Hm Hok0).
    cbn [sc_sync sc_mem sc_lst sc_found sc_mallocs sc_freed].
    destruct (answer_taken (sc_mem st) r) as (m1 & E1 & Hb).
    rewrite E1.
    change (turn_wait (answer r)) with OSAL_WOKEN. cbv iota.
    edestruct (IH (mkScan (set_complete slot 1) m1 (b0 :: sc_lst st)
                     (sc_found st ++
                      (if on_found =? 0 then []
                       else [mkFound on_found ctx b0]))
                     (S (sc_mallocs st)) (sc_freed st)) (snd (fst r)))
      as (m' & E2).
    + reflexivity.
    + exact Hb.
    + intros j Hj. cbn [sc_mallocs].
      replace (S (sc_mallocs st) + j)%nat with (sc_mallocs st + S j)%nat
        by lia.
      apply Hok. cbn [length]. lia.
    + exact Hw.
    + exists m'. rewrite E2. cbn [sc_lst sc_found sc_mallocs sc_freed].
      f_equal. f_equal.
      * cbn [rev]. rewrite <- app_assoc. reflexivity.
      * rewrite <- app_assoc. f_equal. apply found_calls_cons.
      * cbn [length]. lia.
Qed.

(** A wait that is not woken ends the loop: with one among the waits the
    loop is left, whatever the others bring. *)
Lemma scan_loop_returns (turns : list scan_turn) : forall st,
  Exists (fun t => turn_wait t <> OSAL_WOKEN) turns ->
  is_Some (loop turns st).
Proof.
  induction turns as [|t turns IH]; intros st Hex;
    [apply Exists_nil in Hex; contradiction|].
  cbn [scan_loop].
  destruct (take_found on_found ctx id_addr junk ok st) as [st1|st1];
    [|eauto].
  destruct (listener_sync (sc_sync st1) (sc_mem st1) (turn_frames t))
    as [[s2 m2] n].
  destruct (turn_wait t) eqn:Ew; [|eauto|eauto].
  apply IH. apply Exists_cons in Hex. destruct Hex as [Hne|Hex];
    [rewrite Ew in Hne; contradiction | exact Hex].
Qed.

(** X18. A scan on an operative network whose request goes out
    ([ser_write] returns 0), in which each wait is woken by an answer and
    the last wait ends unwoken with nothing received, every allocation
    succeeding: the scan returns, and the list returned holds the payload
    byte of the first answer of each wait, the last found first;
    [on_found], when given, was called with the same bytes in the order
    found; further answers within one wait are dropped.  The slot is
    left open with its buffer at the local [id] of the call that has
    returned, so that a later answer is still stored there. *)
Theorem axes_scan_lists_first_answers (net : il_net_t) (m : memory)
    (rs : list (Z * Z * list il_frame_t)) (last_wait : osal_wait_t) :
  state net = IL_NET_STATE_OPERATIVE ->
  (forall k, (k < length rs)%nat -> ok k = true) ->
  last_wait <> OSAL_WOKEN ->
  exists res,
    il_net_axes_list_get UARTCFG_ID_IDX UARTCFG_ID_SIDX (Some net) m
      on_found ctx id_addr junk
      (mkScanEnv 0 [] (map answer rs ++ [mkTurn [] last_wait]) ok)
    = Some res /\
    ax_lst res = rev (map (fun r => snd (fst r)) rs) /\
    ax_found res
    = (if on_found =? 0 then []
       else map (mkFound on_found ctx) (map (fun r => snd (fst r)) rs)) /\
    ax_freed res = O /\
    ax_net res = Some (mkNet (state net) slot (sw_subs net)) /\
    (forall nid b,
       mem_bytes
         (snd (fst (process_sync slot (ax_mem res)
                      (mkFrame nid UARTCFG_ID_IDX UARTCFG_ID_SIDX [b]))))
       !! id_addr = Some b).
Proof.
  intros Hop Hok Hlast.
  assert (Hlate : forall m' nid b,
            mem_bytes
              (snd (fst (process_sync slot m'
                           (mkFrame nid UARTCFG_ID_IDX UARTCFG_ID_SIDX [b]))))
            !! id_addr = Some b).
  { intros m' nid b.
    destruct (answer_taken m' (nid, b, [])) as (m2 & E & Hb).
    cbn [answer_turn turn_frames fst snd listener_sync] in E.
    destruct (process_sync slot m' _) as [[s1 m1] sig].
    injection E as _ -> _. exact Hb. }
  unfold il_net_axes_list_get. rewrite Hop. cbn [state_is_operative negb].
  cbn [se_write se_gap se_turns se_malloc listener_sync Z.ltb Z.eqb
         Z.compare].
  destruct rs as [|r rs].
  - cbn [map app scan_loop take_found]. cbn.
    destruct last_wait; [contradiction | |];
      (eexists; split; [reflexivity|]; cbn [ax_lst ax_found ax_freed ax_net
                                             ax_mem sc_lst sc_found sc_freed
                                             sc_sync sc_mem];
       split; [reflexivity|]; split; [now destruct (on_found =? 0)|];
       split; [reflexivity|]; split; [reflexivity | apply Hlate]).
  - cbn [map app]. cbn [scan_loop].
    change (take_found on_found ctx id_addr junk ok (mkScan slot m [] [] O O))
      with (@inl scan_st scan_st (mkScan slot m [] [] O O)).
    cbv iota. cbn [sc_sync sc_mem sc_lst sc_found sc_mallocs sc_freed].
    destruct (answer_taken m r) as (m1 & E1 & Hb). rewrite E1.
    change (turn_wait (answer r)) with OSAL_WOKEN. cbv iota.
    destruct (scan_answers last_wait rs
                (mkScan (set_complete slot 1) m1 [] [] O O) (snd (fst r)))
      as (m' & E2).
    + reflexivity.
    + exact Hb.
    + intros j Hj. cbn [sc_mallocs]. apply Hok. cbn [length]. lia.
    + exact Hlast.
    + rewrite E2. eexists. split; [reflexivity|].
      cbn [ax_lst ax_found ax_freed ax_net ax_mem sc_lst sc_found sc_freed
             sc_sync sc_mem].
      split; [reflexivity|]. split; [reflexivity|].
      split; [reflexivity|]. split; [reflexivity | apply Hlate].
Qed.

End WithRegister.

(** X19. On an operative network the scan returns whenever [ser_write]
    gives a non-zero result or one of the waits ends unwoken, and then
    with [net->lock] and the state lock released.  When [ser_write]
    fails it returns [NULL] with [sync.lock] still held and the slot
    open, nothing else touched.  When [ser_write] gives a positive
    result it returns [NULL] without a wait, an allocation or a call of
    [on_found].  Whenever the request went out, [sync.lock] is released
    too; the slot is the one registered, open or complete; the list
    holds at most one axis per wait and one for the time before the
    first wait; and after a failed allocation the list is [NULL], what
    was built being freed. *)
Theorem axes_scan_locks_and_slot (UARTCFG_ID_IDX UARTCFG_ID_SIDX : Z)
    (on_found ctx id_addr junk : Z) (net : il_net_t) (m : memory)
    (env : scan_env) :
  state net = IL_NET_STATE_OPERATIVE ->
  se_write env <> 0 \/
  Exists (fun t => turn_wait t <> OSAL_WOKEN) (se_turns env) ->
  exists res,
    il_net_axes_list_get UARTCFG_ID_IDX UARTCFG_ID_SIDX (Some net) m
      on_found ctx id_addr junk env = Some res /\
    held L_state (ax_locks res) = 0 /\ held L_net (ax_locks res) = 0 /\
    (se_write env < 0 ->
       held L_sync (ax_locks res) = 1 /\
       res = mkAxes (Some (mkNet (state net)
                             (scan_slot UARTCFG_ID_IDX UARTCFG_ID_SIDX
                                id_addr)
                             (sw_subs net))) m [] [] O
               (ax_locks res)) /\
    (0 < se_write env ->
       ax_lst res = [] /\ ax_found res = [] /\ ax_freed res = O /\
       ax_mem res
       = snd (fst (listener_sync
                     (scan_slot UARTCFG_ID_IDX UARTCFG_ID_SIDX id_addr) m
                     (se_gap env)))) /\
    (0 <= se_write env ->
       held L_sync (ax_locks res) = 0 /\
       (exists c, (c = 0 \/ c = 1) /\
          ax_net res
          = Some (mkNet (state net)
                    (set_complete
                       (scan_slot UARTCFG_ID_IDX UARTCFG_ID_SIDX id_addr) c)
                    (sw_subs net))) /\
       (length (ax_lst res) + ax_freed res
        <= S (length (se_turns env)))%nat /\
       (ax_freed res <> O -> ax_lst res = [])).
Proof.
  intros Hop Hret. unfold il_net_axes_list_get. rewrite Hop.
  cbn [state_is_operative negb].
  destruct (Z.ltb_spec (se_write env) 0) as [Hw|Hw].
  - eexists. split; [reflexivity|]. cbn [ax_locks].
    split; [reflexivity|]. split; [reflexivity|].
    split; [intros _; split; reflexivity|]. split; lia.
  - pose proof (listener_sync_shape (se_gap env)
                  (scan_slot UARTCFG_ID_IDX UARTCFG_ID_SIDX id_addr) m eq_refl)
      as (c0 & Hc0 & Hshape).
    destruct (listener_sync _ m (se_gap env)) as [[s1 m1] n].
    cbn [fst snd] in *. cbv beta iota zeta.
    destruct (Z.eqb_spec (se_write env) 0) as [Hz|Hnz].
    + destruct Hret as [Hne|Hex]; [contradiction|].
      destruct (scan_loop_returns on_found ctx
                  id_addr junk (se_malloc env) (se_turns env)
                  (mkScan s1 m1 [] [] O O) Hex) as [st El].
      rewrite El. eexists. split; [reflexivity|].
      cbn [ax_locks ax_net ax_lst ax_freed ax_found ax_mem].
      apply (scan_loop_inv UARTCFG_ID_IDX UARTCFG_ID_SIDX) in El.
      * destruct El as ((c & Hc & Hs) & Hlen & Hfree).
        cbn [sc_lst sc_freed length] in Hlen.
        split; [reflexivity|]. split; [reflexivity|].
        split; [lia|]. split; [lia|]. intros _.
        split; [reflexivity|].
        split; [exists c; split; [exact Hc | now rewrite Hs]|].
        split.
        -- assert (Hp : (pending (mkScan s1 m1 [] [] O O) <= 1)%nat).
           { unfold pending. destruct (_ =? 0); lia. }
           lia.
        -- intros Hne. apply Hfree; [exact Hne | reflexivity].
      * exists c0. split; [exact Hc0|]. cbn [sc_sync]. rewrite Hshape.
        reflexivity.
    + eexists. split; [reflexivity|].
      cbn [ax_locks ax_net ax_lst ax_freed ax_found ax_mem].
      split; [reflexivity|]. split; [reflexivity|].
      split; [lia|].
      split; [intros _; repeat split; reflexivity|]. intros _.
      split; [reflexivity|].
      split; [exists c0; split; [exact Hc0 | now rewrite Hshape]|].
      split; [cbn [length]; lia | intros Hne; contradiction].
Qed.

Lemma axes_scan_lists_first_answers_witness :
  let net := mkNet IL_NET_STATE_OPERATIVE (mkSync 0 0 0 0 0 0 1)
               one_subscriber in
  let rs := [(1, 0x20, [mkFrame 2 0x2000 1 [0x21]]); (3, 0x22, [])] in
  (state net = IL_NET_STATE_OPERATIVE /\
   (forall k, (k < length rs)%nat -> (fun _ : nat => true) k = true) /\
   OSAL_ETIMEDOUT <> OSAL_WOKEN) /\
  exists res,
    il_net_axes_list_get 0x2000 1 (Some net) (mkMem ∅ ∅) 0x4010 7 0x7000 0
      (mkScanEnv 0 [] (map (answer_turn 0x2000 1) rs
                        ++ [mkTurn [] OSAL_ETIMEDOUT]) (fun _ => true))
    = Some res /\
    ax_lst res = [0x22; 0x20].
Proof.
  intros net rs.
  assert (H1 : state net = IL_NET_STATE_OPERATIVE) by reflexivity.
  assert (H3 : forall k, (k < length rs)%nat ->
                 (fun _ : nat => true) k = true) by (intros; reflexivity).
  assert (H4 : OSAL_ETIMEDOUT <> OSAL_WOKEN) by discriminate.
  split; [exact (conj H1 (conj H3 H4))|].
  destruct (axes_scan_lists_first_answers 0x2000 1 0x4010 7 0x7000 0
              (fun _ => true) net (mkMem ∅ ∅) rs OSAL_ETIMEDOUT
              H1 H3 H4) as (res & E & Hl & _).
  exists res. split; [exact E | exact Hl].
Defined.

Lemma axes_scan_locks_and_slot_witness :
  let net := mkNet IL_NET_STATE_OPERATIVE (mkSync 0 0 0 0 0 0 1)
               one_subscriber in
  let lost := mkScanEnv (-1) [] [] (fun _ => true) in
  let odd := mkScanEnv 5 [] [mkTurn [mkFrame 1 0x2000 1 [0x20]] OSAL_WOKEN]
               (fun _ => true) in
  let timed := mkScanEnv 0 [] [mkTurn [mkFrame 1 0x2000 1 [0x20]] OSAL_WOKEN;
                               mkTurn [] OSAL_ETIMEDOUT] (fun _ => true) in
  ((state net = IL_NET_STATE_OPERATIVE /\ se_write lost <> 0) /\
   exists res,
     il_net_axes_list_get 0x2000 1 (Some net) (mkMem ∅ ∅) 0x4010 7 0x7000 0
       lost = Some res /\
     held L_net (ax_locks res) = 0 /\ held L_sync (ax_locks res) = 1) /\
  ((state net = IL_NET_STATE_OPERATIVE /\ se_write odd <> 0) /\
   exists res,
     il_net_axes_list_get 0x2000 1 (Some net) (mkMem ∅ ∅) 0x4010 7 0x7000 0
       odd = Some res /\
     ax_lst res = [] /\ ax_found res = []) /\
  ((state net = IL_NET_STATE_OPERATIVE /\
    Exists (fun t => turn_wait t <> OSAL_WOKEN) (se_turns timed)) /\
   exists res,
     il_net_axes_list_get 0x2000 1 (Some net) (mkMem ∅ ∅) 0x4010 7 0x7000 0
       timed = Some res /\
     held L_sync (ax_locks res) = 0 /\
     (length (ax_lst res) + ax_freed res <= 3)%nat).
Proof.
  intros net lost odd timed.
  assert (H1 : state net = IL_NET_STATE_OPERATIVE) by reflexivity.
  assert (Hl : se_write lost <> 0) by discriminate.
  assert (Ho : se_write odd <> 0) by discriminate.
  assert (Ht : Exists (fun t => turn_wait t <> OSAL_WOKEN) (se_turns timed)).
  { apply Exists_cons_tl, Exists_cons_hd. discriminate. }
  split; [|split].
  - split; [exact (conj H1 Hl)|].
    destruct (axes_scan_locks_and_slot 0x2000 1 0x4010 7 0x7000 0 net
                (mkMem ∅ ∅) lost H1 (or_introl Hl))
      as (res & E & _ & Hn & Hneg & _).
    exists res. split; [exact E|]. split; [exact Hn|].
    apply Hneg. cbn. lia.
  - split; [exact (conj H1 Ho)|].
    destruct (axes_scan_locks_and_slot 0x2000 1 0x4010 7 0x7000 0 net
                (mkMem ∅ ∅) odd H1 (or_introl Ho))
      as (res & E & _ & _ & _ & Hpos & _).
    exists res. split; [exact E|].
    destruct Hpos as (Hlst & Hfound & _); [cbn; lia|].
    split; [exact Hlst | exact Hfound].
  - split; [exact (conj H1 Ht)|].
    destruct (axes_scan_locks_and_slot 0x2000 1 0x4010 7 0x7000 0 net
                (mkMem ∅ ∅) timed H1 (or_intror Ht))
      as (res & E & _ & _ & _ & _ & Hok).
    exists res. split; [exact E|].
    destruct Hok as (Hs & _ & Hlen & _); [cbn; lia|].
    split; [exact Hs | exact Hlen].
Defined.

End AxesFacts.
